(** * download_bac_exams.py: reconciliation, gap filling and validated fetch

    A shallow embedding of [download_bac_exams.py] and the properties of
    its reconciliation engine, classifiers, fallback search and download
    step.

    A Python [str] is a sequence of Unicode code points, a [bytes] value a
    sequence of numbers below 256; both are lists of [char].  What Python
    takes from the Unicode character database ([str.lower], the decimal
    digits of [\d] and [int], the white space of [strip()], [str.isdigit])
    is a field of the class [PyStr.Unicode], with the behaviour on ASCII as
    laws.  A call returns or raises ([result]); the functions of [urllib]
    are the fields of the class [Urllib], the network, the HTML selector
    and the directory of the script those of the class [Web].  The storage
    tree is a map from paths to contents.  Logging, the creation of
    directories and the writing of the manifest files are not modelled. *)

From Stdlib Require Import ZArith NArith List Ascii String Bool Lia.
From stdpp Require Import base option list gmap strings sorting.

(** A character: its code point. *)
Definition char := N.
Bind Scope char_scope with char.

Global Instance char_eq_dec : EqDecision char := N.eq_dec.
Global Instance char_countable : Countable char := N_countable.

(** A character written as a literal. *)
Definition chr (a : ascii) : char := N_of_ascii a.
Coercion chr : ascii >-> char.

Abbreviation text := (list char).

(** The code points of a text written in UTF-8. *)
Fixpoint utf8_decode (bs : list N) : text :=
  match bs with
  | [] => []
  | b0 :: rest =>
      if (b0 <? 128)%N then b0 :: utf8_decode rest
      else if (b0 <? 224)%N then
        match rest with
        | b1 :: rest' => ((b0 - 192) * 64 + (b1 - 128))%N :: utf8_decode rest'
        | _ => []
        end
      else if (b0 <? 240)%N then
        match rest with
        | b1 :: b2 :: rest' =>
            (((b0 - 224) * 64 + (b1 - 128)) * 64 + (b2 - 128))%N :: utf8_decode rest'
        | _ => []
        end
      else
        match rest with
        | b1 :: b2 :: b3 :: rest' =>
            ((((b0 - 240) * 64 + (b1 - 128)) * 64 + (b2 - 128)) * 64 + (b3 - 128))%N
            :: utf8_decode rest'
        | _ => []
        end
  end.

(** A string literal of the source, as text. *)
Definition lit (s : string) : text :=
  utf8_decode (N_of_ascii <$> list_ascii_of_string s).

(* ===================================================================== *)
(** ** Python string primitives *)
(* ===================================================================== *)

Module PyStr.

Definition between (lo hi : N) (c : char) : bool :=
  (lo <=? c)%N && (c <=? hi)%N.

Definition is_digit (c : char) : bool := between 48 57 c.
Definition is_upper (c : char) : bool := between 65 90 c.
Definition is_lower (c : char) : bool := between 97 122 c.

(** The character class [A-Za-z0-9]. *)
Definition is_alnum (c : char) : bool := is_upper c || is_lower c || is_digit c.

(** The value of an ASCII digit. *)
Definition digit_val (c : char) : Z := Z.of_N c - 48.

(** The small letter of an ASCII capital. *)
Definition ascii_lower (c : char) : char :=
  if is_upper c then (c + 32)%N else c.

(** What Python takes from the Unicode character database.  The laws say
    how the functions behave on ASCII, and that a decimal digit has a value
    from 0 to 9 and is no white space. *)
Class Unicode := {
  (** [unicodedata.decimal(c)]: the value of a decimal digit (category
      Nd), the characters that [\d] matches and that [int] reads. *)
  decimal : char → option Z;
  (** [c.isspace()], the characters that [strip()] removes. *)
  isspace : char → bool;
  (** [c.isdigit()] for one character. *)
  isdigit1 : char → bool;
  (** [s.lower()] *)
  lower : text → text;
  decimal_ascii : ∀ c, (c < 128)%N →
    decimal c = if is_digit c then Some (digit_val c) else None;
  decimal_range : ∀ c v, decimal c = Some v → (0 ≤ v ≤ 9)%Z;
  decimal_not_space : ∀ c v, decimal c = Some v → isspace c = false;
  isspace_ascii : ∀ c, (c < 128)%N → isspace c = between 9 13 c || between 28 32 c;
  isdigit1_ascii : ∀ c, (c < 128)%N → isdigit1 c = is_digit c;
  lower_ascii : ∀ s, Forall (λ c, (c < 128)%N) s → lower s = map ascii_lower s
}.

Definition char_eqb (a b : char) : bool := N.eqb a b.

(** [s.startswith(p)] *)
Fixpoint startswith (s p : text) {struct p} : bool :=
  match p, s with
  | [], _ => true
  | _ :: _, [] => false
  | d :: p', c :: s' => char_eqb c d && startswith s' p'
  end.

(** [s.endswith(p)] *)
Definition endswith (s p : text) : bool := startswith (rev s) (rev p).

(** [needle in hay] *)
Fixpoint contains (needle hay : text) : bool :=
  startswith hay needle ||
  match hay with
  | [] => false
  | _ :: rest => contains needle rest
  end.

(** [s.lstrip(chars)] and [s.rstrip(chars)], the set of characters given
    as a predicate. *)
Fixpoint lstrip (p : char → bool) (s : text) : text :=
  match s with
  | [] => []
  | c :: rest => if p c then lstrip p rest else s
  end.

Definition is_nil (s : text) : bool :=
  match s with [] => true | _ => false end.

Fixpoint rstrip (p : char → bool) (s : text) : text :=
  match s with
  | [] => []
  | c :: rest =>
      let r := rstrip p rest in
      if p c && is_nil r then [] else c :: r
  end.

(** [s.strip(chars)]: the left end first, then the right end. *)
Definition strip (p : char → bool) (s : text) : text := rstrip p (lstrip p s).

(** [sep.join(parts)] *)
Fixpoint join (sep : text) (parts : list text) : text :=
  match parts with
  | [] => []
  | [x] => x
  | x :: rest => x ++ sep ++ join sep rest
  end.

(** [s.split(sep)] for a one-character separator. *)
Fixpoint split (sep : char) (s : text) : list text :=
  match s with
  | [] => [[]]
  | c :: rest =>
      if char_eqb c sep then [] :: split sep rest
      else match split sep rest with
           | piece :: more => (c :: piece) :: more
           | [] => [[c]]
           end
  end.

(** The digits of an integer literal after its first digit: single
    underscores are allowed between digits. *)
Fixpoint int_digits (s : text) (acc : Z) : option Z :=
  match s with
  | [] => Some acc
  | c :: rest =>
      if is_digit c then int_digits rest (10 * acc + digit_val c)%Z
      else if char_eqb c "_" then
        match rest with
        | d :: rest' =>
            if is_digit d then int_digits rest' (10 * acc + digit_val d)%Z
            else None
        | [] => None
        end
      else None
  end.

Definition int_unsigned (s : text) : option Z :=
  match s with
  | c :: rest => if is_digit c then int_digits rest (digit_val c) else None
  | [] => None
  end.

(** The white space that the parser of integer literals skips at the two
    ends: the one of C, [" \t\n\v\f\r"]. *)
Definition is_c_space (c : char) : bool := between 9 13 c || char_eqb c " ".

(** The parser of integer literals in base 10, on ASCII: white space at
    the ends, a sign, digits with single underscores between them. *)
Definition int_ascii (s : text) : option Z :=
  match strip is_c_space s with
  | c :: rest =>
      if char_eqb c "-" then Z.opp <$> int_unsigned rest
      else if char_eqb c "+" then int_unsigned rest
      else int_unsigned (c :: rest)
  | [] => None
  end.

Section WithUnicode.
Context {Uc : Unicode}.

(** [s.isdigit()] *)
Definition isdigit (s : text) : bool := negb (is_nil s) && forallb isdigit1 s.

(** What [int] does to a character before it parses: an ASCII character
    stays, another white space becomes a space, another decimal digit the
    ASCII digit of its value, anything else a character that no literal
    has. *)
Definition to_ascii (c : char) : char :=
  if (c <? 128)%N then c
  else if isspace c then " "%char
  else match decimal c with
       | Some v => (48 + Z.to_N v)%N
       | None => "?"%char
       end.

(** [int(s)] for a string: [None] stands for [ValueError].  The limit of
    recent versions on the number of digits is not modelled. *)
Definition int (s : text) : option Z := int_ascii (map to_ascii s).

End WithUnicode.

(** [str(n)] for an integer. *)
Fixpoint pos_digits (fuel : nat) (n : Z) (acc : text) : text :=
  match fuel with
  | O => acc
  | S fuel' =>
      let d : char := (Z.to_N (n mod 10) + 48)%N in
      if (n <? 10)%Z then d :: acc
      else pos_digits fuel' (n / 10)%Z (d :: acc)
  end.

Definition str (n : Z) : text :=
  if (n <? 0)%Z then chr "-" :: pos_digits (Z.to_nat (- n)) (- n)%Z []
  else pos_digits (S (Z.to_nat n)) n [].

(** Comparison of two strings, code point by code point, [s <= t]. *)
Fixpoint leb (s t : text) : bool :=
  match s, t with
  | [], _ => true
  | _ :: _, [] => false
  | c :: s', d :: t' =>
      if (c <? d)%N then true
      else if (d <? c)%N then false
      else leb s' t'
  end.

End PyStr.

(* ===================================================================== *)
(** ** Configuration *)
(* ===================================================================== *)

Abbreviation Path := (list text).
Abbreviation bytes := (list char).

(** A constant [dict] with string keys, and [d.get(k)]. *)
Fixpoint dict_get {V} (d : list (text * V)) (k : text) : option V :=
  match d with
  | [] => None
  | (k', v) :: rest => if decide (k = k') then Some v else dict_get rest k
  end.

(** [x in xs] for a tuple or set of strings. *)
Definition inb (x : text) (xs : list text) : bool := bool_decide (x ∈ xs).

Definition YEARS : list Z := seqZ 2008 (2025 - 2008).
Definition TARGET_SESSIONS : list text := [lit "Normale"; lit "Rattrapage"].
Definition TARGET_ASSET_TYPES : list text := [lit "MainExam"; lit "Correction"].
Definition SESSION_LABELS : list (text * text) :=
  [(lit "Normale", lit "Normale"); (lit "Rattrapage", lit "Rattrapage")].
Definition TYPE_LABELS : list (text * text) :=
  [(lit "MainExam", lit "Sujet"); (lit "Correction", lit "Corrigé")].
Definition SESSION_ORDER : list (text * Z) :=
  [(lit "Normale", 0%Z); (lit "Rattrapage", 1%Z)].
Definition TYPE_ORDER : list (text * Z) :=
  [(lit "MainExam", 0%Z); (lit "Correction", 1%Z)].
Definition PREFERRED_DOMAINS : list text :=
  [lit "telmidtice.com"; lit "men.gov.ma"; lit "drive.google.com";
   lit "docs.google.com"].

(** A format string: literal text and the three named fields. *)
Inductive piece := Lit (s : text) | FYear | FSession | FType.

Record Pattern := {
  base_url : text;
  file_template : list piece;
  title_template : list piece
}.

Definition TELMID_PATTERNS : list (text * Pattern) :=
  [(lit "Math",
    {| base_url := lit "https://telmidtice.com/assets/2bac-pc/maths-fr/Examens Nationaux/";
       file_template :=
         [Lit (lit "TelmidTice - Examen National Maths Sciences et Technologies ");
          FYear; Lit (lit " "); FSession; Lit (lit " - "); FType; Lit (lit ".pdf")];
       title_template :=
         [Lit (lit "TelmidTICE Mathématiques "); FYear; Lit (lit " "); FSession;
          Lit (lit " – "); FType] |});
   (lit "PC",
    {| base_url := lit "https://telmidtice.com/assets/2bac-pc/pc-fr/Examens Nationaux/";
       file_template :=
         [Lit (lit "TelmidTice - Examen National Physique-Chimie SPC ");
          FYear; Lit (lit " "); FSession; Lit (lit " - "); FType; Lit (lit ".pdf")];
       title_template :=
         [Lit (lit "TelmidTICE Physique-Chimie "); FYear; Lit (lit " "); FSession;
          Lit (lit " – "); FType] |});
   (lit "SVT",
    {| base_url := lit "https://telmidtice.com/assets/2bac-pc/svt-fr/Examens Nationaux/";
       file_template :=
         [Lit (lit "TelmidTice - Examen National SVT Sciences Physiques ");
          FYear; Lit (lit " "); FSession; Lit (lit " - "); FType; Lit (lit ".pdf")];
       title_template :=
         [Lit (lit "TelmidTICE SVT "); FYear; Lit (lit " "); FSession;
          Lit (lit " – "); FType] |})].

(** [template.format(year=..., session_label=..., type_label=...)] *)
Definition format (t : list piece) (year : Z) (session_label type_label : text) : text :=
  concat (map (λ p, match p with
                    | Lit s => s
                    | FYear => PyStr.str year
                    | FSession => session_label
                    | FType => type_label
                    end) t).

Definition SESSION_KEYWORDS : list (list text * text) :=
  [([lit "normale"; lit "normal"; lit "principale"; lit "main"; lit "regular"],
    lit "Normale");
   ([lit "rattrap"; lit "retake"; lit "extraordinaire"], lit "Rattrapage")].

(** The hosts of the two membership tests on [netloc]. *)
Definition GOOGLE_HOSTS : list text := [lit "drive.google.com"; lit "docs.google.com"].

(* ===================================================================== *)
(** ** Data structures and classifiers *)
(* ===================================================================== *)

Record ExamAsset := {
  subject_code : text;
  subject_label : text;
  year : option text;
  session : option text;
  asset_type : text;
  source_title : text;
  source_page : text;
  pdf_url : text;
  local_path : Path
}.

Global Instance ExamAsset_eq_dec : EqDecision ExamAsset.
Proof. solve_decision. Defined.

Section Classifiers.
Context {Uc : PyStr.Unicode}.

(** [\d] of a pattern compiled from a [str]: a decimal digit of any
    script. *)
Definition re_digit (c : char) : bool :=
  match PyStr.decimal c with
  | Some _ => true
  | None => false
  end.

(** One alternative of [EXAM_YEAR_RE] at the start of [s]: the two given
    characters, then [\d{2}]. *)
Definition match_century (a b : char) (s : text) : option text :=
  match s with
  | c1 :: c2 :: c3 :: c4 :: _ =>
      if PyStr.char_eqb c1 a && PyStr.char_eqb c2 b
         && re_digit c3 && re_digit c4
      then Some [c1; c2; c3; c4] else None
  | _ => None
  end.

(** [(20\d{2}|19\d{2})] anchored at the start of [s]. *)
Definition EXAM_YEAR_RE_match (s : text) : option text :=
  match match_century "2" "0" s with
  | Some y => Some y
  | None => match_century "1" "9" s
  end.

(** [EXAM_YEAR_RE.search(s)]: the match at the leftmost position that has
    one. *)
Fixpoint EXAM_YEAR_RE_search (s : text) : option text :=
  match EXAM_YEAR_RE_match s with
  | Some y => Some y
  | None => match s with
            | [] => None
            | _ :: rest => EXAM_YEAR_RE_search rest
            end
  end.

Definition identify_year (t : text) : option text := EXAM_YEAR_RE_search t.

Fixpoint first_keyword_label (table : list (list text * text)) (lowered : text)
  : option text :=
  match table with
  | [] => None
  | (keywords, label) :: rest =>
      if existsb (λ keyword, PyStr.contains keyword lowered) keywords
      then Some label
      else first_keyword_label rest lowered
  end.

Definition identify_session (t : text) : option text :=
  first_keyword_label SESSION_KEYWORDS (PyStr.lower t).

Definition identify_asset_type (t : text) : option text :=
  let lowered := PyStr.lower t in
  if PyStr.contains (lit "corrig") lowered then Some (lit "Correction")
  else if PyStr.contains (lit "sujet") lowered || PyStr.contains (lit "examen") lowered
  then Some (lit "MainExam")
  else None.

End Classifiers.

(** [re.sub(r"[^A-Za-z0-9]+", "_", s)]: every maximal run of characters
    outside the class becomes one underscore; [in_run] tells that the
    previous character belonged to such a run. *)
Fixpoint re_sub_nonalnum (in_run : bool) (s : text) : text :=
  match s with
  | [] => []
  | c :: rest =>
      if PyStr.is_alnum c then c :: re_sub_nonalnum false rest
      else if in_run then re_sub_nonalnum true rest
      else chr "_" :: re_sub_nonalnum true rest
  end.

Definition is_underscore (c : char) : bool := PyStr.char_eqb c "_".

Definition clean_part (part : text) : text :=
  PyStr.strip is_underscore (re_sub_nonalnum false part).

Fixpoint safe_parts_loop (parts : list text) (safe_parts : list text) : list text :=
  match parts with
  | [] => safe_parts
  | part :: rest =>
      let clean := clean_part part in
      if PyStr.is_nil clean then safe_parts_loop rest safe_parts
      else safe_parts_loop rest (safe_parts ++ [clean])
  end.

Definition sanitize_filename (parts : list text) (suffix : text) : text :=
  let safe_parts := safe_parts_loop parts [] in
  let combined :=
    match safe_parts with
    | [] => lit "document"
    | _ => PyStr.join (lit "_") safe_parts
    end in
  combined ++ suffix.

(** The default of the keyword argument [suffix]. *)
Definition default_suffix : text := lit ".pdf".

(** The canonical key: subject code, year as integer, session, asset type. *)
Abbreviation Key := (text * Z * text * text)%type.

Definition asset_key {Uc : PyStr.Unicode} (asset : ExamAsset) : option Key :=
  match year asset, session asset with
  | Some y, Some s =>
      match PyStr.int y with
      | None => None
      | Some year_int =>
          let session_name := default s (dict_get SESSION_LABELS s) in
          if negb (inb session_name TARGET_SESSIONS) then None
          else if negb (inb (asset_type asset) TARGET_ASSET_TYPES) then None
          else Some (subject_code asset, year_int, session_name, asset_type asset)
      end
  | _, _ => None
  end.

(** The loop of [host_rank]: the index of the first domain that [host]
    ends with. *)
Fixpoint host_rank_loop (idx : nat) (domains : list text) (host : text) : option nat :=
  match domains with
  | [] => None
  | domain :: rest =>
      if PyStr.endswith host domain then Some idx
      else host_rank_loop (S idx) rest host
  end.

Definition host_rank (host : text) : nat :=
  default (length PREFERRED_DOMAINS) (host_rank_loop 0 PREFERRED_DOMAINS host).

(* ===================================================================== *)
(** ** Exceptions and the outside world *)
(* ===================================================================== *)

(** A call either returns or raises; the only exception that escapes the
    functions below is [ValueError], of [urllib] and of [int]. *)
Inductive exn := ValueError.

Inductive result (A : Type) :=
  | Ok (a : A)
  | Raise (e : exn).
Arguments Ok {A} a.
Arguments Raise {A} e.

Global Instance exn_eq_dec : EqDecision exn.
Proof. solve_decision. Defined.

Global Instance result_eq_dec {A} `{EqDecision A} : EqDecision (result A).
Proof. solve_decision. Defined.

Global Instance result_ret : MRet result := λ A a, Ok a.
Global Instance result_bind : MBind result := λ A B f r,
  match r with
  | Ok a => f a
  | Raise e => Raise e
  end.

(** What [urlparse] returns. *)
Record ParseResult := {
  scheme : text;
  netloc : text;
  path : text;
  params : text;
  query : text;
  fragment : text
}.

(** The functions of [urllib.parse] the program calls.  [urljoin] and
    [urlparse] raise [ValueError] on some malformed URLs. *)
Class Urllib := {
  urljoin : text → text → result text;
  urlparse : text → result ParseResult;
  parse_qs : text → gmap text (list text);
  unquote : text → text;
  quote : text → text
}.

(** An element selected by [soup.select(...)]: [anchor.get("href")] and
    [anchor.get_text(strip=True)]. *)
Record Anchor := {
  href : option text;
  get_text : text
}.

(** The outcome of [session.get(page_url)] followed by
    [raise_for_status()], and the anchors that the selector finds in the
    page text. *)
Inductive PageOutcome :=
  | PageRaises
  | PageAnchors (anchors : list Anchor).

(** The outcome of [session.head(url)]: a status code, or a
    [RequestException]. *)
Inductive HeadOutcome :=
  | HeadRaises
  | HeadStatus (status : Z).

(** How the iteration over [response.iter_content] ends: exhausted, or
    with a [RequestException] raised by the transport. *)
Inductive StreamEnd := StreamDone | StreamBroken.

(** A response: its status, the chunks that [iter_content] yields and how
    the iteration ends.  The headers are left out, they only feed a log
    message. *)
Record Response := {
  status_code : Z;
  content : list bytes;
  content_end : StreamEnd
}.

(** The outcome of [session.get(url, stream=True)]. *)
Inductive GetOutcome :=
  | GetRaises
  | GetResponse (r : Response).

(** The network and the place of the script.  The reply to a download
    may depend on how many downloads were issued before it. *)
Class Web := {
  ROOT_DIR : Path;
  fetch_page : text → PageOutcome;
  http_head : text → HeadOutcome;
  http_get : nat → text → GetOutcome
}.

(** The storage tree (the files, by path) and the downloads issued. *)
Record World := {
  files : gmap Path bytes;
  requests : list text
}.

(* ===================================================================== *)
(** ** Link extraction *)
(* ===================================================================== *)

Section Extractor.
Context {Uc : PyStr.Unicode} {U : Urllib}.

(** [parts.index(x)] *)
Fixpoint list_index (x : text) (parts : list text) : option nat :=
  match parts with
  | [] => None
  | p :: rest => if decide (p = x) then Some 0 else S <$> list_index x rest
  end.

Definition is_slash (c : char) : bool := PyStr.char_eqb c "/".

Definition normalize_pdf_url (href base_url : text) : result text :=
  absolute ← urljoin base_url href;
  parsed ← urlparse absolute;
  let target :=
    if PyStr.contains (lit "telecharger") (path parsed)
    then parse_qs (query parsed) !! lit "url" else None in
  match target with
  | Some (t0 :: _) => Ok (unquote t0)
  | _ =>
      if inb (netloc parsed) GOOGLE_HOSTS then
        let parts := PyStr.split "/" (PyStr.strip is_slash (path parsed)) in
        if inb (lit "file") parts && inb (lit "d") parts then
          match list_index (lit "d") parts with
          | Some i =>
              match parts !! (i + 1) with
              | Some file_id =>
                  Ok (lit "https://drive.google.com/uc?export=download&id=" ++ file_id)
              | None => Ok absolute
              end
          | None => Ok absolute
          end
        else Ok absolute
      else Ok absolute
  end.

(** The body of the loop over the anchors: the assets and the URLs seen
    so far go in and come out. *)
Definition parse_anchor (page_url subject_code subject_label : text)
    (target_folder : Path) (anchor : Anchor)
    (st : list ExamAsset * gset text) : result (list ExamAsset * gset text) :=
  let '(assets, seen_pdf_urls) := st in
  match href anchor with
  | None => Ok st
  | Some h =>
      if PyStr.is_nil h then Ok st else
      pdf_url ← normalize_pdf_url h page_url;
      if PyStr.is_nil pdf_url then Ok st else
      parsed_pdf ← urlparse pdf_url;
      if negb (PyStr.endswith (PyStr.lower pdf_url) (lit ".pdf"))
         && negb (inb (netloc parsed_pdf) GOOGLE_HOSTS)
      then Ok st else
      let title := get_text anchor in
      if PyStr.is_nil title then Ok st else
      if PyStr.contains (lit "préparation") (PyStr.lower title)
         || PyStr.contains (lit "preparation") (PyStr.lower title)
      then Ok st else
      match identify_asset_type title with
      | None => Ok st
      | Some asset_type =>
          let pdf_url_key := PyStr.strip PyStr.isspace pdf_url in
          if bool_decide (pdf_url_key ∈ seen_pdf_urls) then Ok st else
          let year := identify_year title in
          let session := identify_session title in
          let filename :=
            sanitize_filename
              [subject_code; default (lit "unknown_year") year;
               default (lit "session") session; asset_type]
              default_suffix in
          let asset :=
            {| subject_code := subject_code;
               subject_label := subject_label;
               year := year;
               session := session;
               asset_type := asset_type;
               source_title := title;
               source_page := page_url;
               pdf_url := pdf_url;
               local_path := target_folder ++ [filename] |} in
          Ok (assets ++ [asset], {[pdf_url_key]} ∪ seen_pdf_urls)
      end
  end.

Fixpoint parse_anchors (page_url subject_code subject_label : text)
    (target_folder : Path) (anchors : list Anchor)
    (st : list ExamAsset * gset text) : result (list ExamAsset * gset text) :=
  match anchors with
  | [] => Ok st
  | anchor :: rest =>
      st' ← parse_anchor page_url subject_code subject_label target_folder anchor st;
      parse_anchors page_url subject_code subject_label target_folder rest st'
  end.

(** [parse_exam_links], from the anchors that the selector returns. *)
Definition parse_exam_links (anchors : list Anchor)
    (page_url subject_code subject_label : text) (target_folder : Path)
  : result (list ExamAsset) :=
  st ← parse_anchors page_url subject_code subject_label target_folder anchors ([], ∅);
  Ok (st.1).

End Extractor.

(* ===================================================================== *)
(** ** Reconciliation *)
(* ===================================================================== *)

Section Reconciliation.
Context {Uc : PyStr.Unicode} {U : Urllib}.

(** [urlparse(asset.pdf_url).netloc.lower()] *)
Definition asset_host (asset : ExamAsset) : result text :=
  parsed ← urlparse (pdf_url asset);
  Ok (PyStr.lower (netloc parsed)).

Definition prefer_asset (candidate current : ExamAsset) : result bool :=
  candidate_host ← asset_host candidate;
  current_host ← asset_host current;
  Ok (host_rank candidate_host <? host_rank current_host).

(** The body of the loop of [main] over the harvested assets. *)
Definition reconcile_asset (assets_by_key : gmap Key ExamAsset) (asset : ExamAsset)
  : result (gmap Key ExamAsset) :=
  match asset_key asset with
  | None => Ok assets_by_key
  | Some key =>
      match assets_by_key !! key with
      | None => Ok (<[key := asset]> assets_by_key)
      | Some existing =>
          better ← prefer_asset asset existing;
          Ok (if better : bool then <[key := asset]> assets_by_key else assets_by_key)
      end
  end.

Fixpoint reconcile (subject_assets : list ExamAsset)
    (assets_by_key : gmap Key ExamAsset) : result (gmap Key ExamAsset) :=
  match subject_assets with
  | [] => Ok assets_by_key
  | asset :: rest =>
      assets_by_key' ← reconcile_asset assets_by_key asset;
      reconcile rest assets_by_key'
  end.

End Reconciliation.

(* ===================================================================== *)
(** ** Gap synthesis *)
(* ===================================================================== *)

(** An entry of [SUBJECT_SOURCES]. *)
Record Subject := {
  s_code : text;
  s_label : text;
  s_folder : Path;
  s_pages : list text
}.

Section Synthesizer.
Context {Uc : PyStr.Unicode} {U : Urllib} {N : Web}.

Definition SUBJECT_SOURCES : list Subject :=
  [{| s_code := lit "Math"; s_label := lit "Mathématiques";
      s_folder := ROOT_DIR ++ [lit "Math"];
      s_pages :=
        [lit "https://telmidtice.com/2bac-pc-mathematiques-examens-nationaux/";
         lit "https://www.taalime.ma/examen-national-math-bac-sciences-mathematique-avec-correction-biof-pdf-maroc/"] |};
   {| s_code := lit "PC"; s_label := lit "Sciences Physiques (PC)";
      s_folder := ROOT_DIR ++ [lit "PC"];
      s_pages :=
        [lit "https://telmidtice.com/2bac-pc-pc-examens-nationaux/";
         lit "https://www.taalime.ma/examen-national-physique-chimie-bac-sciences-physique-svt-avec-correction-biof-pdf-maroc/"] |};
   {| s_code := lit "SVT"; s_label := lit "Sciences de la Vie et de la Terre (SVT)";
      s_folder := ROOT_DIR ++ [lit "SVT"];
      s_pages :=
        [lit "https://telmidtice.com/2bac-pc-svt-examens-nationaux/";
         lit "https://www.taalime.ma/examen-national-svt-bac-sciences-de-la-vie-et-de-la-terre-avec-correction-biof-pdf-maroc/"] |}].

(** The URL that [build_telmid_asset] probes. *)
Definition telmid_url (pattern : Pattern) (year : Z)
    (session_label type_label : text) : text :=
  base_url pattern ++ quote (format (file_template pattern) year session_label type_label).

(** The probe: [head] returned with status 200. *)
Definition probe_ok (url : text) : bool :=
  match http_head url with
  | HeadStatus status => bool_decide (status = 200%Z)
  | HeadRaises => false
  end.

Definition build_telmid_asset (subject_code subject_label : text) (folder : Path)
    (year : Z) (session_name asset_type : text) : option ExamAsset :=
  match dict_get TELMID_PATTERNS subject_code with
  | None => None
  | Some pattern =>
      let session_label := default session_name (dict_get SESSION_LABELS session_name) in
      match dict_get TYPE_LABELS asset_type with
      | None => None
      | Some type_label =>
          let pdf_url := telmid_url pattern year session_label type_label in
          if negb (probe_ok pdf_url) then None else
          let local_filename :=
            sanitize_filename [subject_code; PyStr.str year; session_name; asset_type]
              default_suffix in
          Some {| subject_code := subject_code;
                  subject_label := subject_label;
                  year := Some (PyStr.str year);
                  session := Some session_name;
                  asset_type := asset_type;
                  source_title :=
                    format (title_template pattern) year session_label type_label;
                  source_page := base_url pattern;
                  pdf_url := pdf_url;
                  local_path := folder ++ [local_filename] |}
      end
  end.

(** The expected key space in the order of the four nested loops, each
    key with the label and folder of its subject. *)
Definition expected_entries : list (Subject * Z * text * text) :=
  config ← SUBJECT_SOURCES;
  year ← YEARS;
  session_name ← TARGET_SESSIONS;
  asset_type ← TARGET_ASSET_TYPES;
  [(config, year, session_name, asset_type)].

Definition entry_key (e : Subject * Z * text * text) : Key :=
  let '(config, year, session_name, asset_type) := e in
  (s_code config, year, session_name, asset_type).

(** The body of the innermost loop of the fallback search. *)
Definition fill_gap (assets_by_key : gmap Key ExamAsset)
    (e : Subject * Z * text * text) : gmap Key ExamAsset :=
  let '(config, year, session_name, asset_type) := e in
  let key := (s_code config, year, session_name, asset_type) in
  match assets_by_key !! key with
  | Some _ => assets_by_key
  | None =>
      match build_telmid_asset (s_code config) (s_label config) (s_folder config)
              year session_name asset_type with
      | Some fallback_asset => <[key := fallback_asset]> assets_by_key
      | None => assets_by_key
      end
  end.

Definition fill_gaps (assets_by_key : gmap Key ExamAsset) : gmap Key ExamAsset :=
  foldl fill_gap assets_by_key expected_entries.

Definition missing_keys (assets_by_key : gmap Key ExamAsset) : list Key :=
  filter (λ key, assets_by_key !! key = None) (entry_key <$> expected_entries).

End Synthesizer.

(* ===================================================================== *)
(** ** Fetch and validate *)
(* ===================================================================== *)

(** The tuple that the sort of [main] compares: subject code, year as a
    number, rank of the session, rank of the type, file name. *)
Abbreviation SortKey := (text * Z * Z * Z * text)%type.

Section Fetch.
Context {Uc : PyStr.Unicode} {U : Urllib} {N : Web}.

(** White space for [bytes.lstrip()]. *)
Definition is_bytes_space (c : char) : bool :=
  PyStr.between 9 13 c || PyStr.char_eqb c " ".

Definition PDF_MAGIC : bytes := lit "%PDF".

(** The loop over [iter_content]: empty chunks are skipped, the first
    other chunk is remembered, every such chunk is appended to the open
    file. *)
Fixpoint write_chunks (chunks : list bytes) (first_bytes : option bytes)
    (written : bytes) : option bytes * bytes :=
  match chunks with
  | [] => (first_bytes, written)
  | chunk :: rest =>
      if PyStr.is_nil chunk then write_chunks rest first_bytes written
      else write_chunks rest
             (match first_bytes with None => Some chunk | Some _ => first_bytes end)
             (written ++ chunk)
  end.

Definition looks_like_pdf (first_bytes : option bytes) : bool :=
  match first_bytes with
  | None => false
  | Some b => PyStr.startswith (PyStr.lstrip is_bytes_space b) PDF_MAGIC
  end.

(** [raise_for_status()] raises for the codes from 400 to 599. *)
Definition is_error_status (status : Z) : bool :=
  (400 <=? status)%Z && (status <? 600)%Z.

Definition download_pdf (asset : ExamAsset) (w : World) : bool * World :=
  let dest := local_path asset in
  match files w !! dest with
  | Some _ => (true, w)
  | None =>
      let reply := http_get (length (requests w)) (pdf_url asset) in
      let asked := requests w ++ [pdf_url asset] in
      match reply with
      | GetRaises => (false, {| files := files w; requests := asked |})
      | GetResponse response =>
          if is_error_status (status_code response)
          then (false, {| files := files w; requests := asked |})
          else
            let opened := <[dest := []]> (files w) in
            let '(first_bytes, written) := write_chunks (content response) None [] in
            let streamed := <[dest := written]> opened in
            match content_end response with
            | StreamBroken =>
                (false, {| files := delete dest streamed; requests := asked |})
            | StreamDone =>
                if negb (looks_like_pdf first_bytes)
                then (false, {| files := delete dest streamed; requests := asked |})
                else (true, {| files := streamed; requests := asked |})
            end
      end
  end.

(** The last loop of [main]: the manifest and the world after it. *)
Fixpoint fetch_all (sorted_assets : list ExamAsset) (manifest : list ExamAsset)
    (w : World) : list ExamAsset * World :=
  match sorted_assets with
  | [] => (manifest, w)
  | asset :: rest =>
      let '(ok, w') := download_pdf asset w in
      fetch_all rest (if ok then manifest ++ [asset] else manifest) w'
  end.

(** The sort key of [main]: [int] raises [ValueError] for a year that
    [isdigit] accepts and that is no decimal number. *)
Definition sort_key (asset : ExamAsset) : result SortKey :=
  year_int ←
    match year asset with
    | Some y =>
        if negb (PyStr.is_nil y) && PyStr.isdigit y then
          match PyStr.int y with
          | Some n => Ok n
          | None => Raise ValueError
          end
        else Ok 0%Z
    | None => Ok 0%Z
    end;
  Ok (subject_code asset,
      year_int,
      default 99%Z (dict_get SESSION_ORDER (default [] (session asset))),
      default 99%Z (dict_get TYPE_ORDER (asset_type asset)),
      default [] (last (local_path asset))).

(** Tuple comparison, [k1 <= k2]. *)
Definition sort_key_leb (k1 k2 : SortKey) : bool :=
  let '(s1, y1, o1, t1, n1) := k1 in
  let '(s2, y2, o2, t2, n2) := k2 in
  if negb (bool_decide (s1 = s2)) then PyStr.leb s1 s2
  else if negb (y1 =? y2)%Z then (y1 <? y2)%Z
  else if negb (o1 =? o2)%Z then (o1 <? o2)%Z
  else if negb (t1 =? t2)%Z then (t1 <? t2)%Z
  else PyStr.leb n1 n2.

(** The keys of the assets, computed once each, in the order of the
    list. *)
Fixpoint sort_keys (l : list ExamAsset) : result (list (SortKey * ExamAsset)) :=
  match l with
  | [] => Ok []
  | asset :: rest =>
      key ← sort_key asset;
      keyed_rest ← sort_keys rest;
      Ok ((key, asset) :: keyed_rest)
  end.

Fixpoint insert_sorted (item : SortKey * ExamAsset) (l : list (SortKey * ExamAsset))
  : list (SortKey * ExamAsset) :=
  match l with
  | [] => [item]
  | other :: rest =>
      if sort_key_leb item.1 other.1 then item :: l
      else other :: insert_sorted item rest
  end.

(** [sorted(values, key=...)], a stable sort on the keys. *)
Definition sorted (l : list ExamAsset) : result (list ExamAsset) :=
  keyed_assets ← sort_keys l;
  Ok ((foldr insert_sorted [] keyed_assets).*2).

Definition harvest_page (subject_code label : text) (folder : Path) (page_url : text)
  : result (list ExamAsset) :=
  match fetch_page page_url with
  | PageRaises => Ok []
  | PageAnchors anchors => parse_exam_links anchors page_url subject_code label folder
  end.

Fixpoint harvest_subject (subject_code label : text) (folder : Path)
    (pages : list text) : result (list ExamAsset) :=
  match pages with
  | [] => Ok []
  | page_url :: rest =>
      new_assets ← harvest_page subject_code label folder page_url;
      more ← harvest_subject subject_code label folder rest;
      Ok (new_assets ++ more)
  end.

(** The first loop of [main]: harvest and reconcile, subject by subject. *)
Fixpoint harvest_all (subjects : list Subject) (assets_by_key : gmap Key ExamAsset)
  : result (gmap Key ExamAsset) :=
  match subjects with
  | [] => Ok assets_by_key
  | config :: rest =>
      subject_assets ←
        harvest_subject (s_code config) (s_label config) (s_folder config)
          (s_pages config);
      assets_by_key' ← reconcile subject_assets assets_by_key;
      harvest_all rest assets_by_key'
  end.

(** [assets_by_key.values()] *)
Definition values (assets_by_key : gmap Key ExamAsset) : list ExamAsset :=
  (map_to_list assets_by_key).*2.

(** From a reconciled map to the manifest: fallback search, sort, fetch. *)
Definition complete_and_fetch (assets_by_key : gmap Key ExamAsset) (w : World)
  : result (gmap Key ExamAsset * list ExamAsset * World) :=
  let filled := fill_gaps assets_by_key in
  sorted_assets ← sorted (values filled);
  let '(manifest, w') := fetch_all sorted_assets [] w in
  Ok (filled, manifest, w').

(** [main]: the final map, the manifest (the accepted set) and the world. *)
Definition main (w : World) : result (gmap Key ExamAsset * list ExamAsset * World) :=
  assets_by_key ← harvest_all SUBJECT_SOURCES ∅;
  complete_and_fetch assets_by_key w.

End Fetch.


(* ===================================================================== *)
(** ** Vocabulary of the properties *)
(* ===================================================================== *)

(** The text has the keyword as a substring, whatever the case of its
    letters. *)
Definition has_keyword {Uc : PyStr.Unicode} (keyword t : text) : Prop :=
  ∃ pre post, PyStr.lower t = pre ++ keyword ++ post.

(** A decimal digit, of any script: a character that has a decimal value
    in the character database. *)
Definition is_decimal_digit {Uc : PyStr.Unicode} (c : char) : Prop :=
  ∃ v, PyStr.decimal c = Some v.

(** A four-character token of the shape 20dd or 19dd, [d] a decimal
    digit. *)
Definition is_year_token {Uc : PyStr.Unicode} (y : text) : Prop :=
  ∃ c d, is_decimal_digit c ∧ is_decimal_digit d
         ∧ (y = [chr "2"; chr "0"; c; d] ∨ y = [chr "1"; chr "9"; c; d]).

(** The pieces of a text between its characters outside [A-Za-z0-9]. *)
Fixpoint alnum_pieces (s : text) : list text :=
  match s with
  | [] => [[]]
  | c :: rest =>
      if PyStr.is_alnum c then
        match alnum_pieces rest with
        | p :: ps => (c :: p) :: ps
        | [] => [[c]]
        end
      else [] :: alnum_pieces rest
  end.

(** The maximal runs of characters of [A-Za-z0-9] of a text, in order. *)
Definition alnum_runs (s : text) : list text :=
  filter (λ p, p ≠ []) (alnum_pieces s).

(** The characters of a sanitized name: [A-Za-z0-9_.]. *)
Definition is_name_char (c : char) : bool :=
  PyStr.is_alnum c || PyStr.char_eqb c "_" || PyStr.char_eqb c ".".

(** The text starts with a character of [A-Za-z0-9]. *)
Definition head_alnum (s : text) : bool :=
  match s with
  | c :: _ => PyStr.is_alnum c
  | [] => false
  end.

(** [urlparse] returns for the URL of the asset. *)
Definition url_parses {U : Urllib} (asset : ExamAsset) : Prop :=
  ∃ parsed, urlparse (pdf_url asset) = Ok parsed.

(** Every entry of the map is stored under its own canonical key. *)
Definition keyed {Uc : PyStr.Unicode} (m : gmap Key ExamAsset) : Prop :=
  ∀ key asset, m !! key = Some asset → asset_key asset = Some key.

(** *** A small character database for the examples

    On ASCII as Python has it; besides, the Arabic-Indic digits are decimal
    digits, the white space is that of Unicode, the digits in superscript
    are digits that are not decimal, and [lower] knows the capitals of
    Latin-1, the Kelvin sign and the capital I with a dot above.  The
    examples use no character on which this database and the one of Python
    differ. *)

Definition demo_decimal (c : char) : option Z :=
  if (c <? 128)%N then
    if PyStr.is_digit c then Some (PyStr.digit_val c) else None
  else if PyStr.between 1632 1641 c then Some (Z.of_N c - 1632)%Z
  else None.

Definition demo_isspace (c : char) : bool :=
  if (c <? 128)%N then PyStr.between 9 13 c || PyStr.between 28 32 c
  else (c =? 133)%N || (c =? 160)%N || (c =? 5760)%N || PyStr.between 8192 8202 c
       || (c =? 8232)%N || (c =? 8233)%N || (c =? 8239)%N || (c =? 8287)%N
       || (c =? 12288)%N.

Definition demo_isdigit1 (c : char) : bool :=
  if (c <? 128)%N then PyStr.is_digit c
  else PyStr.between 1632 1641 c || (c =? 178)%N || (c =? 179)%N || (c =? 185)%N.

Definition demo_lower_char (c : char) : text :=
  if (c <? 128)%N then [PyStr.ascii_lower c]
  else if PyStr.between 192 222 c && negb (c =? 215)%N then [(c + 32)%N]
  else if (c =? 8490)%N then [chr "k"]
  else if (c =? 304)%N then [chr "i"; 775%N]
  else [c].

Definition demo_lower (s : text) : text := s ≫= demo_lower_char.

Global Instance demo_unicode : PyStr.Unicode.
Proof.
  refine {| PyStr.decimal := demo_decimal; PyStr.isspace := demo_isspace;
            PyStr.isdigit1 := demo_isdigit1; PyStr.lower := demo_lower |}.
  - intros c Hc. unfold demo_decimal. by rewrite (proj2 (N.ltb_lt _ _) Hc).
  - intros c v. unfold demo_decimal, PyStr.is_digit, PyStr.digit_val, PyStr.between.
    destruct (c <? 128)%N.
    + destruct (N.leb_spec 48 c), (N.leb_spec c 57); cbn [andb]; intros [= <-]; lia.
    + destruct (N.leb_spec 1632 c), (N.leb_spec c 1641); cbn [andb]; intros [= <-]; lia.
  - intros c v. unfold demo_decimal, demo_isspace, PyStr.is_digit, PyStr.between.
    destruct (c <? 128)%N.
    + destruct (N.leb_spec 48 c), (N.leb_spec c 57); cbn [andb]; intros [= <-].
      destruct (N.leb_spec 9 c), (N.leb_spec c 13), (N.leb_spec 28 c), (N.leb_spec c 32);
        cbn [andb orb]; first [reflexivity | lia].
    + destruct (N.leb_spec 1632 c), (N.leb_spec c 1641); cbn [andb]; intros [= <-].
      destruct (N.eqb_spec c 133), (N.eqb_spec c 160), (N.eqb_spec c 5760),
        (N.leb_spec 8192 c), (N.eqb_spec c 8232), (N.eqb_spec c 8233),
        (N.eqb_spec c 8239), (N.eqb_spec c 8287), (N.eqb_spec c 12288);
        cbn [andb orb]; first [reflexivity | lia].
  - intros c Hc. unfold demo_isspace. by rewrite (proj2 (N.ltb_lt _ _) Hc).
  - intros c Hc. unfold demo_isdigit1. by rewrite (proj2 (N.ltb_lt _ _) Hc).
  - intros s Hs. unfold demo_lower. induction Hs as [|c s Hc _ IH]; [reflexivity|].
    cbn [mbind list_bind map]. rewrite IH. unfold demo_lower_char.
    by rewrite (proj2 (N.ltb_lt _ _) Hc).
Defined.

(** *** A small [urllib] for the examples

    URLs of the shape scheme://netloc/path?query; a host with an opening
    bracket and no closing one raises, as in [urllib]. *)

Fixpoint take_until (stop : char) (s : text) : text :=
  match s with
  | [] => []
  | c :: rest => if PyStr.char_eqb c stop then [] else c :: take_until stop rest
  end.

Fixpoint drop_until (stop : char) (s : text) : text :=
  match s with
  | [] => []
  | c :: rest => if PyStr.char_eqb c stop then s else drop_until stop rest
  end.

Definition demo_urlparse (u : text) : result ParseResult :=
  let sch := take_until ":" u in
  let after := drop 3 (drop_until ":" u) in
  let host := take_until "/" after in
  let rest := drop_until "/" after in
  if PyStr.contains (lit "[") host && negb (PyStr.contains (lit "]") host)
  then Raise ValueError
  else Ok {| scheme := sch; netloc := host; path := take_until "?" rest;
             params := []; query := drop 1 (drop_until "?" rest); fragment := [] |}.

Definition demo_urljoin (base href : text) : result text :=
  _ ← demo_urlparse href;
  if PyStr.contains (lit "://") href then Ok href else Ok (base ++ href).

Definition demo_parse_qs (q : text) : gmap text (list text) :=
  if PyStr.is_nil q then ∅
  else {[ take_until "=" q := [drop 1 (drop_until "=" q)] ]}.

Definition demo_urllib : Urllib :=
  {| urljoin := demo_urljoin; urlparse := demo_urlparse; parse_qs := demo_parse_qs;
     unquote := id; quote := id |}.

(** An asset with the given key fields and URL, for the examples. *)
Definition demo_asset (code y s ty title url : text) : ExamAsset :=
  {| subject_code := code; subject_label := code; year := Some y; session := Some s;
     asset_type := ty; source_title := title; source_page := lit "https://example.org/";
     pdf_url := url;
     local_path := [lit "root"; code; sanitize_filename [code; y; s; ty] default_suffix] |}.

(** The example of the specification: Math 2021 Normale MainExam, from
    telmidtice.com and from a host outside the list; and one more asset. *)
Definition demo_math_key : Key := (lit "Math", 2021%Z, lit "Normale", lit "MainExam").

Definition demo_math_telmid : ExamAsset :=
  demo_asset (lit "Math") (lit "2021") (lit "Normale") (lit "MainExam")
    (lit "Sujet 2021 session normale") (lit "https://telmidtice.com/assets/math-2021.pdf").

Definition demo_math_other : ExamAsset :=
  demo_asset (lit "Math") (lit "2021") (lit "Normale") (lit "MainExam")
    (lit "Examen national 2021 normale") (lit "https://www.taalime.ma/files/math-2021.pdf").

Definition demo_pc_other : ExamAsset :=
  demo_asset (lit "PC") (lit "2019") (lit "Rattrapage") (lit "Correction")
    (lit "Corrigé 2019 rattrapage") (lit "https://www.taalime.ma/files/pc-2019.pdf").

(** Anchors for the examples: two exam links and a link to a page that
    is no document. *)
Definition demo_anchor_sujet : Anchor :=
  {| href := Some (lit "https://telmidtice.com/assets/math-2021.pdf");
     get_text := lit "Sujet 2021 session normale" |}.

Definition demo_anchor_foreign : Anchor :=
  {| href := Some (lit "https://www.example.org/contact.html");
     get_text := lit "Examen national: contact" |}.

Definition demo_anchor_corrige : Anchor :=
  {| href := Some (lit "https://telmidtice.com/assets/math-2021-c.pdf");
     get_text := lit "Corrigé 2021 session normale" |}.

(** A drill sheet, its title in capitals, and a year written with the
    digits of another script. *)
Definition demo_anchor_drill : Anchor :=
  {| href := Some (lit "https://telmidtice.com/assets/math-drill.pdf");
     get_text := lit "PRÉPARATION Examen 2021" |}.

Definition demo_anchor_other_script : Anchor :=
  {| href := Some (lit "https://telmidtice.com/assets/math-2021-ar.pdf");
     get_text := lit "Sujet 20٢١ session normale" |}.

(** A link through the download helper whose target has a malformed
    host. *)
Definition demo_anchor_malformed : Anchor :=
  {| href := Some (lit "https://telmidtice.com/telecharger?url=http://[bad");
     get_text := lit "Examen 2020" |}.

(** The URL that the fallback search probes for a key: the base URL of
    the template of the subject and the quoted file name. *)
Definition fallback_url {U : Urllib} (key : Key) : option text :=
  let '(code, year, session_name, asset_type) := key in
  pattern ← dict_get TELMID_PATTERNS code;
  type_label ← dict_get TYPE_LABELS asset_type;
  Some (telmid_url pattern year
          (default session_name (dict_get SESSION_LABELS session_name)) type_label).

(** A network for the examples: one page is served, the probe succeeds
    for the 2009 files, raises for the 2010 files and answers 404 for the
    others; four kinds of download. *)
Definition demo_head (url : text) : HeadOutcome :=
  if PyStr.contains (lit "2009") url then HeadStatus 200
  else if PyStr.contains (lit "2010") url then HeadRaises
  else HeadStatus 404.

Definition demo_get (n : nat) (url : text) : GetOutcome :=
  if PyStr.contains (lit "padded") url then
    GetResponse {| status_code := 200; content := [lit " %PDF-1.4 padded"];
                   content_end := StreamDone |}
  else if PyStr.contains (lit "broken") url then
    GetResponse {| status_code := 200; content := [lit "%PDF-1.4 "; lit "partial"];
                   content_end := StreamBroken |}
  else if PyStr.contains (lit "telmidtice.com") url then
    GetResponse {| status_code := 200; content := [[]; lit "%PDF-1.4 "; lit "body"];
                   content_end := StreamDone |}
  else if PyStr.contains (lit "taalime") url then
    GetResponse {| status_code := 200; content := [lit "<html>"; lit "not found</html>"];
                   content_end := StreamDone |}
  else GetRaises.

Definition demo_web : Web :=
  {| ROOT_DIR := [lit "root"];
     fetch_page := λ page_url,
       if decide (page_url =
                  lit "https://telmidtice.com/2bac-pc-mathematiques-examens-nationaux/")
       then PageAnchors [demo_anchor_sujet; demo_anchor_foreign; demo_anchor_corrige]
       else PageRaises;
     http_head := demo_head;
     http_get := demo_get |}.

Definition demo_world : World := {| files := ∅; requests := [] |}.

(** The value of a computation that returns, [d] for one that raises. *)
Definition returned {A} (d : A) (r : result A) : A :=
  match r with
  | Ok a => a
  | Raise _ => d
  end.

(** The run from the empty map on the example network: fallback search,
    sort and fetch. *)
Definition demo_gap_run : gmap Key ExamAsset * list ExamAsset * World :=
  returned (∅, [], demo_world)
    (complete_and_fetch (U := demo_urllib) (N := demo_web) ∅ demo_world).

(** The first chunk that is not empty, the one whose start is inspected. *)
Definition first_chunk (chunks : list bytes) : option bytes :=
  head (filter (λ chunk, chunk ≠ []) chunks).

(** The chunk, without its leading white space, starts with "%PDF". *)
Definition has_pdf_signature (chunk : bytes) : Prop :=
  ∃ post, PyStr.lstrip is_bytes_space chunk = PDF_MAGIC ++ post.

(** A reply on which the download fails: the request raises, the status
    is an error, the stream breaks, or it ends and the first chunk, if
    any, has no signature. *)
Definition failing_reply (reply : GetOutcome) : Prop :=
  match reply with
  | GetRaises => True
  | GetResponse r =>
      is_error_status (status_code r) = true
      ∨ content_end r = StreamBroken
      ∨ ∀ chunk, first_chunk (content r) = Some chunk → ¬ has_pdf_signature chunk
  end.

(** The destination of the asset exists in the storage tree. *)
Definition stored (w : World) (asset : ExamAsset) : Prop :=
  is_Some (files w !! local_path asset).

(** Assets for the download examples. *)
Definition demo_padded : ExamAsset :=
  demo_asset (lit "SVT") (lit "2012") (lit "Normale") (lit "MainExam")
    (lit "Sujet 2012 normale") (lit "https://cdn.example.org/padded-2012.pdf").

Definition demo_broken : ExamAsset :=
  demo_asset (lit "SVT") (lit "2013") (lit "Normale") (lit "MainExam")
    (lit "Sujet 2013 normale") (lit "https://cdn.example.org/broken-2013.pdf").

(* ===================================================================== *)
(** ** Vocabulary of the further properties *)
(* ===================================================================== *)

(** The rank of the host of an asset (0 when [urlparse] raises for its
    URL, a case in which [prefer_asset] raises as well). *)
Definition asset_rank {Uc : PyStr.Unicode} {U : Urllib} (asset : ExamAsset) : nat :=
  match asset_host asset with
  | Ok host => host_rank host
  | Raise _ => 0
  end.

(** [a], at position [i] of [l], is the best candidate of [key]: it has
    the key, no candidate of the key has a strictly smaller rank, and none
    of the same rank comes before it. *)
Definition best_candidate {Uc : PyStr.Unicode} {U : Urllib} (l : list ExamAsset) (key : Key)
    (i : nat) (a : ExamAsset) : Prop :=
  l !! i = Some a ∧ asset_key a = Some key ∧
  ∀ j b, l !! j = Some b → asset_key b = Some key →
         asset_rank a < asset_rank b ∨ (asset_rank a = asset_rank b ∧ i ≤ j).

(** A candidate without year, for the examples. *)
Definition demo_keyless : ExamAsset :=
  {| subject_code := lit "Math"; subject_label := lit "Math"; year := None;
     session := Some (lit "Normale"); asset_type := lit "MainExam";
     source_title := lit "Sujet session normale";
     source_page := lit "https://example.org/"; pdf_url := lit "http://[bad/x.pdf";
     local_path := [lit "root"; lit "Math"; lit "Math_unknown_year_Normale_MainExam.pdf"] |}.

(** The value of a string of digits read after the value [v]. *)
Definition digits_value (s : text) (v : Z) : Z :=
  fold_left (λ a c, (10 * a + PyStr.digit_val c)%Z) s v.

(** The fallback asset of the SVT 2009 Rattrapage Correction on the
    example network. *)
Definition demo_fallback : ExamAsset :=
  default demo_keyless
    (build_telmid_asset (U := demo_urllib) (N := demo_web) (lit "SVT")
       (lit "Sciences de la Vie et de la Terre (SVT)") [lit "root"; lit "SVT"]
       2009 (lit "Rattrapage") (lit "Correction")).

(** The keywords of the two sessions, the rows of [SESSION_KEYWORDS]. *)
Definition normale_keywords : list text :=
  [lit "normale"; lit "normal"; lit "principale"; lit "main"; lit "regular"].
Definition rattrapage_keywords : list text :=
  [lit "rattrap"; lit "retake"; lit "extraordinaire"].

(** The key under which the extractor remembers a URL. *)
Definition url_key {Uc : PyStr.Unicode} (asset : ExamAsset) : text :=
  PyStr.strip PyStr.isspace (pdf_url asset).

(** What holds of an asset that the extractor returns for a page: it comes
    from one of the anchors, whose href normalizes to its URL and whose
    text is its title; it carries the subject and the page; its title is
    not empty and is no drill sheet; type, year and session are those of
    the title; its URL ends with ".pdf" or is on a cloud-storage host; its
    destination is the sanitized name in the folder. *)
Definition extracted {Uc : PyStr.Unicode} {U : Urllib} (anchors : list Anchor)
    (page_url code label : text) (folder : Path) (a : ExamAsset) : Prop :=
  (∃ anchor h, anchor ∈ anchors ∧ href anchor = Some h
               ∧ normalize_pdf_url h page_url = Ok (pdf_url a)
               ∧ get_text anchor = source_title a)
  ∧ subject_code a = code ∧ subject_label a = label ∧ source_page a = page_url
  ∧ source_title a ≠ []
  ∧ ¬ has_keyword (lit "préparation") (source_title a)
  ∧ ¬ has_keyword (lit "preparation") (source_title a)
  ∧ identify_asset_type (source_title a) = Some (asset_type a)
  ∧ year a = identify_year (source_title a)
  ∧ session a = identify_session (source_title a)
  ∧ ((∃ pre, PyStr.lower (pdf_url a) = pre ++ lit ".pdf")
     ∨ ∃ parsed, urlparse (pdf_url a) = Ok parsed ∧ netloc parsed ∈ GOOGLE_HOSTS)
  ∧ local_path a =
    folder ++ [sanitize_filename
                 [code; default (lit "unknown_year") (year a);
                  default (lit "session") (session a); asset_type a]
                 default_suffix].

(** The assets extracted from a page with the three example anchors, the
    first one linked twice. *)
Definition demo_page_anchors : list Anchor :=
  [demo_anchor_sujet; demo_anchor_foreign; demo_anchor_corrige; demo_anchor_sujet].

Definition demo_extracted : list ExamAsset :=
  match parse_exam_links (U := demo_urllib) demo_page_anchors
          (lit "https://telmidtice.com/") (lit "Math") (lit "Mathématiques")
          [lit "root"; lit "Math"] with
  | Ok l => l
  | Raise _ => []
  end.

(** The first of them. *)
Definition demo_math_telmid_extracted : ExamAsset :=
  default demo_keyless (head demo_extracted).

(** The order of the assets with their keys, as the sort compares
    them. *)
Definition item_le (item1 item2 : SortKey * ExamAsset) : Prop :=
  sort_key_leb item1.1 item2.1 = true.

(** The order of the sort of [main] on two assets: both have a sort key
    and the key of the first is less than or equal to the key of the
    second. *)
Definition sort_key_le {Uc : PyStr.Unicode} (a b : ExamAsset) : Prop :=
  ∃ ka kb, sort_key a = Ok ka ∧ sort_key b = Ok kb ∧ sort_key_leb ka kb = true.

(** The run of [main] on the example network. *)
Definition demo_run : gmap Key ExamAsset * list ExamAsset * World :=
  returned (∅, [], demo_world) (main (U := demo_urllib) (N := demo_web) demo_world).

(** A preview link of the cloud storage, for the examples. *)
Definition demo_drive_href : text :=
  lit "https://drive.google.com/file/d/1AbC_dE-9/view?usp=sharing".

(** An asset is where its key puts it: the key has a configured subject,
    the year of the asset reads as the year of the key and has four
    characters, session and type are targets, and the destination is the
    file named after these four in the folder of the subject. *)
Definition placed {Uc : PyStr.Unicode} {N : Web} (key : Key) (a : ExamAsset) : Prop :=
  ∃ config y,
    config ∈ SUBJECT_SOURCES ∧ key.1.1.1 = s_code config
    ∧ year a = Some y ∧ PyStr.int y = Some key.1.1.2 ∧ length y = 4
    ∧ key.1.2 ∈ TARGET_SESSIONS ∧ key.2 ∈ TARGET_ASSET_TYPES
    ∧ local_path a =
      s_folder config
      ++ [sanitize_filename [key.1.1.1; y; key.1.2; key.2] default_suffix].

(** The year of the asset is written with the digits from 0 to 9. *)
Definition plain_year (a : ExamAsset) : Prop :=
  ∃ y, year a = Some y ∧ Forall (λ c, PyStr.is_digit c = true) y.

(** The words of the configuration that enter a file name. *)
Definition name_words : list text :=
  [lit "Math"; lit "PC"; lit "SVT"] ++ TARGET_SESSIONS ++ TARGET_ASSET_TYPES.
(* ===================================================================== *)
(** * Properties *)
(* ===================================================================== *)

(** ** Calls that return *)

Lemma bind_Ok {A B} (f : A → result B) (a : A) : (Ok a ≫= f) = f a.
Proof. done. Qed.

Lemma Ok_inj {A} (a b : A) : Ok a = Ok b → a = b.
Proof. by intros [= ->]. Qed.

(** ** Strings *)

Section StringFacts.
Context {Uc : PyStr.Unicode}.
Implicit Types s p t : text.

Lemma char_eqb_spec (a b : char) : PyStr.char_eqb a b = true ↔ a = b.
Proof. apply N.eqb_eq. Qed.

Lemma startswith_spec s p : PyStr.startswith s p = true ↔ ∃ post, s = p ++ post.
Proof.
  revert s. induction p as [|d p IH]; intros s; simpl.
  - split; [intros _; by exists s | done].
  - destruct s as [|c s]; simpl.
    + split; [done | intros [post Hpost]; discriminate].
    + rewrite andb_true_iff, char_eqb_spec, IH. split.
      * intros [-> [post ->]]. eauto.
      * intros [post Hpost]. injection Hpost as -> ->. eauto.
Qed.

Lemma endswith_spec s p : PyStr.endswith s p = true ↔ ∃ pre, s = pre ++ p.
Proof.
  unfold PyStr.endswith. rewrite startswith_spec. split.
  - intros [post Hpost]. exists (rev post).
    rewrite <- (rev_involutive s), Hpost, rev_app_distr, rev_involutive. done.
  - intros [pre ->]. exists (rev pre). apply rev_app_distr.
Qed.

(** [needle in hay] holds exactly when [hay] has [needle] as a substring. *)
Lemma contains_spec needle hay :
  PyStr.contains needle hay = true ↔ ∃ pre post, hay = pre ++ needle ++ post.
Proof.
  induction hay as [|c hay IH]; simpl.
  - rewrite orb_false_r, startswith_spec. split.
    + intros [post Hpost]. exists [], post. done.
    + intros (pre & post & Heq). destruct pre; [eauto|discriminate].
  - rewrite orb_true_iff, startswith_spec, IH. split.
    + intros [[post Hpost] | (pre & post & ->)].
      * exists [], post. done.
      * exists (c :: pre), post. done.
    + intros (pre & post & Heq). destruct pre as [|c' pre]; simpl in Heq.
      * left. eauto.
      * right. injection Heq as -> ->. eauto.
Qed.

End StringFacts.

(** ** The classifiers *)

Section ClassifierFacts.
Context {Uc : PyStr.Unicode}.

Lemma contains_has_keyword keyword t :
  PyStr.contains keyword (PyStr.lower t) = true ↔ has_keyword keyword t.
Proof. apply contains_spec. Qed.

Lemma contains_no_keyword keyword t :
  PyStr.contains keyword (PyStr.lower t) = false ↔ ¬ has_keyword keyword t.
Proof. rewrite <- contains_has_keyword. destruct (PyStr.contains _ _); naive_solver. Qed.

(** C6. The asset type of a display text is Correction as soon as the
    text has the keyword "corrig", also when it has "sujet" or "examen";
    it is MainExam when it has "sujet" or "examen" and not "corrig"; it is
    absent when it has none of the three. *)
Theorem identify_asset_type_priority (t : text) :
  (has_keyword (lit "corrig") t → identify_asset_type t = Some (lit "Correction"))
  ∧ (¬ has_keyword (lit "corrig") t →
     has_keyword (lit "sujet") t ∨ has_keyword (lit "examen") t →
     identify_asset_type t = Some (lit "MainExam"))
  ∧ (¬ has_keyword (lit "corrig") t → ¬ has_keyword (lit "sujet") t →
     ¬ has_keyword (lit "examen") t → identify_asset_type t = None).
Proof.
  unfold identify_asset_type. split; [|split].
  - intros H%contains_has_keyword. by rewrite H.
  - intros Hc%contains_no_keyword Hse. rewrite Hc.
    destruct Hse as [H%contains_has_keyword | H%contains_has_keyword];
      rewrite H; [done | by rewrite orb_true_r].
  - intros Hc%contains_no_keyword Hs%contains_no_keyword He%contains_no_keyword.
    by rewrite Hc, Hs, He.
Qed.

End ClassifierFacts.

Lemma identify_asset_type_priority_witness :
  has_keyword (lit "corrig") (lit "Examen national 2021 - Sujet et CORRIGE")
  ∧ identify_asset_type (lit "Examen national 2021 - Sujet et CORRIGE")
    = Some (lit "Correction").
Proof.
  assert (H : has_keyword (lit "corrig") (lit "Examen national 2021 - Sujet et CORRIGE")).
  { exists (lit "examen national 2021 - sujet et "), (lit "e"). reflexivity. }
  split; [exact H |].
  exact (proj1 (identify_asset_type_priority _) H).
Defined.

Section YearFacts.
Context {Uc : PyStr.Unicode}.

Lemma re_digit_spec c : re_digit c = true ↔ is_decimal_digit c.
Proof.
  unfold re_digit, is_decimal_digit. destruct (PyStr.decimal c) as [v|].
  - split; [by exists v | done].
  - split; [done | by intros [v ?]].
Qed.

(** On ASCII the decimal digits are the ten characters from 0 to 9. *)
Lemma decimal_digit_ascii c :
  (c < 128)%N → is_decimal_digit c ↔ (48 ≤ c ≤ 57)%N.
Proof.
  intros Hc. unfold is_decimal_digit. rewrite (PyStr.decimal_ascii c Hc).
  unfold PyStr.is_digit, PyStr.between.
  destruct (N.leb_spec 48 c), (N.leb_spec c 57); cbn [andb]; split;
    first [lia | by intros [v ?] | by eexists].
Qed.

Lemma match_century_Some a b s y :
  match_century a b s = Some y ↔
  ∃ c d post, is_decimal_digit c ∧ is_decimal_digit d
              ∧ y = [a; b; c; d] ∧ s = y ++ post.
Proof.
  unfold match_century. split.
  - destruct s as [|c1 [|c2 [|c3 [|c4 post]]]]; try done.
    destruct (PyStr.char_eqb c1 a && PyStr.char_eqb c2 b
              && re_digit c3 && re_digit c4) eqn:E; [|done].
    repeat (apply andb_true_iff in E as [E ?]).
    apply char_eqb_spec in E as ->. apply char_eqb_spec in H1 as ->.
    intros [= <-]. exists c3, c4, post. by rewrite <- !re_digit_spec.
  - intros (c & d & post & Hc%re_digit_spec & Hd%re_digit_spec & -> & ->).
    cbn [app]. rewrite Hc, Hd. unfold PyStr.char_eqb. by rewrite !N.eqb_refl.
Qed.

Lemma EXAM_YEAR_RE_match_Some s y :
  EXAM_YEAR_RE_match s = Some y ↔ is_year_token y ∧ ∃ post, s = y ++ post.
Proof.
  unfold EXAM_YEAR_RE_match, is_year_token. split.
  - destruct (match_century "2" "0" s) as [y'|] eqn:E.
    + intros [= ->]. apply match_century_Some in E as (c & d & post & ? & ? & ? & ?).
      naive_solver.
    + intros (c & d & post & ? & ? & ? & ?)%match_century_Some. naive_solver.
  - intros [(c & d & Hc & Hd & [-> | ->]) [post ->]].
    + assert (H : match_century "2" "0" ([chr "2"; chr "0"; c; d] ++ post)
                  = Some [chr "2"; chr "0"; c; d]).
      { apply match_century_Some. by exists c, d, post. }
      by rewrite H.
    + assert (H : match_century "1" "9" ([chr "1"; chr "9"; c; d] ++ post)
                  = Some [chr "1"; chr "9"; c; d]).
      { apply match_century_Some. by exists c, d, post. }
      assert (H' : match_century "2" "0" ([chr "1"; chr "9"; c; d] ++ post) = None)
        by reflexivity.
      by rewrite H', H.
Qed.

Lemma EXAM_YEAR_RE_match_None s :
  EXAM_YEAR_RE_match s = None ↔ ∀ y post, s = y ++ post → ¬ is_year_token y.
Proof.
  split.
  - intros Hnone y post -> Hy.
    assert (EXAM_YEAR_RE_match (y ++ post) = Some y) as H
      by (apply EXAM_YEAR_RE_match_Some; eauto).
    congruence.
  - intros Hno. destruct (EXAM_YEAR_RE_match s) as [y|] eqn:E; [|done].
    apply EXAM_YEAR_RE_match_Some in E as [Hy [post ->]]. by destruct (Hno y post).
Qed.

(** C7. The year of a display text is the four-character token of the
    shape 20dd or 19dd at the leftmost position that has one, and it is
    absent exactly when the text has no such token.  The digits [d] are
    those that [\d] matches in a pattern compiled from a [str]: the
    decimal digits of the character database, which on ASCII are the ten
    characters from 0 to 9 and no other. *)
Theorem identify_year_first_match (t : text) :
  match identify_year t with
  | Some y =>
      is_year_token y ∧
      ∃ pre post, t = pre ++ y ++ post ∧
        ∀ pre' y' post', t = pre' ++ y' ++ post' → is_year_token y' →
                         length pre ≤ length pre'
  | None => ∀ pre y post, t = pre ++ y ++ post → ¬ is_year_token y
  end
  ∧ ∀ c, (c < 128)%N → is_decimal_digit c ↔ (48 ≤ c ≤ 57)%N.
Proof.
  split; [|apply decimal_digit_ascii].
  unfold identify_year. induction t as [|c s IH].
  - cbn. intros pre y post Heq (c & d & _ & _ & [-> | ->]);
      by destruct pre.
  - cbn [EXAM_YEAR_RE_search]. destruct (EXAM_YEAR_RE_match (c :: s)) as [y|] eqn:E.
    + apply EXAM_YEAR_RE_match_Some in E as [Hy [post Heq]].
      split; [done|]. exists [], post. split; [done|]. simpl. lia.
    + destruct (EXAM_YEAR_RE_search s) as [y|].
      * destruct IH as [Hy (pre & post & -> & Hmin)]. split; [done|].
        exists (c :: pre), post. split; [done|].
        intros pre' y' post' Heq Hy'. destruct pre' as [|c' pre'].
        -- exfalso. exact (proj1 (EXAM_YEAR_RE_match_None _) E y' post' Heq Hy').
        -- injection Heq as -> Heq. simpl. apply le_n_S. by eapply Hmin.
      * intros pre y post Heq Hy. destruct pre as [|c' pre].
        -- exact (proj1 (EXAM_YEAR_RE_match_None _) E y post Heq Hy).
        -- injection Heq as -> Heq. by eapply IH.
Qed.

End YearFacts.

Lemma identify_year_first_match_witness :
  identify_year (lit "Rattrapage 2019-2020") = Some (lit "2019")
  ∧ ∃ pre post, lit "Rattrapage 2019-2020" = pre ++ lit "2019" ++ post ∧
      ∀ pre' y' post', lit "Rattrapage 2019-2020" = pre' ++ y' ++ post' →
                       is_year_token y' → length pre ≤ length pre'.
Proof.
  split; [reflexivity|].
  exact (proj2 (proj1 (identify_year_first_match (lit "Rattrapage 2019-2020")))).
Defined.

(** A year in the digits of another script is a year as well: the first
    token wins, whatever the script of its digits. *)
Example identify_year_other_script :
  identify_year (lit "Sujet 20٢١ session normale 2019") = Some (lit "20٢١")
  ∧ PyStr.int (lit "20٢١") = Some 2021%Z
  ∧ identify_year (lit "Sujet ٢٠٢١") = None.
Proof. split_and!; vm_compute; reflexivity. Qed.

Section Sanitize.
Context {Uc : PyStr.Unicode}.
Implicit Types s p : text.

Lemma alnum_pieces_cons s : ∃ p ps, alnum_pieces s = p :: ps.
Proof.
  destruct s as [|c s]; simpl; [eauto|].
  destruct (PyStr.is_alnum c); [|eauto].
  destruct (alnum_pieces s); eauto.
Qed.

Lemma alnum_pieces_head s p ps :
  alnum_pieces s = p :: ps → PyStr.is_nil p = negb (head_alnum s).
Proof.
  destruct s as [|c s]; simpl.
  - by intros [= <- <-].
  - destruct (PyStr.is_alnum c).
    + destruct (alnum_pieces s); by intros [= <- <-].
    + by intros [= <- <-].
Qed.

Lemma alnum_runs_skip c s :
  PyStr.is_alnum c = false → alnum_runs (c :: s) = alnum_runs s.
Proof.
  intros Hc. unfold alnum_runs. simpl. rewrite Hc.
  by rewrite filter_cons_False by (by intros ?).
Qed.

Lemma alnum_runs_keep c s p ps :
  PyStr.is_alnum c = true → alnum_pieces s = p :: ps →
  alnum_runs (c :: s) = (c :: p) :: filter (λ p, p ≠ []) ps.
Proof.
  intros Hc Hp. unfold alnum_runs. simpl. rewrite Hc, Hp.
  by rewrite filter_cons_True.
Qed.

Lemma alnum_runs_Forall s :
  Forall (λ p, p ≠ [] ∧ Forall (λ c, PyStr.is_alnum c = true) p) (alnum_runs s).
Proof.
  assert (H : Forall (Forall (λ c, PyStr.is_alnum c = true)) (alnum_pieces s)).
  { induction s as [|c s IH]; simpl; [by repeat constructor|].
    destruct (PyStr.is_alnum c) eqn:Hc.
    - destruct (alnum_pieces s) as [|p ps]; [by repeat constructor|].
      inversion IH; subst. constructor; [by constructor | done].
    - by constructor. }
  unfold alnum_runs. apply Forall_forall. intros p [Hne Hin]%list_elem_of_filter.
  split; [done|]. eapply Forall_forall in H; eauto.
Qed.

Lemma join_cons sep x (l : list text) :
  PyStr.join sep (x :: l) = if decide (l = []) then x else x ++ sep ++ PyStr.join sep l.
Proof. destruct l; by simpl. Qed.

(** A join of non-empty strings is empty only for the empty list. *)
Lemma join_nil sep (l : list text) :
  Forall (λ p, p ≠ []) l → PyStr.join sep l = [] → l = [].
Proof.
  destruct l as [|x l]; [done|]. intros Hne. inversion Hne; subst.
  rewrite join_cons. case_decide; [done|].
  destruct x; [done | discriminate].
Qed.

Lemma join_head_alnum s :
  PyStr.join (lit "_") (alnum_runs s) = [] ∨
  ∃ c r, PyStr.join (lit "_") (alnum_runs s) = c :: r ∧ PyStr.is_alnum c = true.
Proof.
  pose proof (alnum_runs_Forall s) as H.
  destruct (alnum_runs s) as [|x l]; [by left|]. right.
  inversion H as [|? ? [Hne Hx] _]; subst.
  destruct x as [|c x]; [done|]. inversion Hx; subst.
  rewrite join_cons. case_decide; simpl; eauto.
Qed.

(** The joined runs, character by character. *)
Lemma join_runs_skip c s :
  PyStr.is_alnum c = false →
  PyStr.join (lit "_") (alnum_runs (c :: s)) = PyStr.join (lit "_") (alnum_runs s).
Proof. intros Hc. by rewrite alnum_runs_skip. Qed.

Lemma join_runs_keep c s :
  PyStr.is_alnum c = true →
  PyStr.join (lit "_") (alnum_runs (c :: s)) =
  c :: (if head_alnum s then PyStr.join (lit "_") (alnum_runs s)
        else if PyStr.is_nil (PyStr.join (lit "_") (alnum_runs s)) then []
        else chr "_" :: PyStr.join (lit "_") (alnum_runs s)).
Proof.
  intros Hc. destruct (alnum_pieces_cons s) as (p & ps & Hp).
  rewrite (alnum_runs_keep c s p ps Hc Hp).
  pose proof (alnum_pieces_head s p ps Hp) as Hhead.
  pose proof (alnum_runs_Forall s) as Hruns.
  unfold alnum_runs in *. rewrite Hp in *.
  destruct (head_alnum s); simpl in Hhead.
  - destruct p as [|c' p]; [done|]. rewrite filter_cons_True by done.
    rewrite !join_cons. by case_decide.
  - destruct p; [|done]. rewrite filter_cons_False in * by (by intros ?).
    rewrite join_cons. case_decide as Hnil.
    + by rewrite Hnil.
    + destruct (PyStr.join (lit "_") (filter _ ps)) eqn:E; [|done].
      apply join_nil in E; [done|]. eapply Forall_impl; [exact Hruns|]. by intros ? [? ?].
Qed.

Lemma alnum_not_underscore c : PyStr.is_alnum c = true → is_underscore c = false.
Proof.
  intros Hc. unfold is_underscore. destruct (PyStr.char_eqb c "_") eqn:E; [|done].
  apply char_eqb_spec in E. by subst.
Qed.

Lemma rstrip_keep (f : char → bool) c s :
  f c = false → PyStr.rstrip f (c :: s) = c :: PyStr.rstrip f s.
Proof. intros Hc. simpl. by rewrite Hc. Qed.

Lemma rstrip_drop (f : char → bool) c s :
  f c = true →
  PyStr.rstrip f (c :: s) = if PyStr.is_nil (PyStr.rstrip f s) then [] else c :: PyStr.rstrip f s.
Proof. intros Hc. simpl. by rewrite Hc. Qed.

(** Stripping the two ends in either order gives the same text. *)
Lemma rstrip_lstrip (f : char → bool) s :
  PyStr.rstrip f (PyStr.lstrip f s) = PyStr.lstrip f (PyStr.rstrip f s).
Proof.
  induction s as [|c s IH]; [done|].
  cbn [PyStr.lstrip]. destruct (f c) eqn:Hc.
  - rewrite IH, rstrip_drop by done.
    destruct (PyStr.rstrip f s) eqn:E; simpl; [done | by rewrite Hc].
  - rewrite rstrip_keep by done. simpl. by rewrite Hc.
Qed.

(** The substitution followed by the strip on the right, in terms of the
    runs. *)
Lemma rstrip_re_sub s :
  PyStr.rstrip is_underscore (re_sub_nonalnum true s) = PyStr.join (lit "_") (alnum_runs s)
  ∧ PyStr.rstrip is_underscore (re_sub_nonalnum false s) =
    if negb (PyStr.is_nil s) && negb (head_alnum s)
       && negb (PyStr.is_nil (PyStr.join (lit "_") (alnum_runs s)))
    then chr "_" :: PyStr.join (lit "_") (alnum_runs s)
    else PyStr.join (lit "_") (alnum_runs s).
Proof.
  induction s as [|c s [IHt IHf]]; [done|].
  cbn [re_sub_nonalnum]. destruct (PyStr.is_alnum c) eqn:Hc.
  - assert (PyStr.rstrip is_underscore (c :: re_sub_nonalnum false s)
            = PyStr.join (lit "_") (alnum_runs (c :: s))) as ->.
    { rewrite rstrip_keep by by apply alnum_not_underscore.
      rewrite IHf, join_runs_keep by done. f_equal.
      destruct s as [|d s]; [done|]. cbn [PyStr.is_nil head_alnum negb andb].
      generalize (PyStr.join (lit "_") (alnum_runs (d :: s))). intros j.
      by destruct (PyStr.is_alnum d), j. }
    simpl. by rewrite Hc.
  - rewrite join_runs_skip by done. split; [done|].
    rewrite rstrip_drop by done. rewrite IHt.
    cbn [PyStr.is_nil head_alnum negb andb]. rewrite Hc. cbn [negb andb].
    by destruct (PyStr.join (lit "_") (alnum_runs s)).
Qed.

Lemma lstrip_join_runs s :
  PyStr.lstrip is_underscore (PyStr.join (lit "_") (alnum_runs s))
  = PyStr.join (lit "_") (alnum_runs s).
Proof.
  destruct (join_head_alnum s) as [-> | (c & r & -> & Hc)]; [done|].
  simpl. by rewrite alnum_not_underscore.
Qed.

(** A cleaned part is the runs of the part joined by underscores. *)
Lemma clean_part_runs s : clean_part s = PyStr.join (lit "_") (alnum_runs s).
Proof.
  unfold clean_part, PyStr.strip. rewrite rstrip_lstrip.
  rewrite (proj2 (rstrip_re_sub s)).
  destruct (_ && _ && _); [|apply lstrip_join_runs].
  cbn [PyStr.lstrip]. change (is_underscore "_") with true. cbn iota.
  apply lstrip_join_runs.
Qed.

Lemma safe_parts_loop_spec parts acc :
  safe_parts_loop parts acc = acc ++ filter (λ p, p ≠ []) (clean_part <$> parts).
Proof.
  revert acc. induction parts as [|part parts IH]; intros acc; simpl.
  - by rewrite app_nil_r.
  - destruct (clean_part part) eqn:E; simpl.
    + rewrite IH. by rewrite filter_cons_False by (by intros ?).
    + rewrite IH, <- app_assoc. by rewrite filter_cons_True.
Qed.

Lemma join_app sep (l1 l2 : list text) :
  l1 ≠ [] → l2 ≠ [] →
  PyStr.join sep (l1 ++ l2) = PyStr.join sep l1 ++ sep ++ PyStr.join sep l2.
Proof.
  intros H1 H2. induction l1 as [|x l1 IH]; [done|]. clear H1.
  destruct l1 as [|y l1].
  - simpl app. rewrite join_cons. by rewrite decide_False.
  - change ((x :: y :: l1) ++ l2) with (x :: ((y :: l1) ++ l2)).
    rewrite (join_cons sep x ((y :: l1) ++ l2)), decide_False by done.
    rewrite IH by done.
    rewrite (join_cons sep x (y :: l1)), decide_False by done.
    by rewrite <- !app_assoc.
Qed.

(** Joining the joined runs of the parts that have some is joining all
    the runs. *)
Lemma join_concat sep (ls : list (list text)) :
  Forall (Forall (λ p, p ≠ [])) ls →
  filter (λ p, p ≠ []) (PyStr.join sep <$> ls) = [] ↔ concat ls = [].
Proof.
  induction 1 as [|l ls Hl Hls IH]; [done|]. simpl.
  destruct l as [|x l].
  - by rewrite filter_cons_False by (by intros ?).
  - rewrite filter_cons_True; [done|].
    intros E. by apply join_nil in E.
Qed.

Lemma join_join_concat sep (ls : list (list text)) :
  Forall (Forall (λ p, p ≠ [])) ls →
  PyStr.join sep (filter (λ p, p ≠ []) (PyStr.join sep <$> ls)) = PyStr.join sep (concat ls).
Proof.
  induction 1 as [|l ls Hl Hls IH]; [done|]. cbn [fmap list_fmap concat].
  destruct (decide (l = [])) as [-> | Hne].
  - by rewrite filter_cons_False by (by intros ?).
  - rewrite filter_cons_True by (intros E; by apply join_nil in E).
    rewrite join_cons. case_decide as Hnil.
    + apply join_concat in Hnil; [|done]. by rewrite Hnil, app_nil_r.
    + rewrite join_app, IH; [done..|]. intros E. apply Hnil. by apply join_concat.
Qed.


Lemma safe_parts_runs (parts : list text) :
  safe_parts_loop parts [] =
  filter (λ p, p ≠ []) (PyStr.join (lit "_") <$> (alnum_runs <$> parts)).
Proof.
  rewrite safe_parts_loop_spec. simpl. f_equal.
  rewrite <- list_fmap_compose. apply list_fmap_ext. intros _ part _. apply clean_part_runs.
Qed.

Lemma runs_nonempty (parts : list text) :
  Forall (Forall (λ p : text, p ≠ [])) (alnum_runs <$> parts).
Proof.
  apply Forall_fmap, Forall_forall. intros part _.
  eapply Forall_impl; [apply alnum_runs_Forall|]. by intros ? [? ?].
Qed.

(** The name in terms of the runs of the parts. *)
Lemma sanitize_filename_runs (parts : list text) (suffix : text) :
  sanitize_filename parts suffix =
  match concat (alnum_runs <$> parts) with
  | [] => lit "document"
  | runs => PyStr.join (lit "_") runs
  end ++ suffix.
Proof.
  unfold sanitize_filename. rewrite safe_parts_runs. f_equal.
  pose proof (join_concat (lit "_") _ (runs_nonempty parts)) as Hnil.
  pose proof (join_join_concat (lit "_") _ (runs_nonempty parts)) as Hjoin.
  destruct (filter _ _) as [|x l] eqn:E.
  - by rewrite (proj1 Hnil).
  - destruct (concat _) as [|r rs] eqn:E'; [|done].
    by pose proof (proj2 Hnil eq_refl).
Qed.

Lemma alnum_runs_none s :
  Forall (λ c, PyStr.is_alnum c = false) s → alnum_runs s = [].
Proof.
  induction 1 as [|c s Hc Hs IH]; [done|]. by rewrite alnum_runs_skip.
Qed.

Lemma is_name_char_alnum c : PyStr.is_alnum c = true → is_name_char c = true.
Proof. intros Hc. unfold is_name_char. by rewrite Hc. Qed.

Lemma join_runs_chars (runs : list text) :
  Forall (Forall (λ c, PyStr.is_alnum c = true)) runs →
  Forall (λ c, is_name_char c = true) (PyStr.join (lit "_") runs).
Proof.
  induction 1 as [|r runs Hr Hruns IH]; [constructor|].
  rewrite join_cons.
  assert (Forall (λ c, is_name_char c = true) r) as Hr'
    by (eapply Forall_impl; [exact Hr | apply is_name_char_alnum]).
  case_decide; [done|]. apply Forall_app. split; [done|].
  apply Forall_app. split; [by repeat constructor | done].
Qed.

End Sanitize.

(** C10. For every tuple of parts, the sanitized name with the default
    suffix is the maximal alphanumeric runs of the parts, in order, joined
    by underscores and followed by ".pdf"; it is "document.pdf" when no
    part has an alphanumeric character; it is not empty and has only
    characters of [A-Za-z0-9_.]. *)
Theorem sanitize_filename_shape (parts : list text) :
  let name := sanitize_filename parts default_suffix in
  name = match concat (alnum_runs <$> parts) with
         | [] => lit "document"
         | runs => PyStr.join (lit "_") runs
         end ++ lit ".pdf"
  ∧ name ≠ []
  ∧ Forall (λ c, is_name_char c = true) name
  ∧ (Forall (Forall (λ c, PyStr.is_alnum c = false)) parts → name = lit "document.pdf").
Proof.
  intros name. subst name. rewrite sanitize_filename_runs.
  split; [done|]. split; [|split].
  - intros E. apply app_eq_nil in E as [_ E]. discriminate.
  - apply Forall_app. split; [|by repeat constructor].
    destruct (concat _) as [|r rs] eqn:E; [by repeat constructor|].
    apply join_runs_chars. rewrite <- E. apply Forall_concat.
    apply Forall_fmap, Forall_forall. intros part _.
    eapply Forall_impl; [apply alnum_runs_Forall|]. by intros ? [? ?].
  - intros Hnone.
    assert (concat (alnum_runs <$> parts) = []) as ->; [|done].
    induction Hnone as [|part parts Hpart _ IH]; [done|].
    simpl. by rewrite alnum_runs_none.
Qed.

Lemma sanitize_filename_shape_witness :
  Forall (Forall (λ c, PyStr.is_alnum c = false)) [lit "--"; lit "é ?"]
  ∧ sanitize_filename [lit "--"; lit "é ?"] default_suffix = lit "document.pdf"
  ∧ sanitize_filename [lit "SVT"; lit "2009"; lit "Rattrapage"; lit "Correction"]
      default_suffix = lit "SVT_2009_Rattrapage_Correction.pdf".
Proof.
  assert (H : Forall (Forall (λ c, PyStr.is_alnum c = false)) [lit "--"; lit "é ?"])
    by (repeat constructor).
  split; [exact H|]. split.
  - exact (proj2 (proj2 (proj2 (sanitize_filename_shape [lit "--"; lit "é ?"]))) H).
  - exact (proj1 (sanitize_filename_shape
                    [lit "SVT"; lit "2009"; lit "Rattrapage"; lit "Correction"])).
Defined.

(** ** Host ranking *)

Lemma host_rank_loop_spec (domains : list text) (idx : nat) (host : text) :
  match host_rank_loop idx domains host with
  | Some i =>
      ∃ k d, i = idx + k ∧ domains !! k = Some d ∧ PyStr.endswith host d = true
             ∧ ∀ j d', j < k → domains !! j = Some d' → PyStr.endswith host d' = false
  | None => ∀ d, d ∈ domains → PyStr.endswith host d = false
  end.
Proof.
  revert idx. induction domains as [|domain rest IH]; intros idx; simpl.
  - intros d Hd. by apply elem_of_nil in Hd.
  - destruct (PyStr.endswith host domain) eqn:E.
    + exists 0, domain. split_and!; first [done | lia | intros; lia].
    + specialize (IH (S idx)). destruct (host_rank_loop (S idx) rest host) as [i|].
      * destruct IH as (k & d & -> & Hk & Hd & Hmin).
        exists (S k), d. split_and!; [lia | done | done |].
        intros [|j] d' Hj; simpl; [by intros [= <-] | intros Hd'].
        apply (Hmin j); [lia | done].
      * intros d [-> | Hd]%elem_of_cons; [done | by apply IH].
Qed.

(** The rank of a host is the index of the first preferred domain it ends
    with. *)
Lemma host_rank_first (host : text) (i : nat) (d : text) :
  PREFERRED_DOMAINS !! i = Some d → PyStr.endswith host d = true →
  (∀ j d', j < i → PREFERRED_DOMAINS !! j = Some d' → PyStr.endswith host d' = false) →
  host_rank host = i.
Proof.
  intros Hi Hd Hmin. unfold host_rank.
  pose proof (host_rank_loop_spec PREFERRED_DOMAINS 0 host) as H.
  destruct (host_rank_loop 0 PREFERRED_DOMAINS host) as [r|].
  - destruct H as (k & d0 & -> & Hk & Hd0 & Hmin0). simpl.
    destruct (Nat.lt_trichotomy k i) as [Hlt | [-> | Hgt]]; [|done|].
    + rewrite (Hmin k d0 Hlt Hk) in Hd0. done.
    + rewrite (Hmin0 i d Hgt Hi) in Hd. done.
  - rewrite H in Hd; [done|]. by eapply list_elem_of_lookup_2.
Qed.

Lemma host_rank_last (host : text) :
  (∀ d, d ∈ PREFERRED_DOMAINS → PyStr.endswith host d = false) →
  host_rank host = length PREFERRED_DOMAINS.
Proof.
  intros Hnone. unfold host_rank.
  pose proof (host_rank_loop_spec PREFERRED_DOMAINS 0 host) as H.
  destruct (host_rank_loop 0 PREFERRED_DOMAINS host) as [r|]; [|done].
  destruct H as (k & d0 & -> & Hk & Hd0 & _).
  rewrite Hnone in Hd0; [done|]. by eapply list_elem_of_lookup_2.
Qed.

Section Ranking.
Context {Uc : PyStr.Unicode} {U : Urllib}.

(** C9. The rank of a host is found by suffix matching: a host that is
    any text followed by a preferred domain, and that ends with no
    earlier domain of the list, has the index of that domain as its rank,
    a host that ends with none has the length of the list, and
    [prefer_asset] compares these ranks of the lowercased hosts of the
    two URLs. *)
Theorem host_rank_suffix :
  (∀ pre i d, PREFERRED_DOMAINS !! i = Some d →
     (∀ j d', j < i → PREFERRED_DOMAINS !! j = Some d' →
              ¬ ∃ pre', pre ++ d = pre' ++ d') →
     host_rank (pre ++ d) = i)
  ∧ (∀ host, (∀ d, d ∈ PREFERRED_DOMAINS → ¬ ∃ pre, host = pre ++ d) →
     host_rank host = length PREFERRED_DOMAINS)
  ∧ (∀ candidate current pc pu,
       urlparse (pdf_url candidate) = Ok pc → urlparse (pdf_url current) = Ok pu →
       prefer_asset candidate current =
       Ok (host_rank (PyStr.lower (netloc pc)) <? host_rank (PyStr.lower (netloc pu)))).
Proof.
  split; [|split].
  - intros pre i d Hi Hmin. apply (host_rank_first _ i d Hi).
    + apply endswith_spec. eauto.
    + intros j d' Hj Hd'. destruct (PyStr.endswith (pre ++ d) d') eqn:E; [|done].
      apply endswith_spec in E. by destruct (Hmin j d' Hj Hd').
  - intros host Hnone. apply host_rank_last. intros d Hd.
    destruct (PyStr.endswith host d) eqn:E; [|done].
    apply endswith_spec in E. by destruct (Hnone d Hd).
  - intros candidate current pc pu Hc Hu. unfold prefer_asset, asset_host.
    rewrite Hc, Hu. done.
Qed.

End Ranking.

Lemma host_rank_suffix_witness :
  host_rank (lit "not" ++ lit "telmidtice.com") = 0
  ∧ host_rank (lit "cdn.assets." ++ lit "men.gov.ma") = 1.
Proof.
  split.
  - apply (proj1 (host_rank_suffix (U := demo_urllib)) (lit "not") 0 (lit "telmidtice.com"));
      [reflexivity | intros j d' Hj; lia].
  - apply (proj1 (host_rank_suffix (U := demo_urllib))
             (lit "cdn.assets.") 1 (lit "men.gov.ma")); [reflexivity|].
    intros j d' Hj Hd' [pre' Heq]. assert (j = 0) as -> by lia.
    injection Hd' as <-.
    assert (PyStr.endswith (lit "cdn.assets." ++ lit "men.gov.ma") (lit "telmidtice.com")
            = true) as E by (apply endswith_spec; eauto).
    vm_compute in E. discriminate.
Defined.

(** ** Reconciliation *)

Section ReconcileFacts.
Context {Uc : PyStr.Unicode} {U : Urllib}.
Implicit Types m : gmap Key ExamAsset.
Implicit Types l : list ExamAsset.

Lemma url_parses_host asset : url_parses asset → ∃ host, asset_host asset = Ok host.
Proof. intros [parsed H]. unfold asset_host. rewrite H. eauto. Qed.

Lemma asset_host_parses asset host : asset_host asset = Ok host → url_parses asset.
Proof.
  unfold asset_host, url_parses. destruct (urlparse (pdf_url asset)); [eauto | done].
Qed.

(** One step: the map after it, case by case. *)
Lemma reconcile_asset_skip m asset :
  asset_key asset = None → reconcile_asset m asset = Ok m.
Proof. intros H. unfold reconcile_asset. by rewrite H. Qed.

Lemma reconcile_asset_claim m asset key :
  asset_key asset = Some key → m !! key = None →
  reconcile_asset m asset = Ok (<[key := asset]> m).
Proof. intros H1 H2. unfold reconcile_asset. by rewrite H1, H2. Qed.

Lemma reconcile_asset_conflict m asset key existing hc hu :
  asset_key asset = Some key → m !! key = Some existing →
  asset_host asset = Ok hc → asset_host existing = Ok hu →
  reconcile_asset m asset =
  Ok (if host_rank hc <? host_rank hu then <[key := asset]> m else m).
Proof.
  intros H1 H2 H3 H4. unfold reconcile_asset, prefer_asset.
  rewrite H1, H2, H3, H4. done.
Qed.

(** A step returns when the URLs involved parse, and then it keeps the
    entries stored under their own keys, drawn from the map before or
    equal to the asset of the step. *)
Lemma reconcile_asset_ok m asset :
  url_parses asset → (∀ key a, m !! key = Some a → url_parses a) →
  ∃ m', reconcile_asset m asset = Ok m'
    ∧ (∀ key a, m' !! key = Some a → m !! key = Some a ∨ (a = asset ∧ asset_key asset = Some key))
    ∧ (∀ key, asset_key asset ≠ Some key → m' !! key = m !! key).
Proof.
  intros Hp Hm. destruct (asset_key asset) as [key|] eqn:Hk.
  - destruct (m !! key) as [existing|] eqn:He.
    + destruct (url_parses_host _ Hp) as [hc Hc].
      destruct (url_parses_host _ (Hm _ _ He)) as [hu Hu].
      rewrite (reconcile_asset_conflict m asset key existing hc hu) by done.
      eexists. split; [done|]. destruct (host_rank hc <? host_rank hu).
      * split.
        -- intros key' a. rewrite lookup_insert. case_decide; naive_solver.
        -- intros key' Hne. rewrite lookup_insert_ne; [done | congruence].
      * naive_solver.
    + rewrite (reconcile_asset_claim m asset key) by done.
      eexists. split; [done|]. split.
      * intros key' a. rewrite lookup_insert. case_decide; naive_solver.
      * intros key' Hne. rewrite lookup_insert_ne; [done | congruence].
  - rewrite reconcile_asset_skip by done. naive_solver.
Qed.

Lemma reconcile_app l1 l2 m :
  reconcile (l1 ++ l2) m = (reconcile l1 m ≫= reconcile l2).
Proof.
  revert m. induction l1 as [|a l1 IH]; intros m; simpl; [done|].
  destruct (reconcile_asset m a) as [m'|e]; simpl; [apply IH | done].
Qed.

(** The whole loop returns when all URLs parse; every entry of the final
    map comes from the map before or from the list, and keys that no
    asset of the list has are untouched. *)
Lemma reconcile_ok l m :
  Forall url_parses l → (∀ key a, m !! key = Some a → url_parses a) →
  ∃ m', reconcile l m = Ok m'
    ∧ (∀ key a, m' !! key = Some a →
         m !! key = Some a ∨ (a ∈ l ∧ asset_key a = Some key))
    ∧ (∀ key, Forall (λ a, asset_key a ≠ Some key) l → m' !! key = m !! key).
Proof.
  intros Hl. revert m. induction Hl as [|asset l Hp Hl IH]; intros m Hm; simpl.
  - exists m. split; [done|]. split; [by left | done].
  - destruct (reconcile_asset_ok m asset Hp Hm) as (m1 & -> & Hin1 & Hother1). simpl.
    destruct (IH m1) as (m' & -> & Hin & Hother).
    { intros key a Ha. destruct (Hin1 _ _ Ha) as [? | [-> _]]; eauto. }
    exists m'. split; [done|]. split.
    + intros key a Ha. destruct (Hin _ _ Ha) as [H1 | [H1 H2]].
      * destruct (Hin1 _ _ H1) as [? | [-> ?]]; [by left | right].
        split; [apply list_elem_of_here | done].
      * right. split; [by apply list_elem_of_further | done].
    + intros key Hkey. inversion Hkey; subst. rewrite Hother by done. by apply Hother1.
Qed.

Lemma keyed_values_NoDup m : keyed m → NoDup (asset_key <$> values m).
Proof.
  intros Hkeyed. unfold values.
  assert (asset_key <$> (map_to_list m).*2 = Some <$> (map_to_list m).*1) as ->.
  { rewrite <- !list_fmap_compose. apply list_fmap_ext.
    intros i [key a] Hi. simpl. apply Hkeyed.
    apply elem_of_map_to_list. by eapply list_elem_of_lookup_2. }
  apply NoDup_fmap_2; [apply _ | apply NoDup_fst_map_to_list].
Qed.

(** Without any hypothesis on the URLs: when the loop returns, every
    entry of the final map comes from the map before or from the list. *)
Lemma reconcile_entries l m m' :
  reconcile l m = Ok m' →
  ∀ key a, m' !! key = Some a → m !! key = Some a ∨ (a ∈ l ∧ asset_key a = Some key).
Proof.
  revert m. induction l as [|asset l IH]; intros m; cbn [reconcile].
  - intros [= <-]. by left.
  - destruct (reconcile_asset m asset) as [m1|] eqn:E; [|done].
    rewrite bind_Ok. intros Hrest key a Ha.
    destruct (IH m1 Hrest key a Ha) as [H1 | [H1 H2]].
    + assert (m !! key = Some a ∨ (a = asset ∧ asset_key asset = Some key)) as [? | [-> ?]].
      { unfold reconcile_asset in E.
        destruct (asset_key asset) as [key'|] eqn:Hk; [|injection E as <-; by left].
        assert (<[key' := asset]> m !! key = Some a →
                m !! key = Some a ∨ (a = asset ∧ Some key' = Some key)) as Hins.
        { rewrite lookup_insert. case_decide; [|by left].
          intros [= <-]. subst. by right. }
        destruct (m !! key') as [existing|].
        - destruct (prefer_asset asset existing) as [[]|]; [| |done];
            rewrite bind_Ok in E; injection E as <-; [by apply Hins | by left].
        - injection E as <-. by apply Hins. }
      * by left.
      * right. split; [apply list_elem_of_here | done].
    + right. split; [by apply list_elem_of_further | done].
Qed.

(** C1. For every sequence of harvested candidates, reconciliation from
    the empty map returns when [urlparse] accepts their URLs (as it did
    when they were extracted), and in the map it returns every entry is a
    candidate of the sequence stored under its own canonical key, so that
    no two of its candidates have the same canonical key. *)
Theorem reconcile_unique l :
  (Forall url_parses l → ∃ m, reconcile l ∅ = Ok m)
  ∧ (∀ m, reconcile l ∅ = Ok m →
       (∀ key a, m !! key = Some a → a ∈ l ∧ asset_key a = Some key)
       ∧ NoDup (asset_key <$> values m)).
Proof.
  split.
  - intros Hl. destruct (reconcile_ok l ∅ Hl) as (m & Hm & _); [|by exists m].
    intros key a. by rewrite lookup_empty.
  - intros m Hm.
    assert (∀ key a, m !! key = Some a → a ∈ l ∧ asset_key a = Some key) as Hk.
    { intros key a Ha. destruct (reconcile_entries l ∅ m Hm key a Ha) as [H | H]; [|done].
      by rewrite lookup_empty in H. }
    split; [done|]. apply keyed_values_NoDup. intros key a Ha. by apply Hk.
Qed.

(** C2. Two candidates [a] and [b] with the same canonical key, in a
    sequence in which no other candidate has that key: when the host of
    [a] has the strictly smaller rank, [a] holds the key after
    reconciliation whether it comes before or after [b]; when the two
    ranks are equal, the one that comes first holds it. *)
Theorem prefer_higher_ranked l1 l2 l3 (a b : ExamAsset) (key : Key) (ha hb : text) :
  asset_key a = Some key → asset_key b = Some key →
  asset_host a = Ok ha → asset_host b = Ok hb →
  Forall url_parses (l1 ++ l2 ++ l3) →
  Forall (λ x, asset_key x ≠ Some key) (l1 ++ l2 ++ l3) →
  (host_rank ha < host_rank hb →
     (∃ m, reconcile (l1 ++ a :: l2 ++ b :: l3) ∅ = Ok m ∧ m !! key = Some a)
   ∧ (∃ m, reconcile (l1 ++ b :: l2 ++ a :: l3) ∅ = Ok m ∧ m !! key = Some a))
  ∧ (host_rank ha = host_rank hb →
     ∃ m, reconcile (l1 ++ a :: l2 ++ b :: l3) ∅ = Ok m ∧ m !! key = Some a).
Proof.
  intros Hka Hkb Hha Hhb Hparse Hother.
  apply Forall_app in Hparse as [Hp1 [Hp2 Hp3]%Forall_app].
  apply Forall_app in Hother as [Ho1 [Ho2 Ho3]%Forall_app].
  pose proof (asset_host_parses _ _ Hha) as Hpa.
  pose proof (asset_host_parses _ _ Hhb) as Hpb.
  (* the run over two candidates [x] then [y] of the key, with the winner *)
  assert (∀ x y hx hy, asset_key x = Some key → asset_key y = Some key →
            asset_host x = Ok hx → asset_host y = Ok hy →
            ∃ m, reconcile (l1 ++ x :: l2 ++ y :: l3) ∅ = Ok m
                 ∧ m !! key = Some (if host_rank hy <? host_rank hx then y else x))
    as Hrun.
  { intros x y hx hy Hkx Hky Hhx Hhy.
    pose proof (asset_host_parses _ _ Hhx) as Hpx.
    pose proof (asset_host_parses _ _ Hhy) as Hpy.
    destruct (reconcile_ok l1 ∅ Hp1) as (m1 & Hm1 & Hin1 & Hkeep1).
    { intros k' a'. by rewrite lookup_empty. }
    assert (∀ k' a', m1 !! k' = Some a' → url_parses a') as Hparse1.
    { intros k' a' Ha'. destruct (Hin1 _ _ Ha') as [H | [H _]].
      - by rewrite lookup_empty in H.
      - by eapply Forall_forall in Hp1. }
    assert (m1 !! key = None) as Hnone1 by (rewrite Hkeep1 by done; apply lookup_empty).
    pose proof (reconcile_asset_claim m1 x key Hkx Hnone1) as Hx.
    set (m2 := <[key := x]> m1) in *.
    assert (∀ k' a', m2 !! k' = Some a' → url_parses a') as Hparse2.
    { intros k' a'. unfold m2. rewrite lookup_insert. case_decide; naive_solver. }
    destruct (reconcile_ok l2 m2 Hp2 Hparse2) as (m3 & Hm3 & Hin3 & Hkeep3).
    assert (m3 !! key = Some x) as Hsome3.
    { rewrite Hkeep3 by done. unfold m2. apply lookup_insert_eq. }
    assert (∀ k' a', m3 !! k' = Some a' → url_parses a') as Hparse3.
    { intros k' a' Ha'. destruct (Hin3 _ _ Ha') as [H | [H _]]; [by eapply Hparse2|].
      by eapply Forall_forall in Hp2. }
    pose proof (reconcile_asset_conflict m3 y key x hy hx Hky Hsome3 Hhy Hhx) as Hy.
    set (m4 := if host_rank hy <? host_rank hx then <[key := y]> m3 else m3) in *.
    assert (m4 !! key = Some (if host_rank hy <? host_rank hx then y else x)) as Hsome4.
    { unfold m4. destruct (host_rank hy <? host_rank hx); [apply lookup_insert_eq | done]. }
    assert (∀ k' a', m4 !! k' = Some a' → url_parses a') as Hparse4.
    { intros k' a'. unfold m4. destruct (host_rank hy <? host_rank hx); [|apply Hparse3].
      rewrite lookup_insert. case_decide; [naive_solver | apply Hparse3]. }
    destruct (reconcile_ok l3 m4 Hp3 Hparse4) as (m5 & Hm5 & Hin5 & Hkeep5).
    exists m5. split; [|by rewrite Hkeep5].
    rewrite reconcile_app, Hm1. simpl. rewrite Hx. simpl.
    rewrite reconcile_app, Hm3. simpl. rewrite Hy. simpl. exact Hm5. }
  split.
  - intros Hlt. split.
    + destruct (Hrun a b ha hb Hka Hkb Hha Hhb) as (m & Hm & Hwin).
      exists m. split; [done|]. rewrite Hwin.
      by rewrite (proj2 (Nat.ltb_ge _ _)) by lia.
    + destruct (Hrun b a hb ha Hkb Hka Hhb Hha) as (m & Hm & Hwin).
      exists m. split; [done|]. rewrite Hwin.
      by rewrite (proj2 (Nat.ltb_lt _ _)) by lia.
  - intros Heq. destruct (Hrun a b ha hb Hka Hkb Hha Hhb) as (m & Hm & Hwin).
    exists m. split; [done|]. rewrite Hwin.
    by rewrite (proj2 (Nat.ltb_ge _ _)) by lia.
Qed.

End ReconcileFacts.

Lemma reconcile_unique_witness :
  ∃ m, reconcile (U := demo_urllib) [demo_math_other; demo_pc_other; demo_math_telmid] ∅ = Ok m
    ∧ NoDup (asset_key <$> values m).
Proof.
  pose proof (reconcile_unique (U := demo_urllib)
                [demo_math_other; demo_pc_other; demo_math_telmid]) as [Hret Huniq].
  destruct Hret as [m Hm].
  - repeat constructor; eexists; vm_compute; reflexivity.
  - exists m. split; [exact Hm | exact (proj2 (Huniq m Hm))].
Defined.

Lemma prefer_higher_ranked_witness :
  (∃ m, reconcile (U := demo_urllib)
          ([demo_pc_other] ++ demo_math_telmid :: [] ++ demo_math_other :: []) ∅ = Ok m
        ∧ m !! demo_math_key = Some demo_math_telmid)
  ∧ (∃ m, reconcile (U := demo_urllib)
            ([demo_pc_other] ++ demo_math_other :: [] ++ demo_math_telmid :: []) ∅ = Ok m
          ∧ m !! demo_math_key = Some demo_math_telmid).
Proof.
  refine (proj1 (prefer_higher_ranked (U := demo_urllib) [demo_pc_other] [] []
                   demo_math_telmid demo_math_other demo_math_key
                   (lit "telmidtice.com") (lit "www.taalime.ma") _ _ _ _ _ _) _).
  - vm_compute. reflexivity.
  - vm_compute. reflexivity.
  - vm_compute. reflexivity.
  - vm_compute. reflexivity.
  - repeat constructor. eexists. vm_compute. reflexivity.
  - repeat constructor. vm_compute. discriminate.
  - vm_compute. lia.
Defined.

(** ** Link extraction *)

Section ExtractorFacts.
Context {Uc : PyStr.Unicode} {U : Urllib}.

Lemma parse_anchors_app page_url code label folder (before after : list Anchor) st :
  parse_anchors page_url code label folder (before ++ after) st =
  (parse_anchors page_url code label folder before st
     ≫= parse_anchors page_url code label folder after).
Proof.
  revert st. induction before as [|anchor before IH]; intros st; simpl; [done|].
  destruct (parse_anchor page_url code label folder anchor st) as [st'|e]; simpl;
    [apply IH | done].
Qed.

(** An anchor whose normalized URL is neither a ".pdf" URL nor on a
    cloud-storage host leaves the state of the loop as it is. *)
Lemma parse_anchor_foreign page_url code label folder anchor st h pdf parsed :
  href anchor = Some h →
  normalize_pdf_url h page_url = Ok pdf →
  urlparse pdf = Ok parsed →
  (¬ ∃ pre, PyStr.lower pdf = pre ++ lit ".pdf") →
  netloc parsed ∉ GOOGLE_HOSTS →
  parse_anchor page_url code label folder anchor st = Ok st.
Proof.
  intros Hh Hnorm Hparse Hext Hhost. unfold parse_anchor.
  destruct st as [assets seen]. rewrite Hh.
  destruct (PyStr.is_nil h); [done|]. rewrite Hnorm, bind_Ok.
  destruct (PyStr.is_nil pdf); [done|]. rewrite Hparse, bind_Ok.
  assert (PyStr.endswith (PyStr.lower pdf) (lit ".pdf") = false) as ->.
  { destruct (PyStr.endswith _ _) eqn:E; [|done]. by apply endswith_spec in E. }
  unfold inb. by rewrite bool_decide_eq_false_2.
Qed.

(** C8, as amended.  An href for which [normalize_pdf_url] returns and
    whose normalized URL [urlparse] accepts, and whose normalized URL
    neither ends with ".pdf", whatever the case, nor has the host
    drive.google.com or docs.google.com, is skipped: the extraction of the
    page gives what it gives without that anchor, so no candidate is
    produced for it, no error is raised for it, and the anchors after it
    are processed. *)
Theorem parse_exam_links_skips_foreign
    (before after : list Anchor) (anchor : Anchor)
    (page_url code label : text) (folder : Path) (h pdf : text) (parsed : ParseResult) :
  href anchor = Some h →
  normalize_pdf_url h page_url = Ok pdf →
  urlparse pdf = Ok parsed →
  (¬ ∃ pre, PyStr.lower pdf = pre ++ lit ".pdf") →
  netloc parsed ∉ GOOGLE_HOSTS →
  parse_exam_links (before ++ anchor :: after) page_url code label folder =
  parse_exam_links (before ++ after) page_url code label folder.
Proof.
  intros Hh Hnorm Hparse Hext Hhost. unfold parse_exam_links.
  rewrite !parse_anchors_app.
  destruct (parse_anchors page_url code label folder before ([], ∅)) as [st|e]; [|done].
  simpl. by rewrite (parse_anchor_foreign _ _ _ _ _ st h pdf parsed).
Qed.

End ExtractorFacts.

Lemma parse_exam_links_skips_foreign_witness :
  parse_exam_links (U := demo_urllib)
    ([demo_anchor_sujet] ++ demo_anchor_foreign :: [demo_anchor_corrige])
    (lit "https://telmidtice.com/") (lit "Math") (lit "Mathématiques") [lit "root"; lit "Math"]
  = parse_exam_links (U := demo_urllib)
    ([demo_anchor_sujet] ++ [demo_anchor_corrige])
    (lit "https://telmidtice.com/") (lit "Math") (lit "Mathématiques") [lit "root"; lit "Math"].
Proof.
  refine (parse_exam_links_skips_foreign (U := demo_urllib)
            [demo_anchor_sujet] [demo_anchor_corrige] demo_anchor_foreign _ _ _ _
            (lit "https://www.example.org/contact.html")
            (lit "https://www.example.org/contact.html")
            {| scheme := lit "https"; netloc := lit "www.example.org";
               path := lit "/contact.html"; params := []; query := []; fragment := [] |}
            _ _ _ _ _).
  - reflexivity.
  - vm_compute. reflexivity.
  - vm_compute. reflexivity.
  - intros E%endswith_spec. vm_compute in E. discriminate.
  - intros E.
    assert (inb (lit "www.example.org") GOOGLE_HOSTS = true) as E'
      by (by apply bool_decide_eq_true_2).
    vm_compute in E'. discriminate.
Defined.

(** The two exam links of the example page are extracted. *)
Example parse_exam_links_demo :
  (λ r, match r with Ok l => Some (pdf_url <$> l) | Raise _ => None end)
    (parse_exam_links (U := demo_urllib)
       [demo_anchor_sujet; demo_anchor_foreign; demo_anchor_corrige]
       (lit "https://telmidtice.com/") (lit "Math") (lit "Mathématiques")
       [lit "root"; lit "Math"])
  = Some [lit "https://telmidtice.com/assets/math-2021.pdf";
          lit "https://telmidtice.com/assets/math-2021-c.pdf"].
Proof. vm_compute. reflexivity. Qed.

(** The drill sheet is skipped though its title is in capitals, and the
    year in the digits of another script is a year: the candidate has the
    key of 2021. *)
Example parse_exam_links_other_script :
  (λ r, match r with
        | Ok l => Some ((λ a, (year a, asset_key a)) <$> l)
        | Raise _ => None
        end)
    (parse_exam_links (U := demo_urllib) [demo_anchor_drill; demo_anchor_other_script]
       (lit "https://telmidtice.com/") (lit "Math") (lit "Mathématiques")
       [lit "root"; lit "Math"])
  = Some [(Some (lit "20٢١"),
           Some (lit "Math", 2021%Z, lit "Normale", lit "MainExam"))].
Proof. vm_compute. reflexivity. Qed.

(** C8 as stated fails: the href below normalizes, through the download
    helper, to a URL that does not end with ".pdf" and has no host at all,
    since [urlparse] raises [ValueError] for it (an opening bracket without
    its closing one, as in [urllib]); the exception is caught nowhere, so
    the extraction of the page raises, and the candidate of the anchor
    before it is lost with it. *)
Lemma parse_exam_links_malformed_target :
  let page := lit "https://telmidtice.com/" in
  href demo_anchor_malformed
  = Some (lit "https://telmidtice.com/telecharger?url=http://[bad")
  ∧ normalize_pdf_url (U := demo_urllib)
      (lit "https://telmidtice.com/telecharger?url=http://[bad") page
    = Ok (lit "http://[bad")
  ∧ PyStr.endswith (PyStr.lower (lit "http://[bad")) (lit ".pdf") = false
  ∧ urlparse (Urllib := demo_urllib) (lit "http://[bad") = Raise ValueError
  ∧ parse_exam_links (U := demo_urllib) [demo_anchor_sujet; demo_anchor_malformed]
      page (lit "Math") (lit "Mathématiques") [lit "root"; lit "Math"]
    = Raise ValueError
  ∧ (λ r, match r with Ok l => Some (pdf_url <$> l) | Raise _ => None end)
      (parse_exam_links (U := demo_urllib) [demo_anchor_sujet]
         page (lit "Math") (lit "Mathématiques") [lit "root"; lit "Math"])
    = Some [lit "https://telmidtice.com/assets/math-2021.pdf"].
Proof. split_and!; vm_compute; reflexivity. Qed.

(** ** Integers and their decimal strings *)

Section IntStr.
Context {Uc : PyStr.Unicode}.
Implicit Types s acc : text.

Lemma is_digit_range c : PyStr.is_digit c = true ↔ (48 ≤ c ≤ 57)%N.
Proof.
  unfold PyStr.is_digit, PyStr.between.
  rewrite andb_true_iff, !N.leb_le. done.
Qed.

Lemma int_digits_digits s (v : Z) :
  Forall (λ c, PyStr.is_digit c = true) s →
  PyStr.int_digits s v = Some (digits_value s v).
Proof.
  intros Hs. revert v. induction Hs as [|c s Hc Hs IH]; intros v; [done|].
  cbn [PyStr.int_digits digits_value fold_left]. rewrite Hc. apply IH.
Qed.

Lemma digit_of_mod (n : Z) :
  let d : char := (Z.to_N (n mod 10) + 48)%N in
  PyStr.is_digit d = true ∧ PyStr.digit_val d = (n mod 10)%Z.
Proof.
  pose proof (Z.mod_pos_bound n 10 ltac:(lia)) as Hr.
  cbn zeta. split; [apply is_digit_range; lia | unfold PyStr.digit_val; lia].
Qed.

(** The digits that [str] produces, with enough fuel: all are digits, there
    is at least one, and their value is the number. *)
Lemma pos_digits_spec (fuel : nat) (n : Z) acc :
  (0 ≤ n)%Z → 1 ≤ fuel → (n ≤ Z.of_nat fuel)%Z →
  Forall (λ c, PyStr.is_digit c = true) acc →
  Forall (λ c, PyStr.is_digit c = true) (PyStr.pos_digits fuel n acc)
  ∧ PyStr.pos_digits fuel n acc ≠ []
  ∧ digits_value (PyStr.pos_digits fuel n acc) 0 = digits_value acc n.
Proof.
  revert n acc. induction fuel as [|fuel IH]; intros n acc Hn Hfuel Hle Hacc; [lia|].
  cbn [PyStr.pos_digits]. destruct (digit_of_mod n) as [Hd Hv]. cbn zeta in Hd, Hv.
  destruct (n <? 10)%Z eqn:Hlt.
  - apply Z.ltb_lt in Hlt. split_and!; [by constructor | done |].
    cbn [digits_value fold_left]. rewrite Hv. f_equal.
    rewrite Z.mod_small by lia. lia.
  - apply Z.ltb_ge in Hlt.
    assert (0 ≤ n / 10 ∧ n / 10 < n)%Z as [H0 H1].
    { split; [apply Z.div_pos; lia | apply Z.div_lt; lia]. }
    destruct (IH (n / 10)%Z ((Z.to_N (n mod 10) + 48)%N :: acc))
      as (Hall & Hne & Hval); [lia | lia | lia | by constructor |].
    split_and!; [done | done |]. etrans; [exact Hval|].
    cbn [digits_value fold_left]. rewrite Hv. f_equal.
    pose proof (Z.div_mod n 10 ltac:(lia)). lia.
Qed.

Lemma lstrip_id (f : char → bool) s :
  Forall (λ c, f c = false) s → PyStr.lstrip f s = s.
Proof. intros [|c s' Hc _]; [done|]. cbn [PyStr.lstrip]. by rewrite Hc. Qed.

Lemma rstrip_id (f : char → bool) s :
  Forall (λ c, f c = false) s → PyStr.rstrip f s = s.
Proof.
  induction 1 as [|c s' Hc _ IH]; [done|]. by rewrite rstrip_keep, IH.
Qed.

Lemma strip_id (f : char → bool) s :
  Forall (λ c, f c = false) s → PyStr.strip f s = s.
Proof. intros H. unfold PyStr.strip. by rewrite lstrip_id, rstrip_id. Qed.

Lemma digit_not_special c :
  PyStr.is_digit c = true →
  PyStr.is_c_space c = false ∧ PyStr.char_eqb c "-" = false ∧ PyStr.char_eqb c "+" = false.
Proof.
  intros Hc%is_digit_range.
  unfold PyStr.is_c_space, PyStr.between, PyStr.char_eqb.
  change (chr "-") with 45%N. change (chr "+") with 43%N. change (chr " ") with 32%N.
  destruct (N.leb_spec 9 c), (N.leb_spec c 13), (N.eqb_spec c 32), (N.eqb_spec c 45),
    (N.eqb_spec c 43); cbn [andb orb]; first [done | lia].
Qed.

Lemma int_unsigned_digits s :
  Forall (λ c, PyStr.is_digit c = true) s → s ≠ [] →
  PyStr.int_unsigned s = Some (digits_value s 0).
Proof.
  intros Hs Hne. destruct Hs as [|c s Hc Hs]; [done|].
  cbn [PyStr.int_unsigned]. rewrite Hc, int_digits_digits by done.
  cbn [digits_value fold_left]. by rewrite Z.mul_0_r, Z.add_0_l.
Qed.

(** The literal parser on a string of digits. *)
Lemma int_ascii_digits s :
  Forall (λ c, PyStr.is_digit c = true) s → s ≠ [] →
  PyStr.int_ascii s = Some (digits_value s 0).
Proof.
  intros Hs Hne. unfold PyStr.int_ascii. rewrite strip_id.
  - destruct s as [|c s']; [done|].
    assert (PyStr.is_digit c = true) as Hc by (by inversion Hs).
    destruct (digit_not_special c Hc) as (_ & Hminus & Hplus).
    rewrite Hminus, Hplus. by apply int_unsigned_digits.
  - eapply Forall_impl; [exact Hs|]. intros c Hc. by apply digit_not_special.
Qed.

(** What [int] reads in place of a decimal digit is the ASCII digit of
    its value. *)
Lemma to_ascii_decimal c v :
  PyStr.decimal c = Some v →
  PyStr.is_digit (PyStr.to_ascii c) = true ∧ PyStr.digit_val (PyStr.to_ascii c) = v.
Proof.
  intros Hv. unfold PyStr.to_ascii. destruct (N.ltb_spec c 128) as [Hc|Hc].
  - rewrite (PyStr.decimal_ascii c Hc) in Hv.
    destruct (PyStr.is_digit c) eqn:E; [|done]. by injection Hv as <-.
  - rewrite (PyStr.decimal_not_space c v Hv), Hv.
    pose proof (PyStr.decimal_range c v Hv).
    split; [apply is_digit_range; lia | unfold PyStr.digit_val; lia].
Qed.

Lemma to_ascii_digit c : PyStr.is_digit c = true → PyStr.to_ascii c = c.
Proof.
  intros Hc%is_digit_range. unfold PyStr.to_ascii.
  destruct (N.ltb_spec c 128); [done | lia].
Qed.

(** [int(str(n))] is [n], for every integer. *)
Lemma int_str (n : Z) : PyStr.int (PyStr.str n) = Some n.
Proof.
  unfold PyStr.str, PyStr.int. destruct (n <? 0)%Z eqn:Hneg.
  - apply Z.ltb_lt in Hneg.
    destruct (pos_digits_spec (Z.to_nat (- n)) (- n)%Z []) as (Hall & Hne & Hval);
      [lia | lia | lia | done |].
    cbn [map]. change (PyStr.to_ascii (chr "-")) with (chr "-").
    rewrite (map_ext_Forall _ id) by
      (eapply Forall_impl; [exact Hall|]; intros c Hc; by apply to_ascii_digit).
    rewrite map_id. unfold PyStr.int_ascii. rewrite strip_id.
    + change (PyStr.char_eqb (chr "-") (chr "-")) with true. cbn iota.
      rewrite int_unsigned_digits, Hval by done. cbn. f_equal. lia.
    + constructor; [done|]. eapply Forall_impl; [exact Hall|].
      intros c Hc. by apply digit_not_special.
  - apply Z.ltb_ge in Hneg.
    destruct (pos_digits_spec (S (Z.to_nat n)) n []) as (Hall & Hne & Hval);
      [lia | lia | lia | done |].
    rewrite (map_ext_Forall _ id) by
      (eapply Forall_impl; [exact Hall|]; intros c Hc; by apply to_ascii_digit).
    rewrite map_id, int_ascii_digits by done. by rewrite Hval.
Qed.

Lemma int_str_YEARS : Forall (λ y, PyStr.int (PyStr.str y) = Some y) YEARS.
Proof. apply Forall_forall. intros y _. apply int_str. Qed.

End IntStr.

(** ** Gap synthesis *)


Section SynthesizerFacts.
Context {Uc : PyStr.Unicode} {U : Urllib} {N : Web}.
Implicit Types m : gmap Key ExamAsset.

(** [build_telmid_asset] returns an asset exactly when the key has a
    fallback URL and the probe of that URL succeeds; the asset has that
    URL and the fields of the key. *)
Lemma build_telmid_asset_spec code label folder y s t :
  match build_telmid_asset code label folder y s t with
  | Some a =>
      ∃ url, fallback_url (code, y, s, t) = Some url ∧ probe_ok url = true
             ∧ pdf_url a = url ∧ subject_code a = code ∧ year a = Some (PyStr.str y)
             ∧ session a = Some s ∧ asset_type a = t
  | None =>
      ∀ url, fallback_url (code, y, s, t) = Some url → probe_ok url = false
  end.
Proof.
  unfold build_telmid_asset, fallback_url.
  destruct (dict_get TELMID_PATTERNS code) as [pattern|];
    cbn [mbind option_bind]; [|done].
  destruct (dict_get TYPE_LABELS t) as [type_label|];
    cbn [mbind option_bind]; [|done].
  destruct (probe_ok _) eqn:E; cbn [negb].
  - eexists. by split_and!.
  - by intros url [= <-].
Qed.

Lemma expected_entries_elem e :
  e ∈ expected_entries →
  e.1.1.2 ∈ YEARS ∧ e.1.2 ∈ TARGET_SESSIONS ∧ e.2 ∈ TARGET_ASSET_TYPES.
Proof.
  unfold expected_entries. intros H.
  apply list_elem_of_bind in H as (config & H & _).
  apply list_elem_of_bind in H as (y & H & Hy).
  apply list_elem_of_bind in H as (s & H & Hs).
  apply list_elem_of_bind in H as (t & H & Ht).
  apply list_elem_of_singleton in H as ->. done.
Qed.

(** An asset with the fields of an expected key has that key. *)
Lemma asset_key_expected (a : ExamAsset) code y s t :
  y ∈ YEARS → s ∈ TARGET_SESSIONS → t ∈ TARGET_ASSET_TYPES →
  subject_code a = code → year a = Some (PyStr.str y) → session a = Some s →
  asset_type a = t →
  asset_key a = Some (code, y, s, t).
Proof.
  intros Hy Hs Ht <- Hyear Hsession <-. unfold asset_key. rewrite Hyear, Hsession.
  pose proof int_str_YEARS as Hint. rewrite Forall_forall in Hint.
  rewrite (Hint y Hy).
  assert (default s (dict_get SESSION_LABELS s) = s) as ->.
  { apply list_elem_of_In in Hs. destruct Hs as [<- | [<- | []]]; reflexivity. }
  unfold inb. by rewrite !bool_decide_eq_true_2.
Qed.

(** One step of the fallback search, for a key that is absent. *)
Lemma fill_gap_step m e :
  m !! entry_key e = None →
  (∀ url, fallback_url (entry_key e) = Some url → probe_ok url = false) ∧ fill_gap m e = m
  ∨ ∃ url a, fallback_url (entry_key e) = Some url ∧ probe_ok url = true
             ∧ pdf_url a = url ∧ fill_gap m e = <[entry_key e := a]> m
             ∧ (e ∈ expected_entries → asset_key a = Some (entry_key e)).
Proof.
  destruct e as [[[config y] s] t]. simpl. intros Hnone. rewrite Hnone.
  pose proof (build_telmid_asset_spec (s_code config) (s_label config)
                (s_folder config) y s t) as Hb.
  destruct (build_telmid_asset _ _ _ _ _ _) as [a|].
  - right. destruct Hb as (url & Hurl & Hok & Hu & Hc & Hy & Hs & Ht).
    exists url, a. split_and!; try done.
    intros (Hy' & Hs' & Ht')%expected_entries_elem. by apply asset_key_expected.
  - by left.
Qed.

Lemma fill_gap_present m e a :
  m !! entry_key e = Some a → fill_gap m e = m.
Proof. destruct e as [[[config y] s] t]. simpl. by intros ->. Qed.

(** The fallback search over a list of entries: what is in the map stays,
    and what comes in is a probed fallback asset of its key. *)
Lemma fill_gaps_from m es :
  (∀ key a, m !! key = Some a → foldl fill_gap m es !! key = Some a)
  ∧ (∀ key a, foldl fill_gap m es !! key = Some a →
       m !! key = Some a
       ∨ ∃ url, fallback_url key = Some url ∧ probe_ok url = true ∧ pdf_url a = url
                ∧ ((∀ e, e ∈ es → e ∈ expected_entries) → asset_key a = Some key)).
Proof.
  revert m. induction es as [|e es IH]; intros m; simpl; [by eauto|].
  assert (∀ key a, m !! key = Some a → fill_gap m e !! key = Some a) as Hstay.
  { intros key a Ha. destruct (m !! entry_key e) as [a'|] eqn:He.
    - by rewrite (fill_gap_present m e a').
    - destruct (fill_gap_step m e He) as [[_ ->] | (url & a' & _ & _ & _ & -> & _)];
        [done|]. rewrite lookup_insert_ne; [done | congruence]. }
  destruct (IH (fill_gap m e)) as [IH1 IH2]. split.
  - intros key a Ha. by apply IH1, Hstay.
  - intros key a Ha. destruct (IH2 key a Ha) as [H | (url & ? & ? & ? & Hk)].
    + destruct (m !! entry_key e) as [a'|] eqn:He.
      * rewrite (fill_gap_present m e a') in H by done. by left.
      * destruct (fill_gap_step m e He) as [[_ Heq] | (url & a' & Hurl & Hok & Hu & Heq & Hk)];
          rewrite Heq in H; [by left|].
        rewrite lookup_insert in H. case_decide as Hkey; [|by left].
        injection H as ->. subst key. right. exists url. split_and!; try done.
        intros Hes. apply Hk, Hes, list_elem_of_here.
    + right. exists url. split_and!; try done.
      intros Hes. apply Hk. intros e' He'. by apply Hes, list_elem_of_further.
Qed.

Lemma fill_gaps_eq m : fill_gaps m = foldl fill_gap m expected_entries.
Proof. unfold fill_gaps. reflexivity. Qed.

Lemma fill_gaps_lookup m key a :
  fill_gaps m !! key = Some a →
  m !! key = Some a
  ∨ ∃ url, fallback_url key = Some url ∧ probe_ok url = true ∧ pdf_url a = url
           ∧ asset_key a = Some key.
Proof.
  intros Ha. rewrite fill_gaps_eq in Ha.
  destruct (proj2 (fill_gaps_from m expected_entries) key a Ha)
    as [H | (url & ? & ? & ? & Hk)]; [by left | right].
  exists url. split_and!; try assumption. apply Hk. intros e He. exact He.
Qed.

Lemma fill_gaps_keyed m : keyed m → keyed (fill_gaps m).
Proof.
  intros Hm key a Ha.
  destruct (fill_gaps_lookup m key a Ha) as [H | (url & _ & _ & _ & Hk)].
  - by apply Hm.
  - exact Hk.
Qed.

End SynthesizerFacts.

(** ** Fetch and validate *)

Section FetchFacts.
Context {Uc : PyStr.Unicode} {U : Urllib} {N : Web}.
Implicit Types w : World.
Implicit Types a : ExamAsset.

Lemma write_chunks_spec chunks first_bytes written :
  write_chunks chunks first_bytes written =
  (match first_bytes with Some _ => first_bytes | None => first_chunk chunks end,
   written ++ concat chunks).
Proof.
  revert first_bytes written. unfold first_chunk.
  induction chunks as [|chunk chunks IH]; intros first_bytes written; simpl.
  - rewrite app_nil_r. by destruct first_bytes.
  - destruct chunk as [|c chunk]; simpl PyStr.is_nil; cbn iota.
    + rewrite IH. by rewrite filter_cons_False by (by intros ?).
    + rewrite IH, filter_cons_True by done. rewrite <- app_assoc.
      by destruct first_bytes.
Qed.

Lemma looks_like_pdf_spec chunks :
  looks_like_pdf (first_chunk chunks) = true ↔
  ∃ chunk, first_chunk chunks = Some chunk ∧ has_pdf_signature chunk.
Proof.
  unfold looks_like_pdf, has_pdf_signature. destruct (first_chunk chunks) as [chunk|].
  - rewrite startswith_spec. split.
    + intros Hsig. by exists chunk.
    + by intros (chunk' & [= <-] & Hsig).
  - split; [done | by intros (chunk & ? & _)].
Qed.

Lemma download_pdf_existing a w c :
  files w !! local_path a = Some c → download_pdf a w = (true, w).
Proof. intros H. unfold download_pdf. by rewrite H. Qed.

(** A download whose destination is absent, by the reply to its request. *)
Lemma download_pdf_absent a w :
  files w !! local_path a = None →
  let asked := requests w ++ [pdf_url a] in
  download_pdf a w =
  match http_get (length (requests w)) (pdf_url a) with
  | GetRaises => (false, {| files := files w; requests := asked |})
  | GetResponse r =>
      if is_error_status (status_code r)
      then (false, {| files := files w; requests := asked |})
      else match content_end r with
           | StreamBroken => (false, {| files := files w; requests := asked |})
           | StreamDone =>
               if looks_like_pdf (first_chunk (content r))
               then (true, {| files := <[local_path a := concat (content r)]> (files w);
                              requests := asked |})
               else (false, {| files := files w; requests := asked |})
           end
  end.
Proof.
  intros Hnone. unfold download_pdf. rewrite Hnone.
  destruct (http_get _ _) as [|r]; [done|].
  destruct (is_error_status _); [done|].
  rewrite write_chunks_spec. cbn [app]. rewrite insert_insert_eq.
  rewrite delete_insert_eq, (delete_id _ _ Hnone).
  destruct (content_end r); [|done].
  by destruct (looks_like_pdf _).
Qed.

Lemma download_pdf_failing a w :
  files w !! local_path a = None →
  failing_reply (http_get (length (requests w)) (pdf_url a)) →
  download_pdf a w = (false, {| files := files w; requests := requests w ++ [pdf_url a] |}).
Proof.
  intros Hnone Hfail. rewrite download_pdf_absent by done.
  destruct (http_get _ _) as [|r]; [done|]. simpl in Hfail.
  destruct (is_error_status _); [done|].
  destruct (content_end r); [|done].
  destruct (looks_like_pdf _) eqn:E; [|done].
  apply looks_like_pdf_spec in E as (chunk & Hc & Hsig).
  destruct Hfail as [? | [? | Hno]]; [done..|]. by destruct (Hno chunk Hc).
Qed.

(** Files that exist stay, and an accepted asset is stored. *)
Lemma download_pdf_stored a w ok w' (p : Path) :
  download_pdf a w = (ok, w') →
  (is_Some (files w !! p) → is_Some (files w' !! p))
  ∧ (ok = true → stored w' a).
Proof.
  unfold stored. destruct (files w !! local_path a) as [c|] eqn:Hdest.
  - rewrite (download_pdf_existing a w c Hdest). intros [= <- <-].
    split; [done|]. by rewrite Hdest.
  - rewrite download_pdf_absent by done.
    destruct (http_get _ _) as [|r]; [by intros [= <- <-]|].
    destruct (is_error_status _); [by intros [= <- <-]|].
    destruct (content_end r); [|by intros [= <- <-]].
    destruct (looks_like_pdf _); [|by intros [= <- <-]].
    intros [= <- <-]. simpl. split.
    + intros Hp. rewrite lookup_insert. by case_decide.
    + intros _. by rewrite lookup_insert_eq.
Qed.

Lemma fetch_all_subset l manifest w a :
  a ∈ (fetch_all l manifest w).1 → a ∈ manifest ∨ a ∈ l.
Proof.
  revert manifest w. induction l as [|x l IH]; intros manifest w; simpl; [by left|].
  destruct (download_pdf x w) as [ok w']. intros Ha.
  destruct (IH _ _ Ha) as [H | H].
  - destruct ok; [|by left]. apply elem_of_app in H as [H | H]; [by left|].
    apply list_elem_of_singleton in H as ->. right. apply list_elem_of_here.
  - right. by apply list_elem_of_further.
Qed.

Lemma fetch_all_stored l manifest w manifest' w' :
  fetch_all l manifest w = (manifest', w') →
  Forall (stored w) manifest → Forall (stored w') manifest'.
Proof.
  revert manifest w. induction l as [|x l IH]; intros manifest w; simpl.
  - by intros [= <- <-].
  - destruct (download_pdf x w) as [ok w1] eqn:Hd. intros Hrun Hst.
    apply (IH _ _ Hrun).
    assert (Forall (stored w1) manifest) as Hst1.
    { eapply Forall_impl; [exact Hst|]. intros a Ha.
      by apply (download_pdf_stored x w ok w1 (local_path a) Hd). }
    destruct ok; [|done]. apply Forall_app. split; [done|].
    constructor; [|done]. by apply (download_pdf_stored x w true w1 [] Hd).
Qed.


(** The keys are computed for every asset, in order: the computation
    returns exactly when every asset has a sort key. *)
Lemma sort_keys_Ok (l : list ExamAsset) keyed_assets :
  sort_keys l = Ok keyed_assets →
  keyed_assets.*2 = l ∧ Forall (λ item, sort_key item.2 = Ok item.1) keyed_assets.
Proof.
  revert keyed_assets. induction l as [|a l IH]; intros keyed_assets; cbn [sort_keys].
  - intros <-%Ok_inj. by split.
  - destruct (sort_key a) as [k|] eqn:Hk; [|done]. rewrite bind_Ok.
    destruct (sort_keys l) as [rest|]; [|done]. rewrite bind_Ok. intros <-%Ok_inj.
    destruct (IH rest eq_refl) as [Hl Hkeys]. split.
    + cbn [fmap list_fmap snd]. by rewrite <- Hl.
    + by constructor.
Qed.

Lemma sort_keys_returns (l : list ExamAsset) :
  Forall (λ a, ∃ k, sort_key a = Ok k) l → ∃ keyed_assets, sort_keys l = Ok keyed_assets.
Proof.
  induction 1 as [|a l [k Hk] _ [rest IH]]; cbn [sort_keys]; [by eexists|].
  rewrite Hk, bind_Ok, IH, bind_Ok. by eexists.
Qed.

Lemma insert_sorted_Permutation item (l : list (SortKey * ExamAsset)) :
  insert_sorted item l ≡ₚ item :: l.
Proof.
  induction l as [|y l IH]; cbn [insert_sorted]; [done|].
  destruct (sort_key_leb _ _); [done|]. rewrite IH. apply Permutation_swap.
Qed.

Lemma foldr_insert_sorted_Permutation (l : list (SortKey * ExamAsset)) :
  foldr insert_sorted [] l ≡ₚ l.
Proof.
  induction l as [|x l IH]; cbn [foldr]; [done|].
  by rewrite insert_sorted_Permutation, IH.
Qed.

(** What [sorted] returns, in terms of the keyed list. *)
Lemma sorted_Ok (l l' : list ExamAsset) :
  sorted l = Ok l' →
  ∃ keyed_assets, sort_keys l = Ok keyed_assets
                  ∧ l' = (foldr insert_sorted [] keyed_assets).*2.
Proof.
  unfold sorted. destruct (sort_keys l) as [keyed_assets|]; [|done].
  rewrite bind_Ok. intros <-%Ok_inj. by exists keyed_assets.
Qed.

Lemma sorted_Permutation (l l' : list ExamAsset) : sorted l = Ok l' → l' ≡ₚ l.
Proof.
  intros (keyed_assets & Hkeys & ->)%sorted_Ok.
  destruct (sort_keys_Ok l keyed_assets Hkeys) as [<- _].
  by rewrite foldr_insert_sorted_Permutation.
Qed.

Lemma sorted_elem a (l l' : list ExamAsset) : sorted l = Ok l' → a ∈ l' ↔ a ∈ l.
Proof. intros H. by rewrite (sorted_Permutation l l' H). Qed.

Lemma values_elem a (m : gmap Key ExamAsset) :
  a ∈ values m ↔ ∃ key, m !! key = Some a.
Proof.
  unfold values. rewrite list_elem_of_fmap. split.
  - intros ([key a'] & -> & H%elem_of_map_to_list). eauto.
  - intros [key H]. exists (key, a). split; [done|]. by apply elem_of_map_to_list.
Qed.

End FetchFacts.

Section FetchClaims.
Context {Uc : PyStr.Unicode} {U : Urllib} {N : Web}.

Lemma probe_ok_spec url : probe_ok url = true ↔ http_head url = HeadStatus 200.
Proof.
  unfold probe_ok. destruct (http_head url) as [|status]; [done|].
  rewrite bool_decide_eq_true. split; [by intros -> | by intros [= ->]].
Qed.

Lemma complete_and_fetch_eq (m : gmap Key ExamAsset) w :
  complete_and_fetch m w =
  (sorted_assets ← sorted (values (fill_gaps m));
   Ok (fill_gaps m, (fetch_all sorted_assets [] w).1,
       (fetch_all sorted_assets [] w).2)).
Proof.
  unfold complete_and_fetch. destruct (sorted _) as [sorted_assets|]; [|done].
  rewrite !bind_Ok. by destruct (fetch_all _ _ _).
Qed.

(** A run that returns: the map is the one after the fallback search, the
    sort has returned, and manifest and world are those of the fetch loop
    over the sorted assets. *)
Lemma complete_and_fetch_Ok (m : gmap Key ExamAsset) w filled manifest w' :
  complete_and_fetch m w = Ok (filled, manifest, w') →
  filled = fill_gaps m
  ∧ ∃ sorted_assets, sorted (values (fill_gaps m)) = Ok sorted_assets
                     ∧ fetch_all sorted_assets [] w = (manifest, w').
Proof.
  rewrite complete_and_fetch_eq.
  destruct (sorted (values (fill_gaps m))) as [sorted_assets|]; [|done].
  rewrite bind_Ok. intros H%Ok_inj.
  apply pair_equal_spec in H as [H Hw]. apply pair_equal_spec in H as [Hfilled Hmanifest].
  split; [done|]. exists sorted_assets. split; [done|].
  rewrite (surjective_pairing (fetch_all sorted_assets [] w)). by rewrite Hmanifest, Hw.
Qed.

(** C3. For a key that is absent from the map, one step of the fallback
    search builds at most one candidate, from the template of the subject:
    when the probe of the fallback URL does not answer 200 (another status
    or an exception), or the key has no fallback URL, the map is unchanged;
    an asset appears under the key only with a probe that answered 200, and
    then it is the only change.  Over the whole search from a map whose
    entries are stored under their own keys, a key that was absent and
    whose probe fails is absent from the map after the search, which is the
    final map of the run, and no asset with that canonical key is in the
    manifest. *)
Theorem gap_fill_commit (m : gmap Key ExamAsset) :
  (∀ e, m !! entry_key e = None →
     (∀ url, fallback_url (entry_key e) = Some url → http_head url ≠ HeadStatus 200 →
             fill_gap m e = m)
     ∧ (fallback_url (entry_key e) = None → fill_gap m e = m)
     ∧ (∀ a, fill_gap m e !! entry_key e = Some a →
          ∃ url, fallback_url (entry_key e) = Some url ∧ http_head url = HeadStatus 200
                 ∧ pdf_url a = url ∧ fill_gap m e = <[entry_key e := a]> m))
  ∧ (∀ key url, keyed m → m !! key = None → fallback_url key = Some url →
       http_head url ≠ HeadStatus 200 →
       fill_gaps m !! key = None
       ∧ ∀ w filled manifest w',
           complete_and_fetch m w = Ok (filled, manifest, w') →
           filled !! key = None ∧ ∀ a, a ∈ manifest → asset_key a ≠ Some key).
Proof.
  split.
  - intros e Hnone.
    destruct (fill_gap_step m e Hnone)
      as [[Hfail Heq] | (url & a & Hurl & Hok & Hu & Heq & _)].
    + split_and!; [done | done |]. intros a. rewrite Heq. congruence.
    + apply probe_ok_spec in Hok. split_and!.
      * intros url' Hurl' Hhead. congruence.
      * congruence.
      * intros a'. rewrite Heq, lookup_insert_eq. intros [= <-]. by exists url.
  - intros key url Hkeyed Hnone Hurl Hhead.
    assert (fill_gaps m !! key = None) as Hfilled.
    { destruct (fill_gaps m !! key) as [a|] eqn:Ha; [|done].
      destruct (fill_gaps_lookup m key a Ha) as [H | (url' & Hurl' & Hok & _)];
        [congruence|].
      apply probe_ok_spec in Hok. congruence. }
    split; [done|]. intros w filled manifest w' Hrun.
    apply complete_and_fetch_Ok in Hrun as (-> & sorted_assets & Hsorted & Hfetch).
    split; [done|]. intros a Ha Hkey.
    assert (a ∈ (fetch_all sorted_assets [] w).1) as Ha' by (by rewrite Hfetch).
    apply fetch_all_subset in Ha' as [Ha' | Ha']; [by apply elem_of_nil in Ha'|].
    apply (sorted_elem a _ _ Hsorted), values_elem in Ha' as [key' Ha'].
    pose proof (fill_gaps_keyed m Hkeyed key' a Ha') as Hkey'. congruence.
Qed.

(** C4, as the code has it. For a candidate whose destination is absent
    and whose download fails (the request raises, the status is an error,
    the stream breaks after some chunks, or the stream ends and the first
    non-empty chunk, its leading white space removed, does not start with
    "%PDF"), [download_pdf] returns false, the storage tree is as before,
    with no file at the destination, and the loop goes on with the other
    assets without adding the candidate to the manifest. *)
Theorem download_pdf_rejects a w (rest manifest : list ExamAsset) :
  files w !! local_path a = None →
  failing_reply (http_get (length (requests w)) (pdf_url a)) →
  ∃ w', download_pdf a w = (false, w')
      ∧ files w' = files w ∧ files w' !! local_path a = None
      ∧ fetch_all (a :: rest) manifest w = fetch_all rest manifest w'.
Proof.
  intros Hnone Hfail. eexists. split; [by apply download_pdf_failing|].
  split_and!; [done | done |].
  cbn [fetch_all]. by rewrite download_pdf_failing.
Qed.


End FetchClaims.

Lemma demo_gap_run_eq :
  complete_and_fetch (U := demo_urllib) (N := demo_web) ∅ demo_world = Ok demo_gap_run.
Proof.
  unfold demo_gap_run, returned.
  assert (match complete_and_fetch (U := demo_urllib) (N := demo_web) ∅ demo_world with
          | Ok _ => true
          | Raise _ => false
          end = true) as Hruns by (vm_compute; reflexivity).
  revert Hruns.
  destruct (complete_and_fetch (U := demo_urllib) (N := demo_web) ∅ demo_world)
    as [run|e]; [done|].
  discriminate.
Qed.

Lemma gap_fill_commit_witness :
  let key : Key := (lit "Math", 2010%Z, lit "Normale", lit "MainExam") in
  fill_gaps (U := demo_urllib) (N := demo_web) ∅ !! key = None
  ∧ demo_gap_run.1.1 !! key = None
  ∧ ∀ a, a ∈ demo_gap_run.1.2 → asset_key a ≠ Some key.
Proof.
  intros key.
  assert (fill_gaps (U := demo_urllib) (N := demo_web) ∅ !! key = None
          ∧ ∀ w filled manifest w',
              complete_and_fetch (U := demo_urllib) (N := demo_web) ∅ w
              = Ok (filled, manifest, w') →
              filled !! key = None ∧ ∀ a, a ∈ manifest → asset_key a ≠ Some key)
    as [Hmap Hrun].
  { refine (proj2 (gap_fill_commit (U := demo_urllib) (N := demo_web) ∅) key
              (default [] (fallback_url (U := demo_urllib) key)) _ _ _ _).
    - intros k a. by rewrite lookup_empty.
    - apply lookup_empty.
    - vm_compute. reflexivity.
    - vm_compute. discriminate. }
  split; [exact Hmap|].
  apply (Hrun demo_world demo_gap_run.1.1 demo_gap_run.1.2 demo_gap_run.2).
  rewrite demo_gap_run_eq. by destruct demo_gap_run as [[? ?] ?].
Defined.

(** The example of the specification: the SVT 2009 Rattrapage Correction
    is absent from the harvest, its probe succeeds, it is committed and
    then downloaded. *)
Example gap_fill_svt_2009 :
  let key : Key := (lit "SVT", 2009%Z, lit "Rattrapage", lit "Correction") in
  (pdf_url <$> demo_gap_run.1.1 !! key) = fallback_url (U := demo_urllib) key
  ∧ bool_decide (Some key ∈ asset_key <$> demo_gap_run.1.2) = true
  ∧ length demo_gap_run.1.2 = 12.
Proof. vm_compute. done. Qed.

Lemma download_pdf_rejects_witness :
  ∃ w', download_pdf (N := demo_web) demo_broken demo_world = (false, w')
      ∧ files w' = files demo_world ∧ files w' !! local_path demo_broken = None
      ∧ fetch_all (N := demo_web) (demo_broken :: [demo_math_telmid]) [] demo_world
        = fetch_all (N := demo_web) [demo_math_telmid] [] w'.
Proof.
  apply (download_pdf_rejects (N := demo_web) demo_broken demo_world [demo_math_telmid] []).
  - reflexivity.
  - right. left. reflexivity.
Defined.

(** A page of HTML served in place of the document is not stored. *)
Example download_pdf_rejects_html :
  (download_pdf (N := demo_web) demo_pc_other demo_world).1 = false
  ∧ (download_pdf (N := demo_web) demo_pc_other demo_world).2.(files)
      !! local_path demo_pc_other = None.
Proof. split; vm_compute; reflexivity. Qed.

(** C4 as stated fails: a body with white space before "%PDF" does
    not start with the signature, and it is stored and accepted. *)
Lemma download_pdf_accepts_padded :
  http_get (Web := demo_web) 0 (pdf_url demo_padded)
  = GetResponse {| status_code := 200; content := [lit " %PDF-1.4 padded"];
                   content_end := StreamDone |}
  ∧ PyStr.startswith (lit " %PDF-1.4 padded") PDF_MAGIC = false
  ∧ demo_world.(files) !! local_path demo_padded = None
  ∧ (download_pdf (N := demo_web) demo_padded demo_world).1 = true
  ∧ (download_pdf (N := demo_web) demo_padded demo_world).2.(files)
      !! local_path demo_padded = Some (lit " %PDF-1.4 padded")
  ∧ (fetch_all (N := demo_web) [demo_padded] [] demo_world).1 = [demo_padded].
Proof. split_and!; vm_compute; reflexivity. Qed.


(** ** The run as a whole *)

Section MainFacts.
Context {Uc : PyStr.Unicode} {U : Urllib} {N : Web}.
Implicit Types m : gmap Key ExamAsset.

(** Every asset that the extractor returns has a URL that [urlparse]
    accepts: the hypothesis of the reconciliation theorems holds for the
    harvested candidates. *)
Lemma parse_anchor_parses page_url code label folder anchor assets seen assets' seen' :
  parse_anchor page_url code label folder anchor (assets, seen) = Ok (assets', seen') →
  Forall url_parses assets → Forall url_parses assets'.
Proof.
  unfold parse_anchor. intros Hrun Hassets.
  destruct (href anchor) as [h|]; [|by injection Hrun as <- <-].
  destruct (PyStr.is_nil h); [by injection Hrun as <- <-|].
  destruct (normalize_pdf_url h page_url) as [pdf|]; [|done]. rewrite bind_Ok in Hrun.
  destruct (PyStr.is_nil pdf); [by injection Hrun as <- <-|].
  destruct (urlparse pdf) as [parsed|] eqn:Hparse; [|done]. rewrite bind_Ok in Hrun.
  destruct (_ && _); [by injection Hrun as <- <-|].
  destruct (PyStr.is_nil (get_text anchor)); [by injection Hrun as <- <-|].
  destruct (_ || _); [by injection Hrun as <- <-|].
  destruct (identify_asset_type (get_text anchor)) as [ty|]; [|by injection Hrun as <- <-].
  destruct (bool_decide _); [by injection Hrun as <- <-|].
  injection Hrun as <- <-. apply Forall_app. split; [done|].
  constructor; [|done]. by exists parsed.
Qed.

Lemma parse_exam_links_parses anchors page_url code label folder l :
  parse_exam_links anchors page_url code label folder = Ok l → Forall url_parses l.
Proof.
  unfold parse_exam_links.
  assert (∀ st st', parse_anchors page_url code label folder anchors st = Ok st' →
                    Forall url_parses st.1 → Forall url_parses st'.1) as Hloop.
  { induction anchors as [|anchor anchors IH]; intros st st'; cbn [parse_anchors].
    - by intros [= <-].
    - destruct (parse_anchor page_url code label folder anchor st) as [st1|] eqn:E; [|done].
      rewrite bind_Ok. intros Hrest Hst. apply (IH st1 st' Hrest).
      destruct st as [assets seen], st1 as [assets1 seen1].
      by apply (parse_anchor_parses _ _ _ _ _ _ _ _ _ E). }
  destruct (parse_anchors _ _ _ _ anchors ([], ∅)) as [st|] eqn:E; [|done].
  rewrite bind_Ok. intros [= <-]. by apply (Hloop _ _ E).
Qed.

(** Reconciliation keeps the entries under their own keys. *)
Lemma reconcile_asset_keyed m asset m' :
  reconcile_asset m asset = Ok m' → keyed m → keyed m'.
Proof.
  unfold reconcile_asset. intros Hrun Hm.
  destruct (asset_key asset) as [key|] eqn:Hk; [|by injection Hrun as <-].
  assert (keyed (<[key := asset]> m)) as Hins.
  { intros key' a. rewrite lookup_insert. case_decide; [|apply Hm].
    intros [= <-]. by subst. }
  destruct (m !! key) as [existing|]; [|by injection Hrun as <-].
  destruct (prefer_asset asset existing) as [[]|]; [| |done];
    rewrite bind_Ok in Hrun; by injection Hrun as <-.
Qed.

Lemma reconcile_keyed l m m' : reconcile l m = Ok m' → keyed m → keyed m'.
Proof.
  revert m. induction l as [|asset l IH]; intros m; cbn [reconcile].
  - by intros [= <-].
  - destruct (reconcile_asset m asset) as [m1|] eqn:E; [|done].
    rewrite bind_Ok. intros Hrest Hm. apply (IH m1 Hrest).
    by apply (reconcile_asset_keyed m asset).
Qed.

Lemma harvest_all_keyed subjects m m' : harvest_all subjects m = Ok m' → keyed m → keyed m'.
Proof.
  revert m. induction subjects as [|config subjects IH]; intros m; cbn [harvest_all].
  - by intros [= <-].
  - destruct (harvest_subject _ _ _ _) as [subject_assets|]; [|done]. rewrite bind_Ok.
    destruct (reconcile subject_assets m) as [m1|] eqn:E; [|done]. rewrite bind_Ok.
    intros Hrest Hm. apply (IH m1 Hrest). by apply (reconcile_keyed subject_assets m).
Qed.

Lemma main_eq w :
  main w = (harvest_all SUBJECT_SOURCES ∅ ≫= λ m, complete_and_fetch m w).
Proof. reflexivity. Qed.

(** A run of [main] that returns: the harvest has returned a map, the
    final map is that map after the fallback search, the sort of its values
    has returned, and manifest and world are those of the fetch loop. *)
Lemma main_Ok w filled manifest w' :
  main w = Ok (filled, manifest, w') →
  ∃ m sorted_assets,
    harvest_all SUBJECT_SOURCES ∅ = Ok m ∧ filled = fill_gaps m
    ∧ sorted (values filled) = Ok sorted_assets
    ∧ fetch_all sorted_assets [] w = (manifest, w').
Proof.
  intros Hmain. rewrite main_eq in Hmain.
  destruct (harvest_all SUBJECT_SOURCES ∅) as [m|e] eqn:E; [|discriminate Hmain].
  rewrite bind_Ok in Hmain.
  apply complete_and_fetch_Ok in Hmain as (-> & sorted_assets & Hsorted & Hfetch).
  by exists m, sorted_assets.
Qed.

(** When [main] returns, the final map has its entries under their own
    keys and the manifest holds entries of the final map only. *)
Lemma main_manifest w filled manifest w' :
  main w = Ok (filled, manifest, w') →
  keyed filled
  ∧ ∀ a, a ∈ manifest → ∃ key, filled !! key = Some a ∧ asset_key a = Some key.
Proof.
  intros (m & sorted_assets & E & -> & Hsorted & Hfetch)%main_Ok.
  assert (keyed (fill_gaps m)) as Hkeyed.
  { apply fill_gaps_keyed. apply (harvest_all_keyed _ _ _ E).
    intros key a Ha. by rewrite lookup_empty in Ha. }
  split; [exact Hkeyed|]. intros a Ha.
  assert (a ∈ (fetch_all sorted_assets [] w).1) as Ha' by (by rewrite Hfetch).
  apply fetch_all_subset in Ha' as [Ha' | Ha']; [by apply elem_of_nil in Ha'|].
  apply (sorted_elem a _ _ Hsorted), values_elem in Ha' as [key Ha']. exists key.
  split; [exact Ha'|]. by apply Hkeyed.
Qed.

End MainFacts.

(** A run of [main] on the example network: the exam link and the
    correction link of the Math page are harvested, the twelve 2009 files
    are found by the fallback search, and all fourteen are downloaded. *)
Example main_demo :
  match main (U := demo_urllib) (N := demo_web) demo_world with
  | Ok (filled, manifest, w) =>
      (size filled, length manifest, length (requests w), size (files w))
  | Raise _ => (0, 0, 0, 0)
  end = (14, 14, 14, 14).
Proof. vm_compute. reflexivity. Qed.

(* ===================================================================== *)
(** * Further properties *)
(* ===================================================================== *)

(** ** Reconciliation, for any number of candidates *)

Section ReconcileBest.
Context {Uc : PyStr.Unicode} {U : Urllib}.
Implicit Types m : gmap Key ExamAsset.
Implicit Types l : list ExamAsset.

Lemma reconcile_snoc l x m :
  reconcile (l ++ [x]) m = (reconcile l m ≫= λ m', reconcile_asset m' x).
Proof.
  rewrite reconcile_app. destruct (reconcile l m) as [m'|e]; [|done].
  rewrite !bind_Ok. cbn [reconcile]. by destruct (reconcile_asset m' x).
Qed.

Lemma asset_rank_host a host : asset_host a = Ok host → asset_rank a = host_rank host.
Proof. intros H. unfold asset_rank. by rewrite H. Qed.

(** A best candidate of a list stays the best when an asset of another
    key, or of no key, is added at the end. *)
Lemma best_candidate_snoc_other l key i a x :
  asset_key x ≠ Some key → best_candidate l key i a → best_candidate (l ++ [x]) key i a.
Proof.
  intros Hx (Hi & Hk & Hbest). split_and!; [|done|].
  - by apply lookup_app_l_Some.
  - intros j b Hj Hb. apply lookup_snoc_Some in Hj as [[_ Hj] | [_ <-]]; [|done].
    by apply Hbest.
Qed.

Lemma no_candidate_snoc_other l key x :
  asset_key x ≠ Some key → (∀ b, b ∈ l → asset_key b ≠ Some key) →
  ∀ b, b ∈ l ++ [x] → asset_key b ≠ Some key.
Proof.
  intros Hx Hl b [Hb | Hb]%elem_of_app; [by apply Hl|].
  by apply list_elem_of_singleton in Hb as ->.
Qed.

(** X1. For any sequence of candidates whose URLs parse, reconciliation
    returns a map that holds, under every key, the best candidate of the
    key in the sequence: one of minimal host rank, and the first of these;
    a key is absent exactly when no candidate has it. *)
Theorem reconcile_best l :
  Forall url_parses l →
  ∃ m, reconcile l ∅ = Ok m
    ∧ ∀ key, match m !! key with
             | Some a => ∃ i, best_candidate l key i a
             | None => ∀ b, b ∈ l → asset_key b ≠ Some key
             end.
Proof.
  induction l as [|x l IH] using rev_ind; intros Hl.
  - exists ∅. split; [done|]. intros key. rewrite lookup_empty.
    intros b Hb. by apply elem_of_nil in Hb.
  - apply Forall_app in Hl as [Hl Hpx]. rewrite Forall_singleton in Hpx.
    destruct (IH Hl) as (m & Hm & Hinv). rewrite reconcile_snoc, Hm, bind_Ok.
    destruct (asset_key x) as [k|] eqn:Hk.
    + (* the invariant for the keys other than that of [x] *)
      assert (∀ m', (∀ key, key ≠ k → m' !! key = m !! key) →
                ∀ key, key ≠ k →
                  match m' !! key with
                  | Some a => ∃ i, best_candidate (l ++ [x]) key i a
                  | None => ∀ b, b ∈ l ++ [x] → asset_key b ≠ Some key
                  end) as Hothers.
      { intros m' Hm' key Hne. rewrite (Hm' key Hne).
        assert (asset_key x ≠ Some key) as Hxk by (rewrite Hk; congruence).
        specialize (Hinv key). destruct (m !! key) as [a|].
        - destruct Hinv as [i Hi]. exists i. by apply best_candidate_snoc_other.
        - by apply no_candidate_snoc_other. }
      (* [x] taking the key *)
      assert ((∀ j b, l !! j = Some b → asset_key b = Some k →
                      asset_rank x < asset_rank b) →
              ∀ key, match <[k := x]> m !! key with
                     | Some a => ∃ i, best_candidate (l ++ [x]) key i a
                     | None => ∀ b, b ∈ l ++ [x] → asset_key b ≠ Some key
                     end) as Htake.
      { intros Hless key. destruct (decide (key = k)) as [-> | Hne].
        - rewrite lookup_insert_eq. exists (length l). split_and!; [|done|].
          + apply lookup_snoc_Some. by right.
          + intros j b Hj Hb. apply lookup_snoc_Some in Hj as [[_ Hj] | [-> <-]].
            * left. by apply (Hless j).
            * right. lia.
        - apply Hothers; [|done]. intros key' Hne'. by rewrite lookup_insert_ne. }
      pose proof (Hinv k) as Hinvk.
      destruct (m !! k) as [e|] eqn:He.
      * destruct Hinvk as (i & Hi & Hke & Hbest).
        assert (url_parses e) as Hpe.
        { eapply Forall_forall; [exact Hl|]. by eapply list_elem_of_lookup_2. }
        destruct (url_parses_host _ Hpx) as [hx Hhx].
        destruct (url_parses_host _ Hpe) as [he Hhe].
        rewrite (reconcile_asset_conflict m x k e hx he Hk He Hhx Hhe).
        rewrite <- (asset_rank_host _ _ Hhx), <- (asset_rank_host _ _ Hhe).
        eexists. split; [done|].
        destruct (asset_rank x <? asset_rank e) eqn:Hcmp.
        -- apply Nat.ltb_lt in Hcmp. apply Htake. intros j b Hj Hb.
           destruct (Hbest j b Hj Hb) as [? | [? _]]; lia.
        -- apply Nat.ltb_ge in Hcmp. intros key.
           destruct (decide (key = k)) as [-> | Hne]; [|by apply Hothers].
           rewrite He. exists i. split_and!; [by apply lookup_app_l_Some | done |].
           intros j b Hj Hb. apply lookup_snoc_Some in Hj as [[_ Hj] | [-> <-]].
           ++ by apply Hbest.
           ++ apply lookup_lt_Some in Hi.
              destruct (decide (asset_rank e = asset_rank x)); [right | left]; lia.
      * rewrite (reconcile_asset_claim m x k Hk He). eexists. split; [done|].
        apply Htake. intros j b Hj Hb. exfalso.
        apply (Hinvk b); [by eapply list_elem_of_lookup_2 | done].
    + rewrite reconcile_asset_skip by done. exists m. split; [done|]. intros key.
      assert (asset_key x ≠ Some key) as Hxk by (rewrite Hk; congruence).
      specialize (Hinv key). destruct (m !! key) as [a|].
      * destruct Hinv as [i Hi]. exists i. by apply best_candidate_snoc_other.
      * by apply no_candidate_snoc_other.
Qed.

(** X2. A candidate without canonical key (no year, no session, or a
    year, session or type outside the targets) is ignored by the
    reconciliation: the result is that of the sequence without it, whatever
    the map at the start, and also when its URL is one that [urlparse]
    rejects. *)
Theorem reconcile_ignores_keyless l1 l2 (a : ExamAsset) m :
  asset_key a = None →
  reconcile (l1 ++ a :: l2) m = reconcile (l1 ++ l2) m.
Proof.
  intros Ha. rewrite !reconcile_app. destruct (reconcile l1 m) as [m'|e]; [|done].
  rewrite !bind_Ok. cbn [reconcile]. by rewrite (reconcile_asset_skip m' a Ha), bind_Ok.
Qed.

End ReconcileBest.

Lemma reconcile_best_witness :
  ∃ m, reconcile (U := demo_urllib)
         [demo_math_other; demo_pc_other; demo_math_telmid; demo_math_other] ∅ = Ok m
    ∧ ∀ key, match m !! key with
             | Some a => ∃ i, best_candidate (U := demo_urllib)
                                [demo_math_other; demo_pc_other; demo_math_telmid;
                                 demo_math_other] key i a
             | None => ∀ b, b ∈ [demo_math_other; demo_pc_other; demo_math_telmid;
                                 demo_math_other] → asset_key b ≠ Some key
             end.
Proof.
  apply (reconcile_best (U := demo_urllib)).
  repeat constructor; eexists; vm_compute; reflexivity.
Defined.

Lemma reconcile_ignores_keyless_witness :
  reconcile (U := demo_urllib) ([demo_math_other] ++ demo_keyless :: [demo_math_telmid]) ∅
  = reconcile (U := demo_urllib) ([demo_math_other] ++ [demo_math_telmid]) ∅.
Proof.
  apply (reconcile_ignores_keyless (U := demo_urllib)). reflexivity.
Defined.


(** ** The fallback search *)

Section SynthesizerMore.
Context {Uc : PyStr.Unicode} {U : Urllib} {N : Web}.
Implicit Types m : gmap Key ExamAsset.

Lemma type_label_target t label :
  dict_get TYPE_LABELS t = Some label → inb t TARGET_ASSET_TYPES = true.
Proof.
  unfold TYPE_LABELS. cbn [dict_get]. intros H. apply bool_decide_eq_true_2.
  repeat case_decide; subst; [| |done].
  - apply list_elem_of_here.
  - apply list_elem_of_further, list_elem_of_here.
Qed.

Lemma session_label_same s : default s (dict_get SESSION_LABELS s) = s.
Proof. unfold SESSION_LABELS. cbn [dict_get]. by repeat case_decide; subst. Qed.

(** X3. The asset that [build_telmid_asset] returns for a subject, a
    year, a session and a type (the probe having succeeded) has exactly
    that canonical key, for every year and every target session; for a
    session outside the targets it has no canonical key. *)
Theorem build_telmid_asset_key code label folder (y : Z) s t (a : ExamAsset) :
  build_telmid_asset code label folder y s t = Some a →
  asset_key a = if inb s TARGET_SESSIONS then Some (code, y, s, t) else None.
Proof.
  intros Hb.
  pose proof (build_telmid_asset_spec code label folder y s t) as Hspec.
  rewrite Hb in Hspec. destruct Hspec as (url & Hurl & _ & _ & Hc & Hy & Hs & Ht).
  assert (inb t TARGET_ASSET_TYPES = true) as Htarget.
  { unfold fallback_url in Hurl.
    destruct (dict_get TELMID_PATTERNS code); cbn [mbind option_bind] in Hurl; [|done].
    destruct (dict_get TYPE_LABELS t) as [tl|] eqn:E; [|done].
    by apply (type_label_target t tl). }
  unfold asset_key. rewrite Hy, Hs, int_str, session_label_same, Hc, Ht, Htarget.
  by destruct (inb s TARGET_SESSIONS).
Qed.

Lemma fill_gaps_keeps_harvested_aux m key (a : ExamAsset) :
  m !! key = Some a → fill_gaps m !! key = Some a.
Proof.
  intros Ha. rewrite fill_gaps_eq.
  by apply (proj1 (fill_gaps_from m expected_entries)).
Qed.

(** X4. The fallback search never replaces an entry: every asset of the
    reconciled map is in the map after the search, which is the final map
    of the run, under the same key. *)
Theorem fill_gaps_keeps_harvested m key (a : ExamAsset) :
  m !! key = Some a →
  fill_gaps m !! key = Some a
  ∧ ∀ w filled manifest w',
      complete_and_fetch m w = Ok (filled, manifest, w') → filled !! key = Some a.
Proof.
  intros Ha. split; [by apply fill_gaps_keeps_harvested_aux|].
  intros w filled manifest w' (-> & _)%complete_and_fetch_Ok.
  by apply fill_gaps_keeps_harvested_aux.
Qed.

(** After the search over a list of entries, the key of each entry is
    present or its probe failed. *)
Lemma fill_gaps_tried m es e :
  e ∈ es →
  is_Some (foldl fill_gap m es !! entry_key e)
  ∨ ∀ url, fallback_url (entry_key e) = Some url → probe_ok url = false.
Proof.
  revert m. induction es as [|e' es IH]; intros m He; [by apply elem_of_nil in He|].
  cbn [foldl]. apply elem_of_cons in He as [<- | He]; [|by apply IH].
  destruct (m !! entry_key e) as [a|] eqn:Hm.
  - left. exists a. apply (proj1 (fill_gaps_from _ es)).
    by rewrite (fill_gap_present m e a).
  - destruct (fill_gap_step m e Hm) as [[Hfail _] | (url & a & _ & _ & _ & Heq & _)];
      [by right | left].
    exists a. apply (proj1 (fill_gaps_from _ es)). rewrite Heq. apply lookup_insert_eq.
Qed.

(** X5. The keys reported as missing after the fallback search are
    exactly the expected keys that were absent from the reconciled map and
    whose probe did not answer 200. *)
Theorem missing_keys_spec m key :
  key ∈ missing_keys (fill_gaps m) ↔
  key ∈ entry_key <$> expected_entries
  ∧ m !! key = None
  ∧ ∀ url, fallback_url key = Some url → http_head url ≠ HeadStatus 200.
Proof.
  unfold missing_keys. rewrite list_elem_of_filter. split.
  - intros [Hnone Hexp]. split; [done|].
    assert (m !! key = None) as Hm.
    { destruct (m !! key) as [a|] eqn:E; [|done].
      by rewrite (fill_gaps_keeps_harvested_aux m key a E) in Hnone. }
    split; [done|]. intros url Hurl Hhead.
    apply list_elem_of_fmap in Hexp as (e & -> & He).
    destruct (fill_gaps_tried m expected_entries e He) as [[a Ha] | Hfail].
    + rewrite <- fill_gaps_eq in Ha. congruence.
    + apply probe_ok_spec in Hhead. rewrite (Hfail url Hurl) in Hhead. done.
  - intros (Hexp & Hm & Hfail). split; [|done].
    destruct (fill_gaps m !! key) as [a|] eqn:Ha; [|done].
    destruct (fill_gaps_lookup m key a Ha) as [H | (url & Hurl & Hok & _)];
      [congruence|].
    apply probe_ok_spec in Hok. by destruct (Hfail url Hurl).
Qed.

End SynthesizerMore.

Lemma build_telmid_asset_key_witness :
  asset_key demo_fallback = Some (lit "SVT", 2009%Z, lit "Rattrapage", lit "Correction").
Proof.
  apply (build_telmid_asset_key (U := demo_urllib) (N := demo_web) (lit "SVT")
           (lit "Sciences de la Vie et de la Terre (SVT)") [lit "root"; lit "SVT"]
           2009 (lit "Rattrapage") (lit "Correction") demo_fallback).
  vm_compute. reflexivity.
Defined.

Lemma fill_gaps_keeps_harvested_witness :
  fill_gaps (U := demo_urllib) (N := demo_web) {[ demo_math_key := demo_math_other ]}
    !! demo_math_key = Some demo_math_other.
Proof.
  refine (proj1 (fill_gaps_keeps_harvested (U := demo_urllib) (N := demo_web)
                   {[ demo_math_key := demo_math_other ]} demo_math_key demo_math_other _)).
  apply lookup_singleton_eq.
Defined.

Lemma missing_keys_spec_witness :
  (lit "Math", 2010%Z, lit "Normale", lit "MainExam")
    ∈ missing_keys (N := demo_web) (fill_gaps (U := demo_urllib) (N := demo_web) ∅).
Proof.
  apply (missing_keys_spec (U := demo_urllib) (N := demo_web)). split_and!.
  - apply (bool_decide_unpack _). vm_compute. exact I.
  - apply lookup_empty.
  - intros url Hurl. vm_compute in Hurl. injection Hurl as <-. vm_compute. discriminate.
Defined.

(** ** The session classifier *)

Section SessionFacts.
Context {Uc : PyStr.Unicode}.

Lemma existsb_has_keyword (keywords : list text) (t : text) :
  existsb (λ keyword, PyStr.contains keyword (PyStr.lower t)) keywords = true
  ↔ Exists (λ keyword, has_keyword keyword t) keywords.
Proof.
  rewrite existsb_exists, Exists_exists. split.
  - intros (kw & Hin & H). exists kw. split; [by apply list_elem_of_In|].
    by apply contains_has_keyword.
  - intros (kw & Hin & H). exists kw. split; [by apply list_elem_of_In|].
    by apply contains_has_keyword.
Qed.

Lemma existsb_no_keyword (keywords : list text) (t : text) :
  Forall (λ keyword, ¬ has_keyword keyword t) keywords →
  existsb (λ keyword, PyStr.contains keyword (PyStr.lower t)) keywords = false.
Proof.
  intros Hno. destruct (existsb _ _) eqn:E; [|done].
  apply existsb_has_keyword, Exists_exists in E as (kw & Hin & H).
  by eapply Forall_forall in Hno.
Qed.

(** X6. The session of a display text is Normale as soon as the text has
    one of the keywords of the first row ("normale", "normal",
    "principale", "main", "regular") as a substring, also when it has a
    keyword of the second row; it is Rattrapage when it has none of the
    first row and one of "rattrap", "retake", "extraordinaire"; it is absent
    when it has none of the eight. *)
Theorem identify_session_priority (t : text) :
  (Exists (λ keyword, has_keyword keyword t) normale_keywords →
   identify_session t = Some (lit "Normale"))
  ∧ (Forall (λ keyword, ¬ has_keyword keyword t) normale_keywords →
     Exists (λ keyword, has_keyword keyword t) rattrapage_keywords →
     identify_session t = Some (lit "Rattrapage"))
  ∧ (Forall (λ keyword, ¬ has_keyword keyword t) normale_keywords →
     Forall (λ keyword, ¬ has_keyword keyword t) rattrapage_keywords →
     identify_session t = None).
Proof.
  unfold identify_session, SESSION_KEYWORDS. cbn [first_keyword_label].
  fold normale_keywords rattrapage_keywords. split_and!.
  - intros H%existsb_has_keyword. by rewrite H.
  - intros Hn%existsb_no_keyword Hr%existsb_has_keyword. by rewrite Hn, Hr.
  - intros Hn%existsb_no_keyword Hr%existsb_no_keyword. by rewrite Hn, Hr.
Qed.

(** The session, when there is one, is a target session. *)
Lemma identify_session_target (t s : text) :
  identify_session t = Some s → s = lit "Normale" ∨ s = lit "Rattrapage".
Proof.
  unfold identify_session, SESSION_KEYWORDS. cbn [first_keyword_label].
  destruct (existsb _ _); [intros [= <-]; by left|].
  destruct (existsb _ _); [intros [= <-]; by right | done].
Qed.

End SessionFacts.

Lemma identify_session_priority_witness :
  identify_session (lit "Examen du domaine 3 - session de rattrapage")
  = Some (lit "Normale").
Proof.
  apply (proj1 (identify_session_priority _)).
  apply Exists_cons_tl, Exists_cons_tl, Exists_cons_tl, Exists_cons_hd.
  exists (lit "examen du do"), (lit "e 3 - session de rattrapage"). reflexivity.
Defined.

(** The case is folded as [str.lower] folds it: the Kelvin sign becomes
    the letter k, so a title written with it has the keyword "retake". *)
Example identify_session_kelvin :
  identify_session (lit "RETAKE 2020") = Some (lit "Rattrapage")
  ∧ identify_session (lit "RETA-E 2020") = None.
Proof. split; vm_compute; reflexivity. Qed.

(** ** Harvesting the pages of a subject *)

Section HarvestFacts.
Context {Uc : PyStr.Unicode} {U : Urllib} {N : Web}.

Lemma harvest_subject_app code label folder (pages1 pages2 : list text) :
  harvest_subject code label folder (pages1 ++ pages2) =
  (assets1 ← harvest_subject code label folder pages1;
   assets2 ← harvest_subject code label folder pages2;
   Ok (assets1 ++ assets2)).
Proof.
  induction pages1 as [|page pages1 IH]; cbn [app harvest_subject].
  - rewrite bind_Ok. by destruct (harvest_subject code label folder pages2).
  - destruct (harvest_page code label folder page) as [new|e]; [|done].
    rewrite !bind_Ok, IH.
    destruct (harvest_subject code label folder pages1) as [a1|e]; [|done].
    rewrite !bind_Ok.
    destruct (harvest_subject code label folder pages2) as [a2|e]; [|done].
    rewrite !bind_Ok. by rewrite app_assoc.
Qed.

(** X7. A page whose fetch fails (a [RequestException], or an error
    status) contributes nothing and stops nothing: the harvest of the
    subject is that of the other pages, in their order. *)
Theorem harvest_subject_skips_failed_page code label folder
    (before after : list text) (page_url : text) :
  fetch_page page_url = PageRaises →
  harvest_subject code label folder (before ++ page_url :: after) =
  harvest_subject code label folder (before ++ after).
Proof.
  intros Hfail. rewrite !harvest_subject_app.
  destruct (harvest_subject code label folder before) as [a1|e]; [|done].
  rewrite !bind_Ok. cbn [harvest_subject]. unfold harvest_page at 1.
  rewrite Hfail. cbn iota. rewrite bind_Ok.
  destruct (harvest_subject code label folder after) as [a2|e]; [|done].
  by rewrite !bind_Ok.
Qed.

End HarvestFacts.

Lemma harvest_subject_skips_failed_page_witness :
  harvest_subject (U := demo_urllib) (N := demo_web) (lit "Math") (lit "Mathématiques")
    [lit "root"; lit "Math"]
    ([lit "https://telmidtice.com/2bac-pc-mathematiques-examens-nationaux/"]
       ++ lit "https://www.taalime.ma/unreachable/" :: [])
  = harvest_subject (U := demo_urllib) (N := demo_web) (lit "Math") (lit "Mathématiques")
      [lit "root"; lit "Math"]
      ([lit "https://telmidtice.com/2bac-pc-mathematiques-examens-nationaux/"] ++ []).
Proof.
  apply (harvest_subject_skips_failed_page (U := demo_urllib) (N := demo_web)).
  vm_compute. reflexivity.
Defined.

(** ** What the extractor returns *)

Section ExtractedFacts.
Context {Uc : PyStr.Unicode} {U : Urllib}.

Lemma EXAM_YEAR_RE_search_token (s y : text) :
  EXAM_YEAR_RE_search s = Some y → is_year_token y.
Proof.
  induction s as [|c s IH]; cbn [EXAM_YEAR_RE_search].
  - destruct (EXAM_YEAR_RE_match []) eqn:E; [|done].
    intros [= <-]. by apply EXAM_YEAR_RE_match_Some in E as [? _].
  - destruct (EXAM_YEAR_RE_match (c :: s)) eqn:E; [|done].
    intros [= <-]. by apply EXAM_YEAR_RE_match_Some in E as [? _].
Qed.

(** A year token reads as an integer from 1900 to 2099, whatever the
    script of its last two digits. *)
Lemma year_token_int (y : text) :
  is_year_token y → ∃ n, PyStr.int y = Some n ∧ (1900 ≤ n ≤ 2099)%Z.
Proof.
  intros (c & d & [vc Hc] & [vd Hd] & Hy).
  pose proof (PyStr.decimal_range c vc Hc) as Hvc.
  pose proof (PyStr.decimal_range d vd Hd) as Hvd.
  destruct (to_ascii_decimal c vc Hc) as [Hdc Hc'].
  destruct (to_ascii_decimal d vd Hd) as [Hdd Hd'].
  assert (∀ a b : char, PyStr.is_digit a = true → PyStr.is_digit b = true →
            PyStr.int [a; b; c; d]
            = Some (10 * (10 * (10 * PyStr.digit_val a + PyStr.digit_val b) + vc) + vd)%Z)
    as Hint.
  { intros a b Ha Hb. unfold PyStr.int. cbn [map].
    rewrite (to_ascii_digit a Ha), (to_ascii_digit b Hb).
    rewrite int_ascii_digits by (by repeat constructor).
    cbn [digits_value fold_left]. rewrite Hc', Hd'. f_equal; lia. }
  destruct Hy as [-> | ->].
  - eexists. split; [by apply Hint|]. change (PyStr.digit_val (chr "2")) with 2%Z.
    change (PyStr.digit_val (chr "0")) with 0%Z. lia.
  - eexists. split; [by apply Hint|]. change (PyStr.digit_val (chr "1")) with 1%Z.
    change (PyStr.digit_val (chr "9")) with 9%Z. lia.
Qed.

Lemma identify_asset_type_target (t ty : text) :
  identify_asset_type t = Some ty → inb ty TARGET_ASSET_TYPES = true.
Proof.
  unfold identify_asset_type. destruct (PyStr.contains _ _); [by intros [= <-]|].
  destruct (_ || _); [by intros [= <-] | done].
Qed.

Lemma extracted_mono anchors anchors' page_url code label folder a :
  (∀ anchor, anchor ∈ anchors → anchor ∈ anchors') →
  extracted anchors page_url code label folder a →
  extracted anchors' page_url code label folder a.
Proof.
  intros Hsub ((anchor & h & Hin & Hrest) & Hfields). split; [|done].
  exists anchor, h. split; [by apply Hsub | done].
Qed.

Local Ltac unchanged H := left; injection H as <- <-; done.

(** One anchor: the state is unchanged, or one asset that was not seen
    before is added. *)
Lemma parse_anchor_step page_url code label folder anchor assets seen assets' seen' :
  parse_anchor page_url code label folder anchor (assets, seen) = Ok (assets', seen') →
  (assets' = assets ∧ seen' = seen)
  ∨ ∃ a, assets' = assets ++ [a] ∧ seen' = {[ (url_key a) ]} ∪ seen ∧ (url_key a ∉ seen)
         ∧ extracted [anchor] page_url code label folder a.
Proof.
  unfold parse_anchor. intros Hrun.
  destruct (href anchor) as [h|] eqn:Hh; [|unchanged Hrun].
  destruct (PyStr.is_nil h); [unchanged Hrun|].
  destruct (normalize_pdf_url h page_url) as [pdf|] eqn:Hnorm; [|done].
  rewrite bind_Ok in Hrun.
  destruct (PyStr.is_nil pdf) eqn:Hpdf; [unchanged Hrun|].
  destruct (urlparse pdf) as [parsed|] eqn:Hparse; [|done]. rewrite bind_Ok in Hrun.
  destruct (negb (PyStr.endswith (PyStr.lower pdf) (lit ".pdf"))
            && negb (inb (netloc parsed) GOOGLE_HOSTS)) eqn:Hkind;
    [unchanged Hrun|].
  destruct (PyStr.is_nil (get_text anchor)) eqn:Htitle; [unchanged Hrun|].
  destruct (PyStr.contains (lit "préparation") (PyStr.lower (get_text anchor))
            || PyStr.contains (lit "preparation") (PyStr.lower (get_text anchor)))
    eqn:Hprep; [unchanged Hrun|].
  destruct (identify_asset_type (get_text anchor)) as [ty|] eqn:Hty;
    [|unchanged Hrun].
  destruct (bool_decide (PyStr.strip PyStr.isspace pdf ∈ seen)) eqn:Hseen;
    [unchanged Hrun|].
  injection Hrun as <- <-. right. eexists. split; [done|]. split; [done|].
  apply bool_decide_eq_false in Hseen. split; [done|].
  apply orb_false_iff in Hprep as [Hp1 Hp2].
  unfold extracted. cbn [pdf_url source_title subject_code subject_label source_page
                          asset_type year session local_path].
  split_and!; try done.
  - exists anchor, h. split_and!; [apply list_elem_of_here | done..].
  - by destruct (get_text anchor).
  - by apply contains_no_keyword.
  - by apply contains_no_keyword.
  - apply andb_false_iff in Hkind as [Hk | Hk]; apply negb_false_iff in Hk.
    + left. by apply endswith_spec.
    + right. exists parsed. split; [done|]. by apply bool_decide_eq_true in Hk.
Qed.

(** The loop: what is added comes from the anchors, and the remembered
    URLs are those of the assets, each once. *)
Lemma parse_anchors_inv page_url code label folder anchors st st' :
  parse_anchors page_url code label folder anchors st = Ok st' →
  NoDup (url_key <$> st.1) → (∀ u, u ∈ st.2 ↔ u ∈ url_key <$> st.1) →
  NoDup (url_key <$> st'.1) ∧ (∀ u, u ∈ st'.2 ↔ u ∈ url_key <$> st'.1)
  ∧ ∃ new, st'.1 = st.1 ++ new
           ∧ Forall (extracted anchors page_url code label folder) new.
Proof.
  revert st. induction anchors as [|anchor anchors IH]; intros st; cbn [parse_anchors].
  - intros [= <-] Hnd Hseen. split_and!; [done..|]. exists []. by rewrite app_nil_r.
  - destruct (parse_anchor page_url code label folder anchor st) as [st1|] eqn:E; [|done].
    rewrite bind_Ok. intros Hrest Hnd Hseen.
    destruct st as [assets seen], st1 as [assets1 seen1]. cbn [fst snd] in *.
    apply parse_anchor_step in E as [[-> ->] | (a & -> & -> & Hfresh & Hext)].
    + destruct (IH _ Hrest Hnd Hseen) as (Hnd' & Hseen' & new & Hnew & Hall).
      split_and!; [done..|]. exists new. split; [done|].
      eapply Forall_impl; [exact Hall|]. intros a. apply extracted_mono.
      intros ? ?. by apply list_elem_of_further.
    + destruct (IH (assets ++ [a], {[ (url_key a) ]} ∪ seen) Hrest)
        as (Hnd' & Hseen' & new & Hnew & Hall); cbn [fst snd] in *.
      * rewrite fmap_app. apply NoDup_app. split_and!; [done| |apply NoDup_singleton].
        intros u Hu ->%list_elem_of_singleton. by apply Hfresh, Hseen.
      * intros u. rewrite fmap_app, elem_of_app, elem_of_union, elem_of_singleton, Hseen.
        cbn [fmap list_fmap]. rewrite list_elem_of_singleton. tauto.
      * split_and!; [done..|]. exists (a :: new). split; [by rewrite Hnew, <- app_assoc|].
        constructor.
        -- eapply extracted_mono; [|exact Hext].
           intros ? ->%list_elem_of_singleton. apply list_elem_of_here.
        -- eapply Forall_impl; [exact Hall|]. intros a'. apply extracted_mono.
           intros ? ?. by apply list_elem_of_further.
Qed.

Lemma parse_exam_links_inv anchors page_url code label folder l :
  parse_exam_links anchors page_url code label folder = Ok l →
  NoDup (url_key <$> l) ∧ Forall (extracted anchors page_url code label folder) l.
Proof.
  unfold parse_exam_links.
  destruct (parse_anchors _ _ _ _ anchors ([], ∅)) as [st|] eqn:E; [|done].
  rewrite bind_Ok. intros [= <-].
  destruct (parse_anchors_inv _ _ _ _ _ _ _ E) as (Hnd & _ & new & Hnew & Hall).
  - constructor.
  - intros u. cbn [fst snd fmap list_fmap]. rewrite elem_of_nil. set_solver.
  - split; [done|]. by rewrite Hnew.
Qed.

(** X8. Every asset that [parse_exam_links] returns comes from an anchor
    of the page whose href normalizes to its URL and whose text is its
    title; the title is not empty and has neither "préparation" nor
    "preparation"; type, year and session are those the classifiers give
    for the title, the type being present; the URL ends with ".pdf" or is
    on drive.google.com or docs.google.com; subject, label and page are
    those of the call and the destination is the sanitized name in the
    folder. *)
Theorem parse_exam_links_extracted anchors page_url code label folder l :
  parse_exam_links anchors page_url code label folder = Ok l →
  Forall (extracted anchors page_url code label folder) l.
Proof. intros H. by apply parse_exam_links_inv in H as [_ ?]. Qed.

(** X9. No two assets that [parse_exam_links] returns for a page have
    the same URL, white space at the ends apart: a URL linked several
    times gives one candidate, the first. *)
Theorem parse_exam_links_no_duplicate_url anchors page_url code label folder l :
  parse_exam_links anchors page_url code label folder = Ok l →
  NoDup (url_key <$> l).
Proof. intros H. by apply parse_exam_links_inv in H as [? _]. Qed.

(** X10. An asset that [parse_exam_links] returns has a canonical key
    exactly when its title gave a year and a session; the key then has the
    subject of the call, a year from 1900 to 2099, that session and the
    type of the asset. *)
Theorem parse_exam_links_asset_key anchors page_url code label folder l (a : ExamAsset) :
  parse_exam_links anchors page_url code label folder = Ok l → a ∈ l →
  match year a, session a with
  | Some _, Some s =>
      ∃ n, (1900 ≤ n ≤ 2099)%Z ∧ asset_key a = Some (code, n, s, asset_type a)
  | _, _ => asset_key a = None
  end.
Proof.
  intros Hrun Ha. apply parse_exam_links_inv in Hrun as [_ Hall].
  eapply Forall_forall in Hall; [|exact Ha].
  destruct Hall as (_ & Hcode & _ & _ & _ & _ & _ & Hty & Hyear & Hsession & _).
  unfold asset_key. destruct (year a) as [y|]; [|done].
  destruct (session a) as [s|]; [|done].
  symmetry in Hyear. apply EXAM_YEAR_RE_search_token, year_token_int in Hyear
    as (n & Hn & Hrange).
  symmetry in Hsession. apply identify_session_target in Hsession.
  apply identify_asset_type_target in Hty.
  exists n. split; [done|]. rewrite Hn, session_label_same, Hty, Hcode.
  by destruct Hsession as [-> | ->].
Qed.

End ExtractedFacts.

Lemma demo_extracted_run :
  parse_exam_links (U := demo_urllib) demo_page_anchors
    (lit "https://telmidtice.com/") (lit "Math") (lit "Mathématiques")
    [lit "root"; lit "Math"] = Ok demo_extracted.
Proof. vm_compute. reflexivity. Qed.

Lemma parse_exam_links_extracted_witness :
  Forall (extracted (U := demo_urllib) demo_page_anchors (lit "https://telmidtice.com/")
            (lit "Math") (lit "Mathématiques") [lit "root"; lit "Math"]) demo_extracted.
Proof.
  exact (parse_exam_links_extracted (U := demo_urllib) _ _ _ _ _ _ demo_extracted_run).
Defined.

Lemma parse_exam_links_no_duplicate_url_witness :
  length demo_extracted = 2 ∧ NoDup (url_key <$> demo_extracted).
Proof.
  split; [reflexivity|].
  exact (parse_exam_links_no_duplicate_url (U := demo_urllib) _ _ _ _ _ _
           demo_extracted_run).
Defined.

Lemma parse_exam_links_asset_key_witness :
  ∃ n, (1900 ≤ n ≤ 2099)%Z
       ∧ asset_key demo_math_telmid_extracted
         = Some (lit "Math", n, lit "Normale", lit "MainExam").
Proof.
  refine (parse_exam_links_asset_key (U := demo_urllib) _ _ _ _ _ _
            demo_math_telmid_extracted demo_extracted_run _).
  apply (bool_decide_unpack _). vm_compute. exact I.
Defined.

(** ** More on fetch and validate *)

Section FetchMore.
Context {Uc : PyStr.Unicode} {U : Urllib} {N : Web}.
Implicit Types w : World.
Implicit Types a : ExamAsset.

(** One download: the files that exist keep their content, a file that
    appears is at the destination of the asset, which is then accepted;
    the request log grows by at most the URL of the asset. *)
Lemma download_pdf_effect a w ok w' :
  download_pdf a w = (ok, w') →
  (∀ p c, files w !! p = Some c → files w' !! p = Some c)
  ∧ (∀ p, is_Some (files w' !! p) →
          is_Some (files w !! p) ∨ (ok = true ∧ p = local_path a))
  ∧ (requests w' = requests w ∨ requests w' = requests w ++ [pdf_url a]).
Proof.
  destruct (files w !! local_path a) as [c|] eqn:Hdest.
  - rewrite (download_pdf_existing a w c Hdest). intros [= <- <-]. split_and!; auto.
  - rewrite download_pdf_absent by done.
    assert (∀ b, (b, {| files := files w; requests := requests w ++ [pdf_url a] |})
                 = (ok, w') →
              (∀ p c, files w !! p = Some c → files w' !! p = Some c)
              ∧ (∀ p, is_Some (files w' !! p) →
                      is_Some (files w !! p) ∨ (ok = true ∧ p = local_path a))
              ∧ (requests w' = requests w ∨ requests w' = requests w ++ [pdf_url a]))
      as Hsame.
    { intros b [= <- <-]. cbn [files requests]. split_and!; auto. }
    destruct (http_get _ _) as [|r]; [apply Hsame|].
    destruct (is_error_status _); [apply Hsame|].
    destruct (content_end r); [|apply Hsame].
    destruct (looks_like_pdf _); [|apply Hsame].
    intros [= <- <-]. cbn [files requests]. split_and!; [| |by right].
    + intros p c Hp. rewrite lookup_insert_ne; [done | congruence].
    + intros p. rewrite lookup_insert. case_decide; [by right | by left].
Qed.

(** X11. A download that succeeds stores the whole body: when the
    destination is absent, the status is no error, the stream ends and the
    first non-empty chunk has the signature, [download_pdf] returns true,
    the file at the destination is the concatenation of the chunks, no
    other file changes and the URL is the one request made. *)
Theorem download_pdf_stores_body a w (r : Response) (chunk : bytes) :
  files w !! local_path a = None →
  http_get (length (requests w)) (pdf_url a) = GetResponse r →
  is_error_status (status_code r) = false →
  content_end r = StreamDone →
  first_chunk (content r) = Some chunk → has_pdf_signature chunk →
  download_pdf a w =
  (true, {| files := <[local_path a := concat (content r)]> (files w);
            requests := requests w ++ [pdf_url a] |}).
Proof.
  intros Hnone Hget Hstatus Hend Hchunk Hsig. rewrite download_pdf_absent by done.
  rewrite Hget, Hstatus, Hend.
  by rewrite (proj2 (looks_like_pdf_spec (content r))) by eauto.
Qed.

(** The loop, with what it adds to the manifest and to the request log. *)
Lemma fetch_all_effect l manifest w manifest' w' :
  fetch_all l manifest w = (manifest', w') →
  (∀ p c, files w !! p = Some c → files w' !! p = Some c)
  ∧ ∃ kept asked,
      manifest' = manifest ++ kept ∧ kept `sublist_of` l
      ∧ requests w' = requests w ++ asked ∧ asked `sublist_of` (pdf_url <$> l)
      ∧ (∀ p, is_Some (files w' !! p) →
              is_Some (files w !! p) ∨ ∃ a, a ∈ kept ∧ local_path a = p).
Proof.
  revert manifest w. induction l as [|x l IH]; intros manifest w; cbn [fetch_all].
  - intros [= <- <-]. split; [done|]. exists [], [].
    rewrite !app_nil_r. split_and!; [done..|]. intros p Hp. by left.
  - destruct (download_pdf x w) as [ok w1] eqn:Hd. intros Hrun.
    destruct (download_pdf_effect x w ok w1 Hd) as (Hkeep1 & Hnew1 & Hreq1).
    destruct (IH _ _ Hrun) as (Hkeep & kept & asked & -> & Hsub & Hreq & Hasked & Hnew).
    split; [by auto|].
    exists (if ok then x :: kept else kept),
           (if decide (requests w1 = requests w) then asked else pdf_url x :: asked).
    split_and!.
    + destruct ok; [by rewrite <- app_assoc | done].
    + destruct ok; [by apply sublist_skip | by apply sublist_cons].
    + rewrite Hreq. case_decide as Heq; [by rewrite Heq|].
      destruct Hreq1 as [? | ->]; [done | by rewrite <- app_assoc].
    + cbn [fmap list_fmap]. case_decide; [by apply sublist_cons | by apply sublist_skip].
    + intros p Hp. destruct (Hnew p Hp) as [H1 | (a & Ha & Hpa)].
      * destruct (Hnew1 p H1) as [? | [-> ->]]; [by left | right].
        exists x. split; [apply list_elem_of_here | done].
      * right. exists a. split; [|done]. destruct ok; [by apply list_elem_of_further | done].
Qed.

(** X12. The fetch loop never changes or removes a file that exists, and
    every file it leaves that was not there before is at the destination
    of an asset of the manifest. *)
Theorem fetch_all_storage l w manifest w' :
  fetch_all l [] w = (manifest, w') →
  (∀ p c, files w !! p = Some c → files w' !! p = Some c)
  ∧ (∀ p, is_Some (files w' !! p) →
          is_Some (files w !! p) ∨ ∃ a, a ∈ manifest ∧ local_path a = p).
Proof.
  intros Hrun.
  destruct (fetch_all_effect l [] w manifest w' Hrun)
    as (Hkeep & kept & asked & -> & _ & _ & _ & Hnew).
  split; [done|]. intros p Hp. by apply Hnew.
Qed.

(** X13. The manifest is made of assets of the sorted list, in the order
    of that list, each at most as often as in it, and the destination of
    each of them exists when the loop ends. *)
Theorem fetch_all_manifest l w manifest w' :
  fetch_all l [] w = (manifest, w') →
  manifest `sublist_of` l ∧ Forall (stored w') manifest.
Proof.
  intros Hrun.
  destruct (fetch_all_effect l [] w manifest w' Hrun)
    as (_ & kept & asked & -> & Hsub & _ & _ & _).
  split; [done|]. by apply (fetch_all_stored l [] w _ w' Hrun).
Qed.

(** X14. The loop issues at most one download per asset, in the order of
    the list and for URLs of the list only: the request log after it is
    the log before it followed by a subsequence of the URLs of the
    assets. *)
Theorem fetch_all_requests l manifest w manifest' w' :
  fetch_all l manifest w = (manifest', w') →
  ∃ asked, requests w' = requests w ++ asked ∧ asked `sublist_of` (pdf_url <$> l).
Proof.
  intros Hrun.
  destruct (fetch_all_effect l manifest w manifest' w' Hrun)
    as (_ & kept & asked & _ & _ & Hreq & Hasked & _).
  by exists asked.
Qed.

End FetchMore.

Lemma download_pdf_stores_body_witness :
  download_pdf (N := demo_web) demo_math_telmid demo_world =
  (true, {| files := <[local_path demo_math_telmid :=
                         concat [[]; lit "%PDF-1.4 "; lit "body"]]> (files demo_world);
            requests := requests demo_world ++ [pdf_url demo_math_telmid] |}).
Proof.
  apply (download_pdf_stores_body (N := demo_web) demo_math_telmid demo_world
           {| status_code := 200; content := [[]; lit "%PDF-1.4 "; lit "body"];
              content_end := StreamDone |} (lit "%PDF-1.4 ")).
  - reflexivity.
  - vm_compute. reflexivity.
  - reflexivity.
  - reflexivity.
  - vm_compute. reflexivity.
  - exists (lit "-1.4 "). vm_compute. reflexivity.
Defined.

Lemma fetch_all_storage_witness :
  let w := {| files := {[ local_path demo_pc_other := lit "anything" ]};
              requests := [] |} in
  let run := fetch_all (N := demo_web) [demo_math_telmid; demo_pc_other; demo_broken] [] w in
  (∀ p c, files w !! p = Some c → files run.2 !! p = Some c)
  ∧ (∀ p, is_Some (files run.2 !! p) →
          is_Some (files w !! p) ∨ ∃ a, a ∈ run.1 ∧ local_path a = p).
Proof.
  intros w run.
  apply (fetch_all_storage (N := demo_web)
           [demo_math_telmid; demo_pc_other; demo_broken] w run.1 run.2).
  apply surjective_pairing.
Defined.

Lemma fetch_all_manifest_witness :
  let run := fetch_all (N := demo_web) [demo_math_telmid; demo_pc_other; demo_broken] []
               demo_world in
  run.1 `sublist_of` [demo_math_telmid; demo_pc_other; demo_broken]
  ∧ Forall (stored run.2) run.1.
Proof.
  intros run.
  apply (fetch_all_manifest (N := demo_web)
           [demo_math_telmid; demo_pc_other; demo_broken] demo_world run.1 run.2).
  apply surjective_pairing.
Defined.

Lemma fetch_all_requests_witness :
  let w := {| files := {[ local_path demo_pc_other := lit "anything" ]};
              requests := [lit "https://example.org/earlier.pdf"] |} in
  let run := fetch_all (N := demo_web) [demo_math_telmid; demo_pc_other; demo_broken] [] w in
  ∃ asked, requests run.2 = requests w ++ asked
           ∧ asked `sublist_of` (pdf_url <$> [demo_math_telmid; demo_pc_other; demo_broken]).
Proof.
  intros w run.
  apply (fetch_all_requests (N := demo_web)
           [demo_math_telmid; demo_pc_other; demo_broken] [] w run.1 run.2).
  apply surjective_pairing.
Defined.

(** On the example network: of three assets, one is there already, one is
    fetched and one breaks off; two requests are made, the manifest has the
    first two and the storage tree two files. *)
Example fetch_all_demo :
  let w := {| files := {[ local_path demo_pc_other := lit "anything" ]};
              requests := [] |} in
  let run := fetch_all (N := demo_web) [demo_math_telmid; demo_pc_other; demo_broken] [] w in
  run.1 = [demo_math_telmid; demo_pc_other]
  ∧ requests run.2 = [pdf_url demo_math_telmid; pdf_url demo_broken]
  ∧ files run.2 !! local_path demo_pc_other = Some (lit "anything")
  ∧ files run.2 !! local_path demo_math_telmid = Some (lit "%PDF-1.4 body")
  ∧ files run.2 !! local_path demo_broken = None.
Proof. split_and!; vm_compute; reflexivity. Qed.

(** ** The order of the manifest *)

Section SortFacts.
Context {Uc : PyStr.Unicode}.
Implicit Types s t u : text.
Implicit Types k : SortKey.
Implicit Types item : SortKey * ExamAsset.
Implicit Types items : list (SortKey * ExamAsset).

Lemma leb_refl s : PyStr.leb s s = true.
Proof.
  induction s as [|c s IH]; cbn [PyStr.leb]; [done|].
  by rewrite N.ltb_irrefl.
Qed.

Lemma leb_total s t : PyStr.leb s t = false → PyStr.leb t s = true.
Proof.
  revert t. induction s as [|c s IH]; intros [|d t]; cbn [PyStr.leb]; try done.
  destruct (N.ltb_spec c d); [done|].
  destruct (N.ltb_spec d c); [done|]. apply IH.
Qed.

Lemma leb_antisym s t : PyStr.leb s t = true → PyStr.leb t s = true → s = t.
Proof.
  revert t. induction s as [|c s IH]; intros [|d t]; cbn [PyStr.leb]; try done.
  destruct (N.ltb_spec c d); destruct (N.ltb_spec d c); try done; try lia.
  intros H1 H2. f_equal; [lia | by apply IH].
Qed.

Lemma leb_trans s t u :
  PyStr.leb s t = true → PyStr.leb t u = true → PyStr.leb s u = true.
Proof.
  revert t u. induction s as [|c s IH]; intros [|d t] [|e u]; cbn [PyStr.leb]; try done.
  destruct (N.ltb_spec c d); destruct (N.ltb_spec d c);
    destruct (N.ltb_spec d e); destruct (N.ltb_spec e d);
    destruct (N.ltb_spec c e); destruct (N.ltb_spec e c);
    try done; try lia.
  apply IH.
Qed.

Lemma sort_key_leb_refl k : sort_key_leb k k = true.
Proof.
  destruct k as [[[[s y] o] t] n]. cbn [sort_key_leb].
  rewrite bool_decide_eq_true_2 by done. rewrite !Z.eqb_refl. cbn [negb].
  apply leb_refl.
Qed.

Lemma sort_key_leb_total k1 k2 : sort_key_leb k1 k2 = false → sort_key_leb k2 k1 = true.
Proof.
  destruct k1 as [[[[s1 y1] o1] t1] n1], k2 as [[[[s2 y2] o2] t2] n2].
  cbn [sort_key_leb].
  destruct (decide (s1 = s2)) as [->|Hs].
  2: { rewrite !bool_decide_eq_false_2 by congruence. cbn [negb]. apply leb_total. }
  rewrite !bool_decide_eq_true_2 by done. cbn [negb].
  destruct (Z.eqb_spec y1 y2) as [->|Hy].
  2: { rewrite (proj2 (Z.eqb_neq y2 y1)) by lia. cbn [negb]. lia. }
  rewrite Z.eqb_refl. cbn [negb].
  destruct (Z.eqb_spec o1 o2) as [->|Ho].
  2: { rewrite (proj2 (Z.eqb_neq o2 o1)) by lia. cbn [negb]. lia. }
  rewrite Z.eqb_refl. cbn [negb].
  destruct (Z.eqb_spec t1 t2) as [->|Ht].
  2: { rewrite (proj2 (Z.eqb_neq t2 t1)) by lia. cbn [negb]. lia. }
  rewrite Z.eqb_refl. cbn [negb]. apply leb_total.
Qed.

Lemma sort_key_leb_antisym k1 k2 :
  sort_key_leb k1 k2 = true → sort_key_leb k2 k1 = true → k1 = k2.
Proof.
  destruct k1 as [[[[s1 y1] o1] t1] n1], k2 as [[[[s2 y2] o2] t2] n2].
  cbn [sort_key_leb].
  destruct (decide (s1 = s2)) as [->|Hs].
  2: { rewrite !bool_decide_eq_false_2 by congruence. cbn [negb].
       intros H1 H2. by destruct Hs; apply leb_antisym. }
  rewrite !bool_decide_eq_true_2 by done. cbn [negb].
  destruct (Z.eqb_spec y1 y2) as [->|Hy].
  2: { rewrite (proj2 (Z.eqb_neq y2 y1)) by lia. cbn [negb]. lia. }
  rewrite Z.eqb_refl. cbn [negb].
  destruct (Z.eqb_spec o1 o2) as [->|Ho].
  2: { rewrite (proj2 (Z.eqb_neq o2 o1)) by lia. cbn [negb]. lia. }
  rewrite Z.eqb_refl. cbn [negb].
  destruct (Z.eqb_spec t1 t2) as [->|Ht].
  2: { rewrite (proj2 (Z.eqb_neq t2 t1)) by lia. cbn [negb]. lia. }
  rewrite Z.eqb_refl. cbn [negb]. intros H1 H2. by rewrite (leb_antisym n1 n2).
Qed.

Lemma sort_key_leb_trans k1 k2 k3 :
  sort_key_leb k1 k2 = true → sort_key_leb k2 k3 = true → sort_key_leb k1 k3 = true.
Proof.
  destruct k1 as [[[[s1 y1] o1] t1] n1], k2 as [[[[s2 y2] o2] t2] n2],
           k3 as [[[[s3 y3] o3] t3] n3].
  cbn [sort_key_leb].
  destruct (decide (s1 = s2)) as [->|Hs12].
  2: { rewrite (bool_decide_eq_false_2 (s1 = s2)) by done. cbn [negb]. intros H12.
       destruct (decide (s2 = s3)) as [->|Hs23].
       - rewrite (bool_decide_eq_false_2 (s1 = s3)) by done. done.
       - rewrite (bool_decide_eq_false_2 (s2 = s3)) by done. cbn [negb]. intros H23.
         destruct (decide (s1 = s3)) as [->|Hs13].
         + by destruct Hs12; apply leb_antisym.
         + rewrite (bool_decide_eq_false_2 (s1 = s3)) by done. cbn [negb].
           by apply (leb_trans s1 s2 s3). }
  rewrite (bool_decide_eq_true_2 (s2 = s2)) by done. cbn [negb].
  destruct (bool_decide (s2 = s3)); cbn [negb]; [|done].
  destruct (Z.eqb_spec y1 y2) as [->|Hy12]; cbn [negb].
  2: { destruct (Z.eqb_spec y2 y3) as [->|Hy23]; cbn [negb].
       - rewrite (proj2 (Z.eqb_neq y1 y3)) by lia. done.
       - destruct (Z.eqb_spec y1 y3); cbn [negb]; lia. }
  destruct (Z.eqb_spec y2 y3) as [->|Hy23]; cbn [negb]; [|done].
  destruct (Z.eqb_spec o1 o2) as [->|Ho12]; cbn [negb].
  2: { destruct (Z.eqb_spec o2 o3) as [->|Ho23]; cbn [negb].
       - rewrite (proj2 (Z.eqb_neq o1 o3)) by lia. done.
       - destruct (Z.eqb_spec o1 o3); cbn [negb]; lia. }
  destruct (Z.eqb_spec o2 o3) as [->|Ho23]; cbn [negb]; [|done].
  destruct (Z.eqb_spec t1 t2) as [->|Ht12]; cbn [negb].
  2: { destruct (Z.eqb_spec t2 t3) as [->|Ht23]; cbn [negb].
       - rewrite (proj2 (Z.eqb_neq t1 t3)) by lia. done.
       - destruct (Z.eqb_spec t1 t3); cbn [negb]; lia. }
  destruct (Z.eqb_spec t2 t3) as [->|Ht23]; cbn [negb]; [|done].
  apply leb_trans.
Qed.

Lemma insert_sorted_elem item x items :
  item ∈ insert_sorted x items ↔ item = x ∨ item ∈ items.
Proof. by rewrite insert_sorted_Permutation, elem_of_cons. Qed.

Lemma insert_sorted_StronglySorted x items :
  StronglySorted item_le items → StronglySorted item_le (insert_sorted x items).
Proof.
  induction items as [|y items IH]; cbn [insert_sorted]; intros Hl.
  - repeat constructor.
  - apply StronglySorted_inv in Hl as [Hl Hy].
    destruct (sort_key_leb x.1 y.1) eqn:Hxy.
    + constructor; [by constructor|]. constructor; [done|].
      eapply Forall_impl; [exact Hy|]. intros z Hz.
      by apply (sort_key_leb_trans _ y.1).
    + constructor; [by apply IH|].
      apply Forall_forall. intros z [-> | Hz]%insert_sorted_elem.
      * by apply sort_key_leb_total.
      * by apply (proj1 (Forall_forall _ _) Hy).
Qed.

Lemma foldr_insert_sorted_StronglySorted items :
  StronglySorted item_le (foldr insert_sorted [] items).
Proof.
  induction items as [|x items IH]; cbn [foldr]; [constructor|].
  by apply insert_sorted_StronglySorted.
Qed.

Lemma insert_sorted_stable k x items :
  filter (λ item, item.1 = k) (insert_sorted x items)
  = filter (λ item, item.1 = k) (x :: items).
Proof.
  induction items as [|y items IH]; cbn [insert_sorted]; [done|].
  destruct (sort_key_leb x.1 y.1) eqn:Hxy; [done|].
  rewrite filter_cons, IH, !filter_cons.
  destruct (decide (y.1 = k)) as [Hy|Hy]; [|done].
  destruct (decide (x.1 = k)) as [Hx|Hx]; [|done].
  rewrite Hx, Hy, sort_key_leb_refl in Hxy. discriminate.
Qed.

Lemma foldr_insert_sorted_stable k items :
  filter (λ item, item.1 = k) (foldr insert_sorted [] items)
  = filter (λ item, item.1 = k) items.
Proof.
  induction items as [|x items IH]; cbn [foldr]; [done|].
  by rewrite insert_sorted_stable, !filter_cons, IH.
Qed.

(** From the keyed assets to the assets, when each key is the sort key of
    its asset. *)
Lemma keyed_StronglySorted items :
  Forall (λ item, sort_key item.2 = Ok item.1) items →
  StronglySorted item_le items → StronglySorted sort_key_le items.*2.
Proof.
  intros Hkeys Hsorted. induction Hsorted as [|x items Hsorted IH Hx]; [constructor|].
  apply Forall_cons in Hkeys as [Hkx Hkeys]. cbn [fmap list_fmap].
  constructor; [by apply IH|]. apply Forall_fmap, Forall_forall. intros y Hy.
  exists x.1, y.1. split_and!; [done | |].
  - by apply (proj1 (Forall_forall _ _) Hkeys).
  - by apply (proj1 (Forall_forall _ _) Hx).
Qed.

Lemma keyed_filter k items :
  Forall (λ item, sort_key item.2 = Ok item.1) items →
  filter (λ a, sort_key a = Ok k) items.*2 = (filter (λ item, item.1 = k) items).*2.
Proof.
  induction 1 as [|x items Hx _ IH]; [done|].
  cbn [fmap list_fmap]. rewrite !filter_cons, IH, Hx.
  destruct (decide (x.1 = k)) as [->|Hk].
  - by rewrite decide_True.
  - rewrite decide_False; [done | congruence].
Qed.

Lemma sorted_StronglySorted (l l' : list ExamAsset) :
  sorted l = Ok l' → StronglySorted sort_key_le l'.
Proof.
  intros (items & Hkeys & ->)%sorted_Ok.
  destruct (sort_keys_Ok l items Hkeys) as [_ Hall].
  apply keyed_StronglySorted; [|apply foldr_insert_sorted_StronglySorted].
  by rewrite foldr_insert_sorted_Permutation.
Qed.

Lemma StronglySorted_sublist (l1 l2 : list ExamAsset) :
  l1 `sublist_of` l2 → StronglySorted sort_key_le l2 → StronglySorted sort_key_le l1.
Proof.
  induction 1 as [|x l1 l2 Hsub IH|x l1 l2 Hsub IH]; intros Hl2; [done|..].
  - apply StronglySorted_inv in Hl2 as [Hl2 Hx]. constructor; [by apply IH|].
    eapply Forall_forall. intros y Hy. apply (proj1 (Forall_forall _ _) Hx).
    by eapply elem_of_sublist.
  - apply StronglySorted_inv in Hl2 as [Hl2 _]. by apply IH.
Qed.

(** X15. The sort of [main] returns exactly when every asset has a sort
    key (the year of none makes [int] raise); what it returns is a
    rearrangement of the assets (nothing is lost, added or repeated), in
    the order of the sort key (subject, year as a number, session, type,
    file name), each asset before all those that follow it, and the sort
    is stable: assets with the same key stay in the order in which they
    came. *)
Theorem sorted_spec (l : list ExamAsset) :
  (Forall (λ a, ∃ k, sort_key a = Ok k) l ↔ ∃ l', sorted l = Ok l')
  ∧ ∀ l', sorted l = Ok l' →
      l' ≡ₚ l
      ∧ StronglySorted sort_key_le l'
      ∧ ∀ k, filter (λ a, sort_key a = Ok k) l' = filter (λ a, sort_key a = Ok k) l.
Proof.
  split.
  - split.
    + intros [items Hitems]%sort_keys_returns. unfold sorted.
      rewrite Hitems, bind_Ok. by eexists.
    + intros [l' (items & Hkeys & _)%sorted_Ok].
      destruct (sort_keys_Ok l items Hkeys) as [<- Hall].
      apply Forall_fmap. eapply Forall_impl; [exact Hall|]. intros item Hitem.
      by exists item.1.
  - intros l' Hsorted. split_and!.
    + by apply sorted_Permutation.
    + by apply (sorted_StronglySorted l).
    + intros k. apply sorted_Ok in Hsorted as (items & Hkeys & ->).
      destruct (sort_keys_Ok l items Hkeys) as [<- Hall].
      rewrite !keyed_filter, foldr_insert_sorted_stable; [done | done |].
      by rewrite foldr_insert_sorted_Permutation.
Qed.

End SortFacts.

Lemma sorted_spec_witness :
  (∃ l', sorted [demo_pc_other; demo_math_telmid; demo_math_other] = Ok l')
  ∧ sorted [demo_pc_other; demo_math_telmid; demo_math_other]
    = Ok [demo_math_telmid; demo_math_other; demo_pc_other].
Proof.
  split; [|vm_compute; reflexivity].
  apply (proj1 (proj1 (sorted_spec [demo_pc_other; demo_math_telmid; demo_math_other]))).
  repeat constructor; eexists; vm_compute; reflexivity.
Defined.

(** A year that [isdigit] accepts and [int] rejects, the digit two in
    superscript: the computation of the sort key raises, and so does the
    sort. *)
Example sorted_raises :
  let a := demo_asset (lit "Math") (lit "²") (lit "Normale") (lit "MainExam")
             (lit "Sujet") (lit "https://telmidtice.com/x.pdf") in
  sort_key a = Raise ValueError ∧ sorted [demo_math_telmid; a] = Raise ValueError.
Proof. split; vm_compute; reflexivity. Qed.

(** ** The accepted set *)

Section AcceptedSet.
Context {Uc : PyStr.Unicode} {U : Urllib} {N : Web}.

Lemma fetch_all_sublist l w : (fetch_all l [] w).1 `sublist_of` l.
Proof.
  destruct (fetch_all l [] w) as [manifest w'] eqn:Hrun.
  destruct (fetch_all_effect l [] w manifest w' Hrun) as (_ & kept & asked & -> & Hsub & _).
  done.
Qed.

(** X16. When [main] returns, the manifest has at most one asset for each
    canonical key, each of its assets is the entry of the final map under
    its key and its file exists in the storage tree, and the manifest is in
    the order of the sort key. *)
Theorem main_accepted_set w filled manifest w' :
  main w = Ok (filled, manifest, w') →
  NoDup (asset_key <$> manifest)
  ∧ (∀ a, a ∈ manifest → ∃ key, asset_key a = Some key ∧ filled !! key = Some a)
  ∧ Forall (stored w') manifest
  ∧ StronglySorted sort_key_le manifest.
Proof.
  intros Hmain.
  destruct (main_manifest w filled manifest w' Hmain) as [Hkeyed Hentries].
  apply main_Ok in Hmain as (m & sorted_assets & E & -> & Hsorted & Hfetch).
  pose proof (fetch_all_sublist sorted_assets w) as Hsub. rewrite Hfetch in Hsub.
  cbn [fst] in Hsub. split_and!.
  - apply (sublist_NoDup _ (asset_key <$> sorted_assets)).
    + rewrite (sorted_Permutation _ _ Hsorted). by apply keyed_values_NoDup.
    + by apply fmap_sublist.
  - intros a Ha. destruct (Hentries a Ha) as (key & ? & ?). eauto.
  - by apply (fetch_all_stored sorted_assets [] w manifest w' Hfetch).
  - by apply (StronglySorted_sublist _ _ Hsub), (sorted_StronglySorted (values (fill_gaps m))).
Qed.

End AcceptedSet.

Lemma demo_run_eq : main (U := demo_urllib) (N := demo_web) demo_world = Ok demo_run.
Proof.
  unfold demo_run, returned.
  assert (match main (U := demo_urllib) (N := demo_web) demo_world with
          | Ok _ => true
          | Raise _ => false
          end = true) as Hruns by (vm_compute; reflexivity).
  revert Hruns.
  destruct (main (U := demo_urllib) (N := demo_web) demo_world) as [run|e]; [done|].
  discriminate.
Qed.

Lemma main_accepted_set_witness :
  NoDup (asset_key <$> demo_run.1.2)
  ∧ (∀ a, a ∈ demo_run.1.2 → ∃ key, asset_key a = Some key ∧ demo_run.1.1 !! key = Some a)
  ∧ Forall (stored demo_run.2) demo_run.1.2
  ∧ StronglySorted sort_key_le demo_run.1.2.
Proof.
  apply (main_accepted_set (U := demo_urllib) (N := demo_web) demo_world).
  rewrite demo_run_eq. by destruct demo_run as [[? ?] ?].
Defined.

(** ** Links of the cloud storage *)

Section DriveLinks.
Context {Uc : PyStr.Unicode} {U : Urllib}.
Implicit Types s t : text.

Lemma rstrip_app_keep (f : char → bool) s c t :
  f c = false → PyStr.rstrip f (s ++ c :: t) = s ++ c :: PyStr.rstrip f t.
Proof.
  intros Hc. induction s as [|a s IH]; cbn [app].
  - by apply rstrip_keep.
  - cbn [PyStr.rstrip]. rewrite IH.
    destruct s; cbn [app PyStr.is_nil]; by rewrite andb_false_r.
Qed.

Lemma split_nonempty sep s : PyStr.split sep s ≠ [].
Proof.
  induction s as [|c s IH]; cbn [PyStr.split]; [done|].
  destruct (PyStr.char_eqb c sep); [done|]. by destruct (PyStr.split sep s).
Qed.

Lemma split_no_sep sep s : sep ∉ s → PyStr.split sep s = [s].
Proof.
  induction s as [|c s IH]; cbn [PyStr.split]; [done|].
  intros [Hc Hs]%not_elem_of_cons.
  destruct (PyStr.char_eqb c sep) eqn:E.
  - apply char_eqb_spec in E. by subst.
  - by rewrite IH.
Qed.

Lemma split_app sep s t :
  sep ∉ s → PyStr.split sep (s ++ sep :: t) = s :: PyStr.split sep t.
Proof.
  induction s as [|c s IH]; cbn [app PyStr.split].
  - intros _. by rewrite (proj2 (char_eqb_spec sep sep)).
  - intros [Hc Hs]%not_elem_of_cons.
    destruct (PyStr.char_eqb c sep) eqn:E.
    + apply char_eqb_spec in E. by subst.
    + by rewrite IH.
Qed.

(** The components of the path of a preview link. *)
Lemma drive_path_parts (file_id rest : text) :
  file_id ≠ [] → chr "/" ∉ file_id → (rest = [] ∨ ∃ r, rest = chr "/" :: r) →
  ∃ more, PyStr.split "/" (PyStr.strip is_slash (lit "/file/d/" ++ file_id ++ rest))
          = lit "file" :: lit "d" :: file_id :: more.
Proof.
  intros Hne Hid Hrest.
  destruct (exists_last Hne) as (id' & c & ->).
  assert (is_slash c = false) as Hc.
  { destruct (is_slash c) eqn:E; [|done]. apply char_eqb_spec in E. subst c.
    destruct Hid. apply elem_of_app. right. apply list_elem_of_here. }
  change (lit "/file/d/") with (chr "/" :: lit "file/d/").
  unfold PyStr.strip. cbn [app PyStr.lstrip].
  change (is_slash "/") with true. cbn iota.
  change (lit "file/d/" ++ (id' ++ [c]) ++ rest)
    with (chr "f" :: lit "ile/d/" ++ (id' ++ [c]) ++ rest).
  cbn [PyStr.lstrip]. change (is_slash "f") with false. cbn iota.
  change (chr "f" :: lit "ile/d/" ++ (id' ++ [c]) ++ rest)
    with (lit "file/d/" ++ (id' ++ [c]) ++ rest).
  rewrite <- (app_assoc id' [c] rest), (app_assoc (lit "file/d/") id'). cbn [app].
  rewrite rstrip_app_keep by done. rewrite <- app_assoc.
  change (lit "file/d/" ++ id' ++ c :: PyStr.rstrip is_slash rest)
    with (lit "file" ++ chr "/" :: lit "d" ++ chr "/" :: id' ++ c :: PyStr.rstrip is_slash rest).
  rewrite split_app by (apply (bool_decide_unpack _); vm_compute; exact I).
  rewrite split_app by (apply (bool_decide_unpack _); vm_compute; exact I).
  destruct Hrest as [-> | [r ->]].
  - exists []. cbn [PyStr.rstrip]. by rewrite split_no_sep.
  - destruct (PyStr.rstrip is_slash (chr "/" :: r)) as [|d tail] eqn:E.
    + exists []. by rewrite split_no_sep.
    + assert (d = chr "/") as ->.
      { rewrite rstrip_drop in E by done.
        destruct (PyStr.is_nil _); [done | by injection E]. }
      exists (PyStr.split "/" tail).
      change (id' ++ c :: chr "/" :: tail) with (id' ++ [c] ++ chr "/" :: tail).
      rewrite (app_assoc id' [c]). by rewrite split_app.
Qed.

(** X18. A preview link of the cloud storage becomes a direct download
    link: when the joined URL is on drive.google.com or docs.google.com,
    its path is /file/d/<id> or /file/d/<id>/..., with an id that is not
    empty and has no slash, and the path does not contain "telecharger",
    [normalize_pdf_url] returns
    https://drive.google.com/uc?export=download&id=<id>. *)
Theorem normalize_pdf_url_drive href base_url absolute parsed (file_id rest : text) :
  urljoin base_url href = Ok absolute →
  urlparse absolute = Ok parsed →
  netloc parsed ∈ GOOGLE_HOSTS →
  path parsed = lit "/file/d/" ++ file_id ++ rest →
  file_id ≠ [] → chr "/" ∉ file_id → (rest = [] ∨ ∃ r, rest = chr "/" :: r) →
  ¬ (∃ pre post, path parsed = pre ++ lit "telecharger" ++ post) →
  normalize_pdf_url href base_url
  = Ok (lit "https://drive.google.com/uc?export=download&id=" ++ file_id).
Proof.
  intros Hjoin Hparse Hhost Hpath Hne Hid Hrest Hhelper.
  unfold normalize_pdf_url. rewrite Hjoin, bind_Ok, Hparse, bind_Ok.
  destruct (PyStr.contains (lit "telecharger") (path parsed)) eqn:E.
  { by apply contains_spec in E. }
  unfold inb at 1. rewrite (bool_decide_eq_true_2 _ Hhost).
  destruct (drive_path_parts file_id rest Hne Hid Hrest) as [more Hparts].
  rewrite Hpath, Hparts.
  unfold inb. rewrite !bool_decide_eq_true_2.
  - cbn [andb list_index]. rewrite decide_False by (by vm_compute).
    rewrite decide_True by done. reflexivity.
  - apply list_elem_of_further, list_elem_of_here.
  - apply list_elem_of_here.
Qed.

Lemma rstrip_all (f : char → bool) s :
  Forall (λ c, f c = true) s → PyStr.rstrip f s = [].
Proof.
  induction 1 as [|c s Hc _ IH]; [done|]. by rewrite rstrip_drop, IH.
Qed.

(** X19. A preview link that stops after /file/d has no id to take: the
    index after the component "d" is out of range, and
    [normalize_pdf_url] returns the joined URL as it is. *)
Theorem normalize_pdf_url_drive_no_id href base_url absolute parsed (rest : text) :
  urljoin base_url href = Ok absolute →
  urlparse absolute = Ok parsed →
  netloc parsed ∈ GOOGLE_HOSTS →
  path parsed = lit "/file/d" ++ rest → Forall (λ c, c = chr "/") rest →
  normalize_pdf_url href base_url = Ok absolute.
Proof.
  intros Hjoin Hparse Hhost Hpath Hrest.
  unfold normalize_pdf_url. rewrite Hjoin, bind_Ok, Hparse, bind_Ok.
  assert (PyStr.contains (lit "telecharger") (path parsed) = false) as ->.
  { destruct (PyStr.contains _ _) eqn:E; [|done].
    apply contains_spec in E as (pre & post & E). rewrite Hpath in E.
    assert (chr "t" ∈ lit "/file/d" ++ rest) as Ht.
    { rewrite E. apply elem_of_app. right. apply list_elem_of_here. }
    apply elem_of_app in Ht as [Ht | Ht].
    - by apply (bool_decide_pack _) in Ht.
    - rewrite Forall_forall in Hrest. by apply Hrest in Ht. }
  unfold inb at 1. rewrite (bool_decide_eq_true_2 _ Hhost).
  assert (PyStr.split "/" (PyStr.strip is_slash (path parsed)) = [lit "file"; lit "d"])
    as ->.
  { rewrite Hpath. unfold PyStr.strip.
    change (lit "/file/d") with (chr "/" :: chr "f" :: lit "ile/d").
    cbn [app PyStr.lstrip]. change (is_slash "/") with true.
    change (is_slash "f") with false. cbn iota.
    change (chr "f" :: lit "ile/d" ++ rest) with (lit "file/" ++ chr "d" :: rest).
    rewrite rstrip_app_keep by done.
    rewrite rstrip_all by (eapply Forall_impl; [exact Hrest|]; by intros c ->).
    reflexivity. }
  reflexivity.
Qed.

End DriveLinks.

Lemma normalize_pdf_url_drive_witness :
  normalize_pdf_url (U := demo_urllib) demo_drive_href (lit "https://telmidtice.com/")
  = Ok (lit "https://drive.google.com/uc?export=download&id=" ++ lit "1AbC_dE-9").
Proof.
  apply (normalize_pdf_url_drive (U := demo_urllib) demo_drive_href
           (lit "https://telmidtice.com/") demo_drive_href
           {| scheme := lit "https"; netloc := lit "drive.google.com";
              path := lit "/file/d/1AbC_dE-9/view"; params := [];
              query := lit "usp=sharing"; fragment := [] |}
           (lit "1AbC_dE-9") (lit "/view")).
  - reflexivity.
  - reflexivity.
  - apply list_elem_of_here.
  - reflexivity.
  - discriminate.
  - apply (bool_decide_unpack _). vm_compute. exact I.
  - right. by exists (lit "view").
  - intros Hc. apply contains_spec in Hc. vm_compute in Hc. discriminate Hc.
Defined.

Lemma normalize_pdf_url_drive_no_id_witness :
  normalize_pdf_url (U := demo_urllib) (lit "https://docs.google.com/file/d/")
    (lit "https://telmidtice.com/")
  = Ok (lit "https://docs.google.com/file/d/").
Proof.
  apply (normalize_pdf_url_drive_no_id (U := demo_urllib)
           (lit "https://docs.google.com/file/d/") (lit "https://telmidtice.com/")
           (lit "https://docs.google.com/file/d/")
           {| scheme := lit "https"; netloc := lit "docs.google.com";
              path := lit "/file/d/"; params := []; query := []; fragment := [] |}
           (lit "/")).
  - reflexivity.
  - reflexivity.
  - apply list_elem_of_further, list_elem_of_here.
  - reflexivity.
  - by repeat constructor.
Defined.

(** ** One file for each key *)

Section DistinctFiles.
Context {Uc : PyStr.Unicode} {U : Urllib} {N : Web}.
Implicit Types m : gmap Key ExamAsset.

Lemma digit_alnum c : PyStr.is_digit c = true → PyStr.is_alnum c = true.
Proof. intros Hc. unfold PyStr.is_alnum. rewrite Hc. apply orb_true_r. Qed.

Lemma re_sub_nonalnum_id s :
  Forall (λ c, PyStr.is_alnum c = true) s → re_sub_nonalnum false s = s.
Proof.
  induction 1 as [|c s Hc _ IH]; cbn [re_sub_nonalnum]; [done|]. by rewrite Hc, IH.
Qed.

Lemma clean_part_id s : Forall (λ c, PyStr.is_alnum c = true) s → clean_part s = s.
Proof.
  intros H. unfold clean_part. rewrite re_sub_nonalnum_id by done.
  apply strip_id. eapply Forall_impl; [exact H|]. apply alnum_not_underscore.
Qed.

(** The name made of four parts that need no cleaning. *)
Lemma sanitize_filename_four (a b c d suffix : text) :
  Forall (λ part, part ≠ [] ∧ Forall (λ c, PyStr.is_alnum c = true) part) [a; b; c; d] →
  sanitize_filename [a; b; c; d] suffix
  = a ++ chr "_" :: b ++ chr "_" :: c ++ chr "_" :: d ++ suffix.
Proof.
  intros H.
  apply Forall_cons in H as [[Ha Ha'] H]. apply Forall_cons in H as [[Hb Hb'] H].
  apply Forall_cons in H as [[Hc Hc'] H]. apply Forall_cons in H as [[Hd Hd'] _].
  unfold sanitize_filename. cbn [safe_parts_loop].
  rewrite !clean_part_id by done.
  destruct a as [|a0 a]; [done|]. destruct b as [|b0 b]; [done|].
  destruct c as [|c0 c]; [done|]. destruct d as [|d0 d]; [done|].
  cbn [PyStr.is_nil app PyStr.join].
  change (lit "_") with [chr "_"].
  repeat (rewrite <- ?app_assoc; cbn [app]). reflexivity.
Qed.

Lemma name_words_alnum x :
  x ∈ name_words → x ≠ [] ∧ Forall (λ c, PyStr.is_alnum c = true) x.
Proof.
  assert (Forall (λ x, x ≠ [] ∧ Forall (λ c, PyStr.is_alnum c = true) x) name_words) as H.
  { repeat constructor; done. }
  rewrite Forall_forall in H. apply H.
Qed.

Lemma subject_folder config :
  config ∈ SUBJECT_SOURCES →
  s_folder config = ROOT_DIR ++ [s_code config] ∧ s_code config ∈ name_words.
Proof.
  unfold SUBJECT_SOURCES. rewrite !elem_of_cons.
  intros [-> | [-> | [-> | []%elem_of_nil]]]; (split; [reflexivity|]); cbn [s_code];
    unfold name_words; apply elem_of_app; left; rewrite !elem_of_cons; auto.
Qed.

(** Two assets placed at the same destination, their years written with
    the digits from 0 to 9, have the same key. *)
Lemma placed_inj k1 k2 a1 a2 :
  placed k1 a1 → placed k2 a2 → plain_year a1 → plain_year a2 →
  local_path a1 = local_path a2 → k1 = k2.
Proof.
  destruct k1 as [[[code1 n1] s1] t1], k2 as [[[code2 n2] s2] t2].
  intros (c1 & y1 & Hc1 & Hcode1 & Hy1 & Hint1 & Hlen1 & Hs1 & Ht1 & Hp1)
         (c2 & y2 & Hc2 & Hcode2 & Hy2 & Hint2 & Hlen2 & Hs2 & Ht2 & Hp2)
         (y1' & Hy1' & Hdig1) (y2' & Hy2' & Hdig2) Heq.
  cbn [fst snd] in *.
  assert (y1' = y1) as -> by congruence. assert (y2' = y2) as -> by congruence.
  rewrite Hp1, Hp2 in Heq. apply app_inj_tail in Heq as [Hfolder Hname].
  destruct (subject_folder c1 Hc1) as [Hf1 Hw1], (subject_folder c2 Hc2) as [Hf2 Hw2].
  rewrite Hf1, Hf2 in Hfolder. apply app_inv_head in Hfolder.
  injection Hfolder as Hcode.
  assert (code1 = code2) as <- by congruence.
  rewrite <- Hcode1 in Hw1. clear Hw2 Hf1 Hf2 Hp1 Hp2.
  assert (∀ y, length y = 4 → Forall (λ c, PyStr.is_digit c = true) y →
               y ≠ [] ∧ Forall (λ c, PyStr.is_alnum c = true) y) as Hyear.
  { intros y Hlen Hdig. split; [by destruct y|].
    eapply Forall_impl; [exact Hdig|]. apply digit_alnum. }
  assert (∀ s, s ∈ TARGET_SESSIONS → s ∈ name_words) as Hsw.
  { intros s Hs. apply elem_of_app. right. apply elem_of_app. by left. }
  assert (∀ t, t ∈ TARGET_ASSET_TYPES → t ∈ name_words) as Htw.
  { intros t Ht. apply elem_of_app. right. apply elem_of_app. by right. }
  assert (∀ y s t, length y = 4 → Forall (λ c, PyStr.is_digit c = true) y →
                   s ∈ TARGET_SESSIONS → t ∈ TARGET_ASSET_TYPES →
                   Forall (λ part, part ≠ [] ∧ Forall (λ c, PyStr.is_alnum c = true) part)
                     [code1; y; s; t]) as Hparts.
  { intros y s t Hlen Hdig Hs Ht.
    repeat apply Forall_cons_2;
      [by apply name_words_alnum | by apply Hyear | by apply name_words_alnum, Hsw
      | by apply name_words_alnum, Htw | apply Forall_nil_2]. }
  rewrite !sanitize_filename_four in Hname by (by apply Hparts).
  apply app_inv_head in Hname. injection Hname as Hname.
  apply app_inj_1 in Hname as [-> Hname]; [|congruence].
  injection Hname as Hname.
  assert (n1 = n2) as -> by congruence.
  unfold TARGET_SESSIONS in Hs1, Hs2. unfold TARGET_ASSET_TYPES in Ht1, Ht2.
  rewrite !elem_of_cons, elem_of_nil in Hs1, Hs2, Ht1, Ht2.
  destruct Hs1 as [-> | [-> | []]], Hs2 as [-> | [-> | []]],
           Ht1 as [-> | [-> | []]], Ht2 as [-> | [-> | []]];
    first [reflexivity | by vm_compute in Hname].
Qed.

Lemma year_token_length (y : text) : is_year_token y → length y = 4.
Proof. by intros (c & d & _ & _ & [-> | ->]). Qed.

(** A harvested asset that has a key is placed by it. *)
Lemma extracted_placed config anchors page key (a : ExamAsset) :
  config ∈ SUBJECT_SOURCES →
  extracted anchors page (s_code config) (s_label config) (s_folder config) a →
  asset_key a = Some key → placed key a.
Proof.
  intros Hconfig (_ & Hcode & _ & _ & _ & _ & _ & Htype & Hyear & Hsession & _ & Hpath) Hkey.
  unfold asset_key in Hkey.
  destruct (year a) as [y|] eqn:Ey; [|done].
  destruct (session a) as [s|] eqn:Es; [|done].
  destruct (PyStr.int y) as [n|] eqn:En; [|done].
  rewrite session_label_same in Hkey.
  destruct (inb s TARGET_SESSIONS) eqn:Hs; [|done].
  destruct (inb (asset_type a) TARGET_ASSET_TYPES) eqn:Ht; [|done].
  cbn [negb] in Hkey. injection Hkey as <-.
  symmetry in Hyear. unfold identify_year in Hyear.
  apply EXAM_YEAR_RE_search_token, year_token_length in Hyear.
  exists config, y. cbn [fst snd]. cbn [default] in Hpath. rewrite Hcode.
  split_and!; try done.
  - by apply bool_decide_eq_true in Hs.
  - by apply bool_decide_eq_true in Ht.
Qed.

Lemma harvest_subject_extracted code label folder pages l :
  harvest_subject code label folder pages = Ok l →
  Forall (λ a, ∃ anchors page, extracted anchors page code label folder a) l.
Proof.
  revert l. induction pages as [|page pages IH]; intros l; cbn [harvest_subject].
  - intros [= <-]. constructor.
  - destruct (harvest_page code label folder page) as [new|] eqn:Hpage; [|done].
    rewrite bind_Ok.
    destruct (harvest_subject code label folder pages) as [more|]; [|done].
    rewrite bind_Ok. intros <-%Ok_inj.
    apply Forall_app. split; [|by apply IH].
    unfold harvest_page in Hpage. destruct (fetch_page page) as [|anchors].
    + apply Ok_inj in Hpage as <-. constructor.
    + destruct (parse_exam_links_inv _ _ _ _ _ _ Hpage) as [_ H].
      eapply Forall_impl; [exact H|]. intros a Ha. by exists anchors, page.
Qed.

Lemma harvest_all_placed subjects m m' :
  harvest_all subjects m = Ok m' →
  (∀ config, config ∈ subjects → config ∈ SUBJECT_SOURCES) →
  (∀ k a, m !! k = Some a → placed k a) → ∀ k a, m' !! k = Some a → placed k a.
Proof.
  revert m. induction subjects as [|config subjects IH]; intros m; cbn [harvest_all].
  - by intros [= <-].
  - destruct (harvest_subject _ _ _ _) as [subject_assets|] eqn:Hh; [|done].
    rewrite bind_Ok.
    destruct (reconcile subject_assets m) as [m1|] eqn:E; [|done]. rewrite bind_Ok.
    intros Hrest Hsub Hm. apply (IH m1 Hrest).
    + intros c Hc. by apply Hsub, list_elem_of_further.
    + intros k a Ha.
      destruct (reconcile_entries _ _ _ E k a Ha) as [H | [Hin Hk]]; [by apply Hm|].
      pose proof (harvest_subject_extracted _ _ _ _ _ Hh) as Hex.
      rewrite Forall_forall in Hex. destruct (Hex a Hin) as (anchors & page & Hx).
      apply (extracted_placed config anchors page); [|done..].
      apply Hsub, list_elem_of_here.
Qed.

Lemma expected_entries_subject e : e ∈ expected_entries → e.1.1.1 ∈ SUBJECT_SOURCES.
Proof.
  unfold expected_entries. intros H.
  apply list_elem_of_bind in H as (config & H & Hc).
  apply list_elem_of_bind in H as (y & H & Hy).
  apply list_elem_of_bind in H as (s & H & Hs).
  apply list_elem_of_bind in H as (t & H & Ht).
  apply list_elem_of_singleton in H as ->. done.
Qed.

Lemma str_YEARS : Forall (λ y, length (PyStr.str y) = 4) YEARS.
Proof. repeat constructor. Qed.

(** A fallback asset of an expected key is placed by it. *)
Lemma build_telmid_asset_placed config y s t (a : ExamAsset) :
  (config, y, s, t) ∈ expected_entries →
  build_telmid_asset (s_code config) (s_label config) (s_folder config) y s t = Some a →
  placed (s_code config, y, s, t) a.
Proof.
  intros He. destruct (expected_entries_elem _ He) as (Hy & Hs & Ht).
  pose proof (expected_entries_subject _ He) as Hc. cbn [fst snd] in Hy, Hs, Ht, Hc.
  pose proof str_YEARS as Hstr. rewrite Forall_forall in Hstr.
  pose proof (Hstr y Hy) as Hlen.
  unfold build_telmid_asset.
  destruct (dict_get TELMID_PATTERNS (s_code config)) as [pattern|]; [|done].
  destruct (dict_get TYPE_LABELS t) as [type_label|]; [|done].
  destruct (probe_ok _); cbn [negb]; [|done].
  intros [= <-]. exists config, (PyStr.str y). cbn [fst snd local_path year].
  split_and!; try done. apply int_str.
Qed.

Lemma fill_gaps_placed_from m es :
  (∀ e, e ∈ es → e ∈ expected_entries) →
  (∀ k a, m !! k = Some a → placed k a) →
  ∀ k a, foldl fill_gap m es !! k = Some a → placed k a.
Proof.
  revert m. induction es as [|e es IH]; intros m Hes Hm; simpl; [done|].
  apply IH; [intros e' He'; by apply Hes, list_elem_of_further|].
  intros k a. pose proof (Hes e (list_elem_of_here _ _)) as He.
  destruct e as [[[config y] s] t]. unfold fill_gap.
  destruct (m !! (s_code config, y, s, t)); [apply Hm|].
  destruct (build_telmid_asset _ _ _ _ _ _) as [fallback_asset|] eqn:Hb; [|apply Hm].
  rewrite lookup_insert. case_decide as Hk; [|apply Hm].
  intros [= <-]. subst k. by apply build_telmid_asset_placed.
Qed.

(** Every entry of the final map of [main] is placed by its key. *)
Lemma main_placed w filled manifest w' :
  main w = Ok (filled, manifest, w') → ∀ k a, filled !! k = Some a → placed k a.
Proof.
  intros (m & sorted_assets & E & -> & _ & _)%main_Ok.
  rewrite fill_gaps_eq. apply fill_gaps_placed_from; [done|].
  apply (harvest_all_placed _ _ _ E); [done|].
  intros k a Ha. by rewrite lookup_empty in Ha.
Qed.

(** X17. When [main] returns, two entries of the final map whose years
    are written with the digits from 0 to 9 and that have the same
    destination file are under the same key, and two such assets of the
    manifest are the same asset: among these no file stands for two keys.
    (A year in the digits of another script is cleaned out of the file
    name, and two such years can share a file.) *)
Theorem main_distinct_files w filled manifest w' :
  main w = Ok (filled, manifest, w') →
  (∀ k1 k2 a1 a2, filled !! k1 = Some a1 → filled !! k2 = Some a2 →
                  plain_year a1 → plain_year a2 →
                  local_path a1 = local_path a2 → k1 = k2)
  ∧ (∀ a1 a2, a1 ∈ manifest → a2 ∈ manifest → plain_year a1 → plain_year a2 →
              local_path a1 = local_path a2 → a1 = a2).
Proof.
  intros Hmain. pose proof (main_placed w filled manifest w' Hmain) as Hplaced.
  assert (∀ k1 k2 a1 a2, filled !! k1 = Some a1 → filled !! k2 = Some a2 →
                         plain_year a1 → plain_year a2 →
                         local_path a1 = local_path a2 → k1 = k2) as Hinj.
  { intros k1 k2 a1 a2 H1 H2. apply placed_inj; by apply Hplaced. }
  split; [exact Hinj|].
  destruct (main_manifest w filled manifest w' Hmain) as [_ Hentries].
  intros a1 a2 Ha1 Ha2 Hy1 Hy2 Heq.
  destruct (Hentries a1 Ha1) as (k1 & H1 & _), (Hentries a2 Ha2) as (k2 & H2 & _).
  rewrite (Hinj k1 k2 a1 a2 H1 H2 Hy1 Hy2 Heq) in H1. congruence.
Qed.

End DistinctFiles.

Lemma main_distinct_files_witness :
  (∀ k1 k2 a1 a2, demo_run.1.1 !! k1 = Some a1 → demo_run.1.1 !! k2 = Some a2 →
                  plain_year a1 → plain_year a2 →
                  local_path a1 = local_path a2 → k1 = k2)
  ∧ (∀ a1 a2, a1 ∈ demo_run.1.2 → a2 ∈ demo_run.1.2 → plain_year a1 → plain_year a2 →
              local_path a1 = local_path a2 → a1 = a2).
Proof.
  apply (main_distinct_files (U := demo_urllib) (N := demo_web) demo_world _ _ demo_run.2).
  rewrite demo_run_eq. by destruct demo_run as [[? ?] ?].
Defined.

(** Two years in the digits of another script: the candidates have the
    keys of 2021 and of 2022, and one destination file. *)
Example other_script_years_share_a_file :
  (λ r, match r with
        | Ok l => Some ((λ a, (asset_key a, last (local_path a))) <$> l)
        | Raise _ => None
        end)
    (parse_exam_links (U := demo_urllib)
       [demo_anchor_other_script;
        {| href := Some (lit "https://telmidtice.com/assets/math-2022-ar.pdf");
           get_text := lit "Sujet 20٢٢ session normale" |}]
       (lit "https://telmidtice.com/") (lit "Math") (lit "Mathématiques")
       [lit "root"; lit "Math"])
  = Some [(Some (lit "Math", 2021%Z, lit "Normale", lit "MainExam"),
           Some (lit "Math_20_Normale_MainExam.pdf"));
          (Some (lit "Math", 2022%Z, lit "Normale", lit "MainExam"),
           Some (lit "Math_20_Normale_MainExam.pdf"))].
Proof. vm_compute. reflexivity. Qed.
